(** * go-dbase: the table/memo I/O engine and the value codec

    A shallow embedding of the I/O engine of the package (Close, readMemo,
    writeMemo, writeMemoHeader, readRow, writeRow, Search, GoTo, Skip) and
    of [interpreter.go] (dataToValue, getCRepresentation,
    getYRepresentation, toBinary), followed by the properties of the
    specification that concern them.

    Conventions.
    - Fixed-width Go integers are [Z] with the wrap-around written out
      ([uint32], [int64], ...).
    - A byte is [Byte.byte]; a [[]byte] and a Go [string] are [list byte].
    - A Go function returning [(T, error)] returns a [result T], one
      returning [error] an [option error]; a method that mutates the handle
      takes a [DBF] and returns the new one.
    - The operating system is part of the state: a [File] carries its bytes,
      its cursor and a fault oracle telling which system calls fail.
    - The mutexes are not modelled: every function here runs alone. *)

From Stdlib Require Import ZArith List Lia Bool String Ascii.
From Stdlib Require Import Strings.Byte.
From Stdlib Require Import Floats.SpecFloat.
Import ListNotations.
Local Open Scope Z_scope.


(* ================================================================= *)
(** ** Machine integers and bytes *)

Definition byte := Byte.byte.

Definition b2z (b : byte) : Z := Z.of_N (Byte.to_N b).

(** [byte(v)]: the low eight bits of an integer. *)
Definition z2b (z : Z) : byte :=
  match Byte.of_N (Z.to_N (Z.land z 255)) with
  | Some b => b
  | None => Byte.x00
  end.

Definition uint8 (z : Z) : Z := z mod 2 ^ 8.
Definition uint16 (z : Z) : Z := z mod 2 ^ 16.
Definition uint32 (z : Z) : Z := z mod 2 ^ 32.
Definition uint64 (z : Z) : Z := z mod 2 ^ 64.
Definition int32 (z : Z) : Z := (z + 2 ^ 31) mod 2 ^ 32 - 2 ^ 31.
Definition int64 (z : Z) : Z := (z + 2 ^ 63) mod 2 ^ 64 - 2 ^ 63.

Definition is_uint16 (z : Z) : Prop := 0 <= z < 2 ^ 16.
Definition is_uint32 (z : Z) : Prop := 0 <= z < 2 ^ 32.

(* ================================================================= *)
(** ** Slices *)

Definition len {A} (l : list A) : Z := Z.of_nat (List.length l).

(** [make([]byte, n)] *)
Definition make (n : Z) : list byte := repeat Byte.x00 (Z.to_nat n).

(** [copy(dst, src)]: the first [min(len dst, len src)] elements of [dst]
    are replaced; the value is the new [dst]. *)
Definition copy (dst src : list byte) : list byte :=
  firstn (List.length dst) src ++ skipn (List.length src) dst.

(** [f(buf[lo:hi])] for an [f] that writes into the sub-slice it is given;
    [None] is the run-time panic of a slice expression out of range. *)
Definition slice_update (buf : list byte) (lo hi : Z)
    (f : list byte -> list byte) : option (list byte) :=
  if (lo <=? hi) && (hi <=? len buf) then
    let sub := firstn (Z.to_nat (hi - lo)) (skipn (Z.to_nat lo) buf) in
    Some (firstn (Z.to_nat lo) buf ++ f sub ++ skipn (Z.to_nat hi) buf)
  else None.

(** [bytes.Contains(b, sub)] *)
Fixpoint has_prefix (sub b : list byte) : bool :=
  match sub, b with
  | [], _ => true
  | _ :: _, [] => false
  | x :: sub', y :: b' => Byte.eqb x y && has_prefix sub' b'
  end.

Fixpoint Contains (b sub : list byte) : bool :=
  has_prefix sub b ||
  match b with
  | [] => false
  | _ :: b' => Contains b' sub
  end.

(* ================================================================= *)
(** ** encoding/binary *)

Module BigEndian.

Definition PutUint16 (v : Z) : list byte :=
  [z2b (Z.shiftr v 8); z2b v].

Definition PutUint32 (v : Z) : list byte :=
  [z2b (Z.shiftr v 24); z2b (Z.shiftr v 16); z2b (Z.shiftr v 8); z2b v].

(** [None]: index out of range on a slice shorter than four bytes. *)
Definition Uint32 (b : list byte) : option Z :=
  match b with
  | b0 :: b1 :: b2 :: b3 :: _ =>
      Some (Z.lor (Z.lor (Z.lor (b2z b3) (Z.shiftl (b2z b2) 8))
                    (Z.shiftl (b2z b1) 16)) (Z.shiftl (b2z b0) 24))
  | _ => None
  end.

End BigEndian.

Module LittleEndian.

Definition PutUint32 (v : Z) : list byte :=
  [z2b v; z2b (Z.shiftr v 8); z2b (Z.shiftr v 16); z2b (Z.shiftr v 24)].

Definition PutUint64 (v : Z) : list byte :=
  [z2b v; z2b (Z.shiftr v 8); z2b (Z.shiftr v 16); z2b (Z.shiftr v 24);
   z2b (Z.shiftr v 32); z2b (Z.shiftr v 40); z2b (Z.shiftr v 48);
   z2b (Z.shiftr v 56)].

Definition Uint32 (b : list byte) : option Z :=
  match b with
  | b0 :: b1 :: b2 :: b3 :: _ =>
      Some (Z.lor (Z.lor (Z.lor (b2z b0) (Z.shiftl (b2z b1) 8))
                    (Z.shiftl (b2z b2) 16)) (Z.shiftl (b2z b3) 24))
  | _ => None
  end.

Definition Uint64 (b : list byte) : option Z :=
  match b with
  | b0 :: b1 :: b2 :: b3 :: b4 :: b5 :: b6 :: b7 :: _ =>
      Some (Z.lor (Z.lor (Z.lor (Z.lor (Z.lor (Z.lor (Z.lor
             (b2z b0) (Z.shiftl (b2z b1) 8)) (Z.shiftl (b2z b2) 16))
             (Z.shiftl (b2z b3) 24)) (Z.shiftl (b2z b4) 32))
             (Z.shiftl (b2z b5) 40)) (Z.shiftl (b2z b6) 48))
             (Z.shiftl (b2z b7) 56))
  | _ => None
  end.

End LittleEndian.

(* ================================================================= *)
(** ** Errors and results *)

(** The system calls the engine issues on a file handle. *)
Inductive Op : Type := OpSeek | OpRead | OpWrite | OpClose | OpLock | OpUnlock.

Inductive error : Type :=
| ErrEOF                                   (* dbase.ErrEOF *)
| ErrIncomplete                            (* dbase.ErrIncomplete *)
| ErrNoFPT                                 (* dbase.ErrNoFPT *)
| io_EOF                                   (* io.EOF *)
| os_ErrInvalid                            (* method called on a nil *os.File *)
| os_ErrClosed                             (* use of a closed file *)
| EINVAL                                   (* negative seek offset, bad fcntl argument *)
| EBADF                                    (* fcntl on an invalid descriptor *)
| EIO (op : Op)                            (* the system call failed *)
| External (msg : string)                  (* raised by a collaborator *)
| Errorf (format : string)                 (* fmt.Errorf without %w *)
| Errorfw (format : string) (e : error)    (* fmt.Errorf wrapping e with %w *)
| newError (site : string) (e : error).    (* the site-identifier wrapper *)

(** [errors.Is(e, target)] for the sentinels: follow the wrapping chain. *)
Fixpoint unwrap (e : error) : error :=
  match e with
  | newError _ e' => unwrap e'
  | Errorfw _ e' => unwrap e'
  | _ => e
  end.


(** What a Go function of type [(T, error)] hands back. [ErrWith] is a
    non-nil error together with a meaningful value; [Panic] is a run-time
    panic (index or slice bounds out of range). *)
Inductive result (A : Type) : Type :=
| Ok (a : A)
| Err (e : error)
| ErrWith (a : A) (e : error)
| Panic (msg : string).

Arguments Ok {A} a.
Arguments Err {A} e.
Arguments ErrWith {A} a e.
Arguments Panic {A} msg.

(* ================================================================= *)
(** ** Files *)

(** An [os.File] on a regular file. [contents] is the byte at each offset
    ([x00] in holes), [size] the file length, [cursor] the position of the
    next read or write, [closes] the number of [Close] calls made on the
    file, and [fault op off] tells whether the system call [op] issued at
    offset [off] fails. *)
Record File : Type := mkFile {
  contents : Z -> byte;
  size : Z;
  cursor : Z;
  closes : nat;
  fault : Op -> Z -> bool
}.

(** A [*os.File]: [None] is the nil pointer. *)
Definition handle : Type := option File.

Definition is_closed (f : File) : bool := negb (Nat.eqb (closes f) 0).

Definition set_cursor (f : File) (c : Z) : File :=
  mkFile (contents f) (size f) c (closes f) (fault f).

(** The bytes of [f] in [[off, off + n)]. *)
Definition read_range (f : File) (off : Z) (n : nat) : list byte :=
  map (fun i => contents f (off + Z.of_nat i)) (seq 0 n).

(** [f.Seek(off, 0)] *)
Definition Seek (h : handle) (off : Z) : option error * handle :=
  match h with
  | None => (Some os_ErrInvalid, h)
  | Some f =>
      if is_closed f then (Some os_ErrClosed, h)
      else if off <? 0 then (Some EINVAL, h)
      else if fault f OpSeek off then (Some (EIO OpSeek), h)
      else (None, Some (set_cursor f off))
  end.

(** [f.Read(buf)] with [len(buf) = n]: the bytes read (their number is the
    count Go returns; the rest of [buf] is left as it was) and the error.
    A read of no bytes succeeds; a read at or past the end is [io.EOF]; a
    read that crosses the end is short. *)
Definition Read (h : handle) (n : Z) : list byte * option error * handle :=
  match h with
  | None => ([], Some os_ErrInvalid, h)
  | Some f =>
      if is_closed f then ([], Some os_ErrClosed, h)
      else if n <=? 0 then ([], None, h)
      else if fault f OpRead (cursor f) then ([], Some (EIO OpRead), h)
      else if size f <=? cursor f then ([], Some io_EOF, h)
      else
        let k := Z.min n (size f - cursor f) in
        (read_range f (cursor f) (Z.to_nat k), None,
         Some (set_cursor f (cursor f + k)))
  end.

(** The file after [b] has been stored at offset [c]. *)
Definition store (f : File) (c : Z) (b : list byte) : File :=
  mkFile (fun i => if (c <=? i) && (i <? c + len b)
                   then nth (Z.to_nat (i - c)) b Byte.x00
                   else contents f i)
         (Z.max (size f) (c + len b)) (c + len b) (closes f) (fault f).

(** [f.Write(b)]: the bytes land at the cursor, the file grows as needed. *)
Definition Write (h : handle) (b : list byte) : option error * handle :=
  match h with
  | None => (Some os_ErrInvalid, h)
  | Some f =>
      if is_closed f then (Some os_ErrClosed, h)
      else if fault f OpWrite (cursor f) then (Some (EIO OpWrite), h)
      else (None, Some (store f (cursor f) b))
  end.

(** [f.Close()] on a non-nil handle: every call is counted; a second call
    reports [os.ErrClosed]. *)
Definition File_Close (f : File) : option error * File :=
  let f' := mkFile (contents f) (size f) (cursor f) (S (closes f)) (fault f) in
  if is_closed f then (Some os_ErrClosed, f')
  else if fault f OpClose 0 then (Some (EIO OpClose), f')
  else (None, f').

(** [unix.FcntlFlock(f.Fd(), F_SETLK, {F_WRLCK, start, ...})] inside its
    retry loop. The loop sleeps and retries while the call reports EAGAIN;
    what is kept here is how it ends: the lock is granted, or the call fails
    with another error. [Fd()] of a nil or closed handle is an invalid
    descriptor. *)
Definition FcntlFlock_lock (h : handle) (start : Z) : option error :=
  match h with
  | None => Some EBADF
  | Some f =>
      if is_closed f then Some EBADF
      else if fault f OpLock start then Some (EIO OpLock)
      else None
  end.

(** The deferred [unix.FcntlFlock(f.Fd(), unix.F_ULOCK, flock)]. The
    second argument of [FcntlFlock] is the fcntl command, and [F_ULOCK] is
    0, the number of the command [F_DUPFD]: the call asks for a duplicate
    of the descriptor numbered at least the address of [flock], which the
    kernel refuses with EINVAL on every open descriptor. No lock is
    released, and the call never succeeds. *)
Definition FcntlFlock_unlock (h : handle) (start : Z) : option error :=
  match h with
  | None => Some EBADF
  | Some f => if is_closed f then Some EBADF else Some EINVAL
  end.

(* ================================================================= *)
(** ** The handle on a table *)

Record Config : Type := mkConfig {
  Exclusive : bool;
  Untested : bool;
  TrimSpaces : bool;
  WriteLock : bool;
  CodePageValidation : bool
}.

(** The table header: the fields section 3 of the specification lists. *)
Record Header : Type := mkHeader {
  FileType : Z;      (* uint8 *)
  Year : Z;          (* uint8 *)
  Month : Z;         (* uint8 *)
  Day : Z;           (* uint8 *)
  RowsCount : Z;     (* uint32 *)
  FirstRow : Z;      (* uint16 *)
  RowLength : Z;     (* uint16 *)
  TableFlags : Z;    (* uint8 *)
  CodePage : Z       (* uint8 *)
}.

Record MemoHeader : Type := mkMemoHeader {
  NextFree : Z;      (* uint32 *)
  BlockSize : Z      (* uint16 *)
}.

(** The column descriptor (section 3 of the specification). *)
Record Column : Type := mkColumn {
  FieldName : list byte;
  DataType : byte;
  Position : Z;      (* uint32 *)
  Length : Z;        (* uint8 *)
  Decimals : Z       (* uint8 *)
}.

(** [type DBF struct]. [rowPointer] is [table.rowPointer]. [memoHeader] is
    only dereferenced behind a [memoFile != nil] test; Open sets both
    together. *)
Record DBF : Type := mkDBF {
  config : Config;
  dbaseFile : handle;
  memoFile : handle;
  header : Header;
  memoHeader : MemoHeader;
  rowPointer : Z     (* uint32 *)
}.

Definition set_dbaseFile (d : DBF) (f : handle) : DBF :=
  mkDBF (config d) f (memoFile d) (header d) (memoHeader d) (rowPointer d).
Definition set_memoFile (d : DBF) (f : handle) : DBF :=
  mkDBF (config d) (dbaseFile d) f (header d) (memoHeader d) (rowPointer d).
Definition set_header (d : DBF) (h : Header) : DBF :=
  mkDBF (config d) (dbaseFile d) (memoFile d) h (memoHeader d) (rowPointer d).
Definition set_memoHeader (d : DBF) (h : MemoHeader) : DBF :=
  mkDBF (config d) (dbaseFile d) (memoFile d) (header d) h (rowPointer d).
Definition set_rowPointer (d : DBF) (p : Z) : DBF :=
  mkDBF (config d) (dbaseFile d) (memoFile d) (header d) (memoHeader d) p.

Definition set_RowsCount (h : Header) (n : Z) : Header :=
  mkHeader (FileType h) (Year h) (Month h) (Day h) n (FirstRow h)
           (RowLength h) (TableFlags h) (CodePage h).
Definition set_date (h : Header) (y m d : Z) : Header :=
  mkHeader (FileType h) y m d (RowsCount h) (FirstRow h)
           (RowLength h) (TableFlags h) (CodePage h).
Definition set_NextFree (h : MemoHeader) (n : Z) : MemoHeader :=
  mkMemoHeader n (BlockSize h).

(** The header fields are within their Go types. *)
Definition header_in_range (h : Header) : Prop :=
  is_uint32 (RowsCount h) /\ is_uint16 (FirstRow h) /\ is_uint16 (RowLength h).

Definition memoHeader_in_range (h : MemoHeader) : Prop :=
  is_uint32 (NextFree h) /\ is_uint16 (BlockSize h).

(** An open file on which no system call fails. *)
Definition healthy (h : handle) : Prop :=
  exists f, h = Some f /\ closes f = 0%nat /\
            forall op off, fault f op off = false.

(* ================================================================= *)
(** ** Open / Close *)

(** [func (dbf *DBF) Close() error] *)
Definition Close (dbf : DBF) : option error * DBF :=
  let '(err1, dbf1) :=
    match dbaseFile dbf with
    | Some f =>
        let '(err, f') := File_Close f in
        (match err with
         | Some e => Some (newError "dbase-io-close-1"
                             (Errorfw "closing DBF failed with error: %w" e))
         | None => None
         end, set_dbaseFile dbf (Some f'))
    | None => (None, dbf)
    end in
  match err1 with
  | Some e => (Some e, dbf1)
  | None =>
      match memoFile dbf1 with
      | Some f =>
          let '(err, f') := File_Close f in
          (match err with
           | Some e => Some (newError "dbase-io-close-2"
                               (Errorfw "closing FPT failed with error: %w" e))
           | None => None
           end, set_memoFile dbf1 (Some f'))
      | None => (None, dbf1)
      end
  end.

(* ================================================================= *)
(** ** General DBF handler: GoTo, Skip *)

(** [func (dbf *DBF) GoTo(rowNumber uint32) error] *)
Definition GoTo (rowNumber : Z) (dbf : DBF) : option error * DBF :=
  if rowNumber >? RowsCount (header dbf) then
    (Some (newError "dbase-io-goto-1" (Errorfw "%w, go to %v > %v" ErrEOF)),
     set_rowPointer dbf (RowsCount (header dbf)))
  else (None, set_rowPointer dbf rowNumber).

(** [func (dbf *DBF) Skip(offset int64)]: the two guarded assignments are
    followed by an unconditional one. *)
Definition Skip (offset : Z) (dbf : DBF) : DBF :=
  let newval := int64 (rowPointer dbf + offset) in
  let dbf1 :=
    if newval >=? RowsCount (header dbf)
    then set_rowPointer dbf (RowsCount (header dbf)) else dbf in
  let dbf2 := if newval <? 0 then set_rowPointer dbf1 0 else dbf1 in
  set_rowPointer dbf2 (uint32 newval).

(** The clamp of [v] to [[0, hi]], as the comment above [Skip] and the
    specification describe it. *)
Definition clamp (hi v : Z) : Z :=
  if v >? hi then hi else if v <? 0 then 0 else v.

(* ================================================================= *)
(** ** Values, fields and rows *)

(** A float64 is a [spec_float] at precision 53 and exponent bound 1024,
    with the operations of IEEE 754 binary64 (round to nearest even). *)
Definition float64 : Type := spec_float.
Definition f64_of_Z (z : Z) : float64 := binary_normalize 53 1024 z 0 false.
Definition f64_mul : float64 -> float64 -> float64 := SFmul 53 1024.
Definition f64_div : float64 -> float64 -> float64 := SFdiv 53 1024.

(** [int64(f)]: truncation toward zero. For a NaN, an infinity or a value
    outside int64 the Go specification leaves the result to the platform;
    amd64 yields the minimum int64. *)
Definition f64_to_int64 (f : float64) : Z :=
  match f with
  | S754_zero _ => 0
  | S754_finite s m e =>
      let t := if 0 <=? e then Zpos m * 2 ^ e else Zpos m / 2 ^ (- e) in
      let v := if s then - t else t in
      if (- 2 ^ 63 <=? v) && (v <? 2 ^ 63) then v else - 2 ^ 63
  | _ => - 2 ^ 63
  end.

(** [math.Float64frombits] *)
Definition Float64frombits (bits : Z) : float64 :=
  let s := Z.testbit bits 63 in
  let e := Z.land (Z.shiftr bits 52) 2047 in
  let m := Z.land bits (2 ^ 52 - 1) in
  if e =? 0 then
    match m with Zpos p => S754_finite s p (-1074) | _ => S754_zero s end
  else if e =? 2047 then
    if m =? 0 then S754_infinity s else S754_nan
  else
    match m + 2 ^ 52 with
    | Zpos p => S754_finite s p (e - 1075)
    | _ => S754_nan
    end.

(** The dynamic type of an [interface{}] holding a column value.
    A [time.Time] is kept as its Unix time in nanoseconds. *)
Inductive value : Type :=
| VNil
| VString (s : list byte)
| VBytes (b : list byte)
| VInt32 (i : Z)
| VInt64 (i : Z)
| VFloat64 (f : float64)
| VBool (b : bool)
| VTime (t : Z).

Record Field : Type := mkField {
  column : Column;
  value_of : value
}.

(** [type Row struct]; [RowPosition] is its [Position] field. *)
Record Row : Type := mkRow {
  RowPosition : Z;   (* uint32 *)
  RowDeleted : bool;
  fields : list Field
}.

(** [column.Type()]: [string(c.DataType)], the UTF-8 encoding of the code
    point given by the byte. *)
Definition ascii_of_Z (z : Z) : ascii := ascii_of_N (Z.to_N z).

Definition string_of_rune (r : byte) : string :=
  let b := b2z r in
  if b <? 128 then String (ascii_of_Z b) EmptyString
  else String (ascii_of_Z (Z.lor 192 (Z.shiftr b 6)))
         (String (ascii_of_Z (Z.lor 128 (Z.land b 63))) EmptyString).

Definition ColumnType (c : Column) : string := string_of_rune (DataType c).

(** The type codes that [dataToValue] handles. *)
Definition supported_types : list byte :=
  ["B"; "C"; "D"; "F"; "I"; "L"; "M"; "N"; "T"; "V"; "Y"]%byte.

(* ================================================================= *)
(** ** interpreter.go: toBinary *)

(** The fixed-size data handed to [toBinary]; [data_other] stands for a
    value [binary.Write] refuses. *)
Inductive bindata : Type :=
| data_uint32 (v : Z)
| data_int32 (v : Z)
| data_uint64 (v : Z)
| data_int64 (v : Z)
| data_other.

(** [func toBinary(data interface{}) ([]byte, error)]: little-endian. *)
Definition toBinary (data : bindata) : result (list byte) :=
  match data with
  | data_uint32 v => Ok (LittleEndian.PutUint32 v)
  | data_int32 v => Ok (LittleEndian.PutUint32 (uint32 v))
  | data_uint64 v => Ok (LittleEndian.PutUint64 v)
  | data_int64 v => Ok (LittleEndian.PutUint64 (uint64 v))
  | data_other =>
      Err (Errorfw "dbase-interpreter-tobinary-1:FAILED:%w"
             (External "binary.Write: invalid type"))
  end.

(* ================================================================= *)
(** ** Memo file IO handler *)

(** The eight bytes [writeMemoHeader] writes: [buf[:4]] and [buf[6:8]] of
    a [make([]byte, 8)]. *)
Definition memo_header_bytes (nextFree blockSize : Z) : list byte :=
  BigEndian.PutUint32 nextFree ++ [Byte.x00; Byte.x00]
  ++ BigEndian.PutUint16 blockSize.

(** The statements of [writeMemoHeader] that run under the lock. *)
Definition writeMemoHeader_body (dbf : DBF) : option error * DBF :=
  (* Seek to the beginning of the file *)
  let '(err, mf) := Seek (memoFile dbf) 0 in
  let dbf := set_memoFile dbf mf in
  match err with
  | Some e => (Some (newError "dbase-io-writememoheader-4" e), dbf)
  | None =>
      (* Calculate the next free block *)
      let dbf :=
        set_memoHeader dbf
          (set_NextFree (memoHeader dbf)
             (uint32 (NextFree (memoHeader dbf) + 1))) in
      (* Write the memo header *)
      let buf :=
        memo_header_bytes (NextFree (memoHeader dbf))
          (BlockSize (memoHeader dbf)) in
      let '(err, mf) := Write (memoFile dbf) buf in
      let dbf := set_memoFile dbf mf in
      match err with
      | Some e => (Some (newError "dbase-io-writememoheader-5" e), dbf)
      | None => (None, dbf)
      end
  end.

(** [func (dbf *DBF) writeMemoHeader() (err error)]. The result is named,
    so the deferred unlock (issued on the table file's descriptor) replaces
    it when the unlock fails, which it always does. *)
Definition writeMemoHeader (dbf : DBF) : option error * DBF :=
  match memoFile dbf with
  | None => (Some (newError "dbase-io-writememoheader-1" ErrNoFPT), dbf)
  | Some _ =>
      (* Lock the block we are writing to *)
      if WriteLock (config dbf) then
        match FcntlFlock_lock (memoFile dbf) 0 with
        | Some e => (Some (newError "dbase-io-writememoheader-2" e), dbf)
        | None =>
            let '(err, dbf') := writeMemoHeader_body dbf in
            match FcntlFlock_unlock (dbaseFile dbf') 0 with
            | Some ue => (Some (newError "dbase-io-writememoheader-3" ue), dbf')
            | None => (err, dbf')
            end
        end
      else writeMemoHeader_body dbf
  end.

(** The block [writeMemo] puts together: signature, length, data. [None]
    when a slice expression is out of range (a block shorter than eight
    bytes). *)
Definition memo_block (blockSize : Z) (raw : list byte) (text : bool)
    (length : Z) : option (list byte) :=
  let block := make blockSize in
  match slice_update block 0 4
          (fun s => copy s (BigEndian.PutUint32 (if text then 1 else 0))) with
  | None => None
  | Some block =>
      match slice_update block 4 8
              (fun s => copy s (BigEndian.PutUint32 (uint32 length))) with
      | None => None
      | Some block =>
          slice_update block 8 (len block) (fun s => copy s raw)
      end
  end.

(** [func (dbf *DBF) writeMemo(raw []byte, text bool, length int) ([]byte, error)].
    The results are unnamed: what the deferred unlock assigns to the local
    [err] does not reach the caller, and the lock itself leaves no trace in
    the state. *)
Definition writeMemo (raw : list byte) (text : bool) (length : Z) (dbf : DBF)
    : result (list byte) * DBF :=
  match memoFile dbf with
  | None => (Err (newError "dbase-io-writememo-1" ErrNoFPT), dbf)
  | Some _ =>
      (* Get the block position *)
      let blockPosition := NextFree (memoHeader dbf) in
      (* Write the memo header *)
      let '(err, dbf) := writeMemoHeader dbf in
      match err with
      | Some e => (Err (newError "dbase-io-writememo-2" e), dbf)
      | None =>
          (* Put the block data together *)
          match memo_block (BlockSize (memoHeader dbf)) raw text length with
          | None => (Panic "slice bounds out of range", dbf)
          | Some block =>
              (* Lock the block we are writing to *)
              match (if WriteLock (config dbf)
                     then FcntlFlock_lock (memoFile dbf) (int64 blockPosition)
                     else None) with
              | Some e => (Err (newError "dbase-io-writememo-3" e), dbf)
              | None =>
                  (* Seek to new the next free block *)
                  let '(err, mf) :=
                    Seek (memoFile dbf)
                      (int64 (int64 blockPosition
                              * int64 (BlockSize (memoHeader dbf)))) in
                  let dbf := set_memoFile dbf mf in
                  match err with
                  | Some e => (Err (newError "dbase-io-writememo-5" e), dbf)
                  | None =>
                      (* Write the memo data *)
                      let '(err, mf) := Write (memoFile dbf) block in
                      let dbf := set_memoFile dbf mf in
                      match err with
                      | Some e => (Err (newError "dbase-io-writememo-6" e), dbf)
                      | None =>
                          (* Convert the block number to []byte *)
                          match toBinary (data_uint32 blockPosition) with
                          | Ok address => (Ok address, dbf)
                          | Err e | ErrWith _ e =>
                              (Err (newError "dbase-io-writememo-7" e), dbf)
                          | Panic m => (Panic m, dbf)
                          end
                      end
                  end
              end
          end
      end
  end.

(** [func (dbf *DBF) readMemo(blockdata []byte) ([]byte, bool, error)] *)
Definition readMemo (blockdata : list byte) (dbf : DBF)
    : result (list byte * bool) * DBF :=
  match memoFile dbf with
  | None => (Err (newError "dbase-io-readmemo-1" ErrNoFPT), dbf)
  | Some _ =>
      (* Determine the block number *)
      match LittleEndian.Uint32 blockdata with
      | None => (Panic "index out of range", dbf)
      | Some block =>
          (* The position in the file is blocknumber*blocksize *)
          let '(err, mf) :=
            Seek (memoFile dbf)
              (int64 (int64 (BlockSize (memoHeader dbf)) * int64 block)) in
          let dbf := set_memoFile dbf mf in
          match err with
          | Some e => (Err (newError "dbase-io-readmemo-2" e), dbf)
          | None =>
              (* Read the memo block header *)
              let '(d, err, mf) := Read (memoFile dbf) 8 in
              let hbuf := copy (make 8) d in
              let dbf := set_memoFile dbf mf in
              match err with
              | Some e => (Err (newError "dbase-io-readmemo-3" e), dbf)
              | None =>
                  match BigEndian.Uint32 (firstn 4 hbuf),
                        BigEndian.Uint32 (skipn 4 hbuf) with
                  | Some sign, Some leng =>
                      if leng =? 0 then (Ok ([], sign =? 1), dbf)
                      else
                        (* Now read the actual data *)
                        let '(d, err, mf) := Read (memoFile dbf) leng in
                        let buf := copy (make leng) d in
                        let dbf := set_memoFile dbf mf in
                        match err with
                        | Some e =>
                            (ErrWith (buf, false)
                               (newError "dbase-io-readmemo-4" e), dbf)
                        | None =>
                            if negb (len d =? leng) then
                              (ErrWith (buf, sign =? 1)
                                 (newError "dbase-io-readmemo-5" ErrIncomplete),
                               dbf)
                            else (Ok (buf, sign =? 1), dbf)
                        end
                  | _, _ => (Panic "index out of range", dbf)
                  end
              end
          end
      end
  end.

(* ================================================================= *)
(** ** Row IO handler *)

(** [func (dbf *DBF) readRow(rowPosition uint32) ([]byte, error)] *)
Definition readRow (rowPosition : Z) (dbf : DBF) : result (list byte) * DBF :=
  if rowPosition >=? RowsCount (header dbf) then
    (Err (newError "dbase-io-readrow-1" ErrEOF), dbf)
  else
    let buf := make (RowLength (header dbf)) in
    let '(err, df) :=
      Seek (dbaseFile dbf)
        (int64 (int64 (FirstRow (header dbf))
                + int64 (int64 rowPosition * int64 (RowLength (header dbf))))) in
    let dbf := set_dbaseFile dbf df in
    match err with
    | Some e => (ErrWith buf (newError "dbase-io-readrow-2" e), dbf)
    | None =>
        let '(d, err, df) := Read (dbaseFile dbf) (RowLength (header dbf)) in
        let buf := copy buf d in
        let dbf := set_dbaseFile dbf df in
        match err with
        | Some e => (ErrWith buf (newError "dbase-io-readrow-3" e), dbf)
        | None =>
            if negb (len d =? RowLength (header dbf)) then
              (ErrWith buf (newError "dbase-io-readrow-4" ErrIncomplete), dbf)
            else (Ok buf, dbf)
        end
    end.

(* ================================================================= *)
(** ** The engine over its collaborators *)

(** Modelled from the spec: the padding helper [appendSpaces] of the byte
    codec, whose file is not among the sources. Section 4.6: the encoded
    text is "right-padded with spaces (0x20) to Length"; a text that already
    has the length, or more, is left as it is. *)
Definition appendSpaces (raw : list byte) (length : Z) : list byte :=
  raw ++ repeat " "%byte (Z.to_nat (length - len raw)).

Section Engine.

(** The character-set converter and the parsers of the byte codec, which
    the specification treats as collaborators: each returns its value and
    its error, as in Go. *)
Variable Decode : list byte -> list byte * option error.
Variable toUTF8String : list byte -> list byte * option error.
Variable fromUtf8String : list byte -> list byte * option error.
Variable parseDate : list byte -> Z * option error.
Variable parseDateTime : list byte -> Z * option error.
Variable parseNumericInt : list byte -> Z * option error.
Variable parseFloat : list byte -> float64 * option error.

(** [time.Now()] as (year, month, day), and [binary.Write] of the header
    structure, whose layout is declared outside the sources; writing a
    structure of fixed-size fields into a buffer does not fail. *)
Variable now : Z * Z * Z.
Variable Header_bytes : Header -> list byte.

(** [row.ToBytes()] encodes the fields of a row; its encoders leave the
    table file and the table header alone and reach the memo file through
    [writeMemo] only, so it hands back the memo side of the handle. *)
Variable ToBytes : Row -> DBF -> (list byte + error) * (handle * MemoHeader).

(** [dbf.BytesToRow(data)] decodes a raw row read at the row pointer; memo
    columns are followed into the memo file, whose handle it hands back. *)
Variable BytesToRow :
  list byte -> Z -> handle -> MemoHeader -> (Row + error) * handle.

(** [dbf.valueToByteRepresentation(field, padding)] as [Search] calls it.
    For a column that is not a memo column the encoders touch no file. *)
Variable valueToByteRepresentation2 : Field -> bool -> list byte + error.

(** *** Table header *)

(** The statements of [writeHeader] that run under the lock. *)
Definition writeHeader_body (dbf : DBF) : option error * DBF :=
  (* Seek to the beginning of the file *)
  let '(err, df) := Seek (dbaseFile dbf) 0 in
  let dbf := set_dbaseFile dbf df in
  match err with
  | Some e => (Some (newError "dbase-io-writeheader-3" e), dbf)
  | None =>
      (* Change the last modification date to the current date *)
      let '(y, m, d) := now in
      let dbf :=
        set_header dbf
          (set_date (header dbf) (uint8 (y - 2000)) (uint8 m) (uint8 d)) in
      (* Write the header *)
      let '(err, df) := Write (dbaseFile dbf) (Header_bytes (header dbf)) in
      let dbf := set_dbaseFile dbf df in
      match err with
      | Some e => (Some (newError "dbase-io-writeheader-5" e), dbf)
      | None => (None, dbf)
      end
  end.

(** [func (dbf *DBF) writeHeader() (err error)] *)
Definition writeHeader (dbf : DBF) : option error * DBF :=
  (* Lock the block we are writing to *)
  if WriteLock (config dbf) then
    match FcntlFlock_lock (dbaseFile dbf) 0 with
    | Some e => (Some (newError "dbase-io-writeheader-1" e), dbf)
    | None =>
        let '(err, dbf') := writeHeader_body dbf in
        match FcntlFlock_unlock (dbaseFile dbf') 0 with
        | Some ue => (Some (newError "dbase-io-writeheader-2" ue), dbf')
        | None => (err, dbf')
        end
    end
  else writeHeader_body dbf.

(** The file offset [writeRow] computes for a row: the second formula
    replaces the first when the row counts as new. *)
Definition writeRow_position (row : Row) (h : Header) : Z :=
  if RowPosition row >=? RowsCount h then
    int64 (int64 (FirstRow h)
           + int64 (int64 (uint32 (RowPosition row - 1)) * int64 (RowLength h)))
  else
    int64 (int64 (FirstRow h)
           + int64 (int64 (RowPosition row) * int64 (RowLength h))).

(** The seek and the write of [writeRow], which run under the lock. *)
Definition writeRow_body (position : Z) (r : list byte) (dbf : DBF)
    : option error * DBF :=
  (* Seek to the correct position *)
  let '(err, df) := Seek (dbaseFile dbf) position in
  let dbf := set_dbaseFile dbf df in
  match err with
  | Some e => (Some (newError "dbase-io-writerow-5" e), dbf)
  | None =>
      (* Write the row *)
      let '(err, df) := Write (dbaseFile dbf) r in
      let dbf := set_dbaseFile dbf df in
      match err with
      | Some e => (Some (newError "dbase-io-writerow-6" e), dbf)
      | None => (None, dbf)
      end
  end.

(** [func (row *Row) writeRow() (err error)] *)
Definition writeRow (row : Row) (dbf : DBF) : option error * DBF :=
  (* Convert the row to raw bytes *)
  let '(r, (mf, mh)) := ToBytes row dbf in
  let dbf := set_memoHeader (set_memoFile dbf mf) mh in
  match r with
  | inr e => (Some (newError "dbase-io-writerow-1" e), dbf)
  | inl r =>
      (* Update the header *)
      let position := writeRow_position row (header dbf) in
      let dbf :=
        if RowPosition row >=? RowsCount (header dbf) then
          set_header dbf
            (set_RowsCount (header dbf) (uint32 (RowsCount (header dbf) + 1)))
        else dbf in
      let '(err, dbf) := writeHeader dbf in
      match err with
      | Some e => (Some (newError "dbase-io-writerow-2" e), dbf)
      | None =>
          (* Lock the block we are writing to *)
          if WriteLock (config dbf) then
            match FcntlFlock_lock (dbaseFile dbf) position with
            | Some e => (Some (newError "dbase-io-writerow-3" e), dbf)
            | None =>
                let '(err, dbf') := writeRow_body position r dbf in
                match FcntlFlock_unlock (dbaseFile dbf') position with
                | Some ue => (Some (newError "dbase-io-writerow-4" ue), dbf')
                | None => (err, dbf')
                end
            end
          else writeRow_body position r dbf
      end
  end.

(** *** Search *)

(** Modelled from the spec: [dbf.Row()], whose file is not among the
    sources. Sections 2 and 4.7: the current row is materialised by
    reading the row bytes at the cursor ([readRow]) and decoding every
    column slice ("full row decode"). *)
Definition DBF_Row (dbf : DBF) : result Row * DBF :=
  let '(r, dbf) := readRow (rowPointer dbf) dbf in
  match r with
  | Ok data =>
      let '(row, mf) :=
        BytesToRow data (rowPointer dbf) (memoFile dbf) (memoHeader dbf) in
      let dbf := set_memoFile dbf mf in
      match row with
      | inl row => (Ok row, dbf)
      | inr e => (Err e, dbf)
      end
  | Err e | ErrWith _ e => (Err (newError "dbase-table-row-1" e), dbf)
  | Panic m => (Panic m, dbf)
  end.

(** The body of the loop of [Search] for row [i], whose slot starts at
    [position]: the row to append, or [None] where the body reaches a
    [continue] or finds no match. *)
Definition Search_step (field : Field) (val : list byte) (i position : Z)
    (dbf : DBF) : option Row * DBF :=
  (* Read the field value *)
  let '(err, df) :=
    Seek (dbaseFile dbf)
      (int64 (int64 position + int64 (Position (column field)))) in
  let dbf := set_dbaseFile dbf df in
  match err with
  | Some _ => (None, dbf)
  | None =>
      let '(d, err, df) := Read (dbaseFile dbf) (Length (column field)) in
      let buf := copy (make (Length (column field))) d in
      let dbf := set_dbaseFile dbf df in
      match err with
      | Some _ => (None, dbf)
      | None =>
          if negb (len d =? Length (column field)) then (None, dbf)
          else if Contains buf val then
            (* Check if the value matches *)
            let '(err, dbf) := GoTo i dbf in
            match err with
            | Some _ => (None, dbf)
            | None =>
                let '(row, dbf) := DBF_Row dbf in
                match row with
                | Ok row => (Some row, dbf)
                | _ => (None, dbf)
                end
            end
          else (None, dbf)
      end
  end.

(** The loop of [Search]: [i] and [position] are its two counters, [rows]
    the rows found so far; [position] is advanced in every iteration,
    whatever the body does. [fuel] bounds the number of iterations. *)
Fixpoint Search_loop (fuel : nat) (field : Field) (val : list byte)
    (i position : Z) (rows : list Row) (dbf : DBF) : list Row * DBF :=
  match fuel with
  | O => (rows, dbf)
  | S fuel' =>
      if i <? RowsCount (header dbf) then
        let '(found, dbf) := Search_step field val i position dbf in
        let position := uint64 (position + uint64 (RowLength (header dbf))) in
        let rows :=
          match found with
          | Some row => rows ++ [row]
          | None => rows
          end in
        Search_loop fuel' field val (uint32 (i + 1)) position rows dbf
      else (rows, dbf)
  end.

(** [func (dbf *DBF) Search(field *Field, exactMatch bool) ([]*Row, error)].
    The loop runs at most [RowsCount] times. *)
Definition Search_fuel (fuel : nat) (field : Field) (exactMatch : bool)
    (dbf : DBF) : result (list Row) * DBF :=
  if Byte.eqb (DataType (column field)) "M"%byte then
    (Err (newError "dbase-io-search-1"
            (Errorf "searching memo fields is not supported")), dbf)
  else
    (* convert the value to a string *)
    match valueToByteRepresentation2 field (negb exactMatch) with
    | inr e => (Err (newError "dbase-io-search-1" e), dbf)
    | inl val =>
        (* Search for the value *)
        let position := uint64 (FirstRow (header dbf)) in
        let '(rows, dbf) := Search_loop fuel field val 0 position [] dbf in
        (Ok rows, dbf)
    end.

Definition Search (field : Field) (exactMatch : bool) (dbf : DBF)
    : result (list Row) * DBF :=
  Search_fuel (Z.to_nat (RowsCount (header dbf))) field exactMatch dbf.

(** The scan as section 4.7 of the specification words it. [slot f off n]
    is what seeking to [off] and reading [n] bytes yields when the seek,
    the read and the length test all go through. *)
Definition slot (f : File) (off n : Z) : option (list byte) :=
  if is_closed f || fault f OpSeek off then None
  else if n <=? 0 then Some []
  else if fault f OpRead off || (size f <? off + n) then None
  else Some (read_range f off (Z.to_nat n)).

Definition row_offset (h : Header) (i : Z) : Z :=
  FirstRow h + i * RowLength h.






(** *** interpreter.go *)

(** [func (dbf *DBF) parseMemo(raw []byte) ([]byte, bool, error)] *)
Definition parseMemo (raw : list byte) (dbf : DBF)
    : result (list byte * bool) * DBF :=
  let '(r, dbf) := readMemo raw dbf in
  match r with
  | Ok (memo, isText) =>
      if isText then
        let '(memo, err) := Decode memo in
        match err with
        | Some e =>
            (ErrWith ([], false) (newError "dbase-io-parse-memo-2" e), dbf)
        | None => (Ok (memo, isText), dbf)
        end
      else (Ok (memo, isText), dbf)
  | Err e | ErrWith _ e =>
      (ErrWith ([], false) (newError "dbase-io-parse-memo-1" e), dbf)
  | Panic m => (Panic m, dbf)
  end.

(** [func (dbf *DBF) dataToValue(raw []byte, column *Column) (interface{}, error)] *)
Definition dataToValue (raw : list byte) (column : Column) (dbf : DBF)
    : result value * DBF :=
  if negb (len raw =? Length column) then
    (Err (Errorf "dbase-interpreter-datatovalue-1:FAILED:invalid length %v Bytes != %v Bytes at column field: %v"),
     dbf)
  else
    let t := ColumnType column in
    let caseF :=
      (* F values are stored as string values *)
      let '(f, err) := parseFloat raw in
      match err with
      | Some e =>
          (ErrWith (VFloat64 f)
             (Errorfw "dbase-interpreter-datatovalue-8:FAILED:parsing float at column field: %v failed with error: %w" e),
           dbf)
      | None => (Ok (VFloat64 f), dbf)
      end in
    if String.eqb t "M" then
      let '(r, dbf) := parseMemo raw dbf in
      match r with
      | Ok (memo, isText) =>
          if isText then (Ok (VString memo), dbf) else (Ok (VBytes memo), dbf)
      | Err e | ErrWith _ e =>
          (Err (Errorfw "dbase-interpreter-datatovalue-2:FAILED:parsing memo failed at column field: %v failed with error: %w" e),
           dbf)
      | Panic m => (Panic m, dbf)
      end
    else if String.eqb t "C" then
      let '(str, err) := toUTF8String raw in
      match err with
      | Some e =>
          (ErrWith (VString str)
             (Errorfw "dbase-interpreter-datatovalue-4:FAILED:parsing to utf8 string failed at column field: %v failed with error: %w" e),
           dbf)
      | None => (Ok (VString str), dbf)
      end
    else if String.eqb t "I" then
      match LittleEndian.Uint32 raw with
      | Some u => (Ok (VInt32 (int32 u)), dbf)
      | None => (Panic "index out of range", dbf)
      end
    else if String.eqb t "B" then
      match LittleEndian.Uint64 raw with
      | Some u => (Ok (VFloat64 (Float64frombits u)), dbf)
      | None => (Panic "index out of range", dbf)
      end
    else if String.eqb t "D" then
      let '(date, err) := parseDate raw in
      match err with
      | Some e =>
          (ErrWith (VTime date)
             (Errorfw "dbase-interpreter-datatovalue-5:FAILED:parsing to date at column field: %v failed with error: %w" e),
           dbf)
      | None => (Ok (VTime date), dbf)
      end
    else if String.eqb t "T" then
      let '(dateTime, err) := parseDateTime raw in
      match err with
      | Some e =>
          (ErrWith (VTime dateTime)
             (Errorfw "dbase-interpreter-datatovalue-6:FAILED:parsing date time at column field: %v failed with error: %w" e),
           dbf)
      | None => (Ok (VTime dateTime), dbf)
      end
    else if String.eqb t "L" then
      (Ok (VBool (match raw with [b] => Byte.eqb b "T"%byte | _ => false end)),
       dbf)
    else if String.eqb t "V" then (Ok (VBytes raw), dbf)
    else if String.eqb t "Y" then
      (* Y values are currency values stored as ints with 4 decimal places *)
      match LittleEndian.Uint64 raw with
      | Some u => (Ok (VFloat64 (f64_div (f64_of_Z u) (f64_of_Z 10000))), dbf)
      | None => (Panic "index out of range", dbf)
      end
    else if String.eqb t "N" then
      if Decimals column =? 0 then
        let '(i, err) := parseNumericInt raw in
        match err with
        | Some e =>
            (ErrWith (VInt64 i)
               (Errorfw "dbase-interpreter-datatovalue-7:FAILED:parsing numeric int at column field: %v failed with error: %w" e),
             dbf)
        | None => (Ok (VInt64 i), dbf)
        end
      else caseF (* fallthrough *)
    else if String.eqb t "F" then caseF
    else
      (Err (Errorf "dbase-interpreter-datatovalue-9:FAILED:Unsupported column data type: %s"),
       dbf).

(** [func (dbf *DBF) getCRepresentation(field *Field) ([]byte, error)] *)
Definition getCRepresentation (field : Field) : result (list byte) :=
  match value_of field with
  | VString c =>
      let raw := make (Length (column field)) in
      let '(bin, err) := fromUtf8String c in
      match err with
      | Some e =>
          Err (Errorfw "dbase-interpreter-getcrepresentation-2:FAILED:parsing from utf8 string at column field: %v failed with error %w" e)
      | None =>
          let bin := appendSpaces bin (Length (column field)) in
          let raw := copy raw bin in
          if len raw >? Length (column field) then
            Err (Errorf "dbase-interpreter-getcrepresentation-3:FAILED:invalid length %v Bytes > %v Bytes at column field: %v")
          else Ok raw
      end
  | _ =>
      Err (Errorf "dbase-interpreter-getcrepresentation-1:FAILED:invalid data type %T, expected string on column field: %v")
  end.

(** [func (dbf *DBF) getYRepresentation(field *Field) ([]byte, error)] *)
Definition getYRepresentation (field : Field) : result (list byte) :=
  match value_of field with
  | VFloat64 f =>
      (* Cast to int64 and multiply by 10000 *)
      let i := f64_to_int64 (f64_mul f (f64_of_Z 10000)) in
      let raw := make (Length (column field)) in
      match toBinary (data_int64 i) with
      | Ok bin =>
          let raw := copy raw bin in
          if negb (len raw =? Length (column field)) then
            Err (Errorf "dbase-interpreter-getyrepresentation-3:FAILED:invalid length %v Bytes != %v Bytes at column field: %v")
          else Ok raw
      | Err e | ErrWith _ e =>
          Err (Errorfw "dbase-interpreter-getyrepresentation-2:FAILED:converting to binary at column field: %v failed with error: %w" e)
      | Panic m => Panic m
      end
  | _ =>
      Err (Errorf "dbase-interpreter-getyrepresentation-1:FAILED:invalid data type %T, expected float64 at column field: %v")
  end.

(** The handle after [writeHeader] has gone through on the table file
    [f], and after [writeRow] has then written [r] at [position]. *)
Definition stamped (h : Header) : Header :=
  let '(y, m, d) := now in
  set_date h (uint8 (y - 2000)) (uint8 m) (uint8 d).

Definition after_header_write (dbf : DBF) (f : File) : DBF :=
  mkDBF (config dbf)
        (Some (store (set_cursor f 0) 0 (Header_bytes (stamped (header dbf)))))
        (memoFile dbf) (stamped (header dbf)) (memoHeader dbf)
        (rowPointer dbf).

Definition after_row_write (dbf : DBF) (f : File) (position : Z)
    (r : list byte) : DBF :=
  mkDBF (config dbf)
        (Some (store
                 (set_cursor
                    (store (set_cursor f 0) 0
                       (Header_bytes (stamped (header dbf))))
                    position)
                 position r))
        (memoFile dbf) (stamped (header dbf)) (memoHeader dbf)
        (rowPointer dbf).

End Engine.

(** The two error sites of [dataToValue] the specification names. *)
Definition is_invalid_length (e : error) : bool :=
  match e with
  | Errorf "dbase-interpreter-datatovalue-1:FAILED:invalid length %v Bytes != %v Bytes at column field: %v" => true
  | _ => false
  end.

Definition is_unsupported_type (e : error) : bool :=
  match e with
  | Errorf "dbase-interpreter-datatovalue-9:FAILED:Unsupported column data type: %s" => true
  | _ => false
  end.

Definition is_overlength_C (e : error) : bool :=
  match e with
  | Errorf "dbase-interpreter-getcrepresentation-3:FAILED:invalid length %v Bytes > %v Bytes at column field: %v" => true
  | _ => false
  end.

(** The error, if any, of closing the table file. *)
Definition table_close_error (dbf : DBF) : option error :=
  match dbaseFile dbf with
  | Some f => fst (File_Close f)
  | None => None
  end.

(** The handle after [writeMemoHeader] has gone through on the memo file
    [mf], and after [writeMemo] has then written [block]. *)
Definition after_memo_header (dbf : DBF) (mf : File) : DBF :=
  let nf := uint32 (NextFree (memoHeader dbf) + 1) in
  let bs := BlockSize (memoHeader dbf) in
  mkDBF (config dbf) (dbaseFile dbf)
        (Some (store (set_cursor mf 0) 0 (memo_header_bytes nf bs)))
        (header dbf) (mkMemoHeader nf bs) (rowPointer dbf).

Definition after_memo_write (dbf : DBF) (mf : File) (block : list byte) : DBF :=
  let nf := uint32 (NextFree (memoHeader dbf) + 1) in
  let bs := BlockSize (memoHeader dbf) in
  let at_block := NextFree (memoHeader dbf) * bs in
  mkDBF (config dbf) (dbaseFile dbf)
        (Some (store
                 (set_cursor
                    (store (set_cursor mf 0) 0 (memo_header_bytes nf bs))
                    at_block)
                 at_block block))
        (header dbf) (mkMemoHeader nf bs) (rowPointer dbf).

(** The little-endian two's-complement reading of eight bytes. *)
Definition le_int64 (raw : list byte) : option Z :=
  option_map int64 (LittleEndian.Uint64 raw).

(** The number of [Close] calls a handle has received. *)
Definition close_calls (h : handle) : nat :=
  match h with Some f => closes f | None => 0%nat end.

(* ================================================================= *)
(** ** Sample tables *)

Definition no_fault : Op -> Z -> bool := fun _ _ => false.

(** A file holding the bytes [b], freshly opened. *)
Definition file_of (b : list byte) : File :=
  mkFile (fun i => if 0 <=? i then nth (Z.to_nat i) b Byte.x00 else Byte.x00)
         (len b) 0 0 no_fault.

(** A file on which [Close] reports an error. *)
Definition file_close_fails : File :=
  mkFile (fun _ => Byte.x00) 0 0 0
         (fun op _ => match op with OpClose => true | _ => false end).

Definition default_config : Config := mkConfig false false false false false.
Definition locking_config : Config := mkConfig false false false true false.

(** A table whose rows are four bytes long and start at offset 8. *)
Definition sample_header (rows : Z) : Header :=
  mkHeader 48 24 1 31 rows 8 4 0 0.

Definition sample_table (rows ptr : Z) : DBF :=
  mkDBF default_config
        (Some (file_of (make 8 ++ [" "; "a"; "b"; "c"; " "; "x"; "b"; "z"]%byte)))
        None (sample_header rows) (mkMemoHeader 0 0) ptr.

(** A table with a memo file of 16-byte blocks. *)
Definition sample_memo_table (cfg : Config) (nextFree : Z) : DBF :=
  mkDBF cfg (Some (file_of (make 8))) (Some (file_of (make 16)))
        (sample_header 0) (mkMemoHeader nextFree 16) 0.

(** A table whose table file cannot be closed cleanly. *)
Definition sample_unclosable : DBF :=
  mkDBF default_config (Some file_close_fails) (Some (file_of (make 16)))
        (sample_header 0) (mkMemoHeader 1 16) 0.

(** Collaborators for the samples: an identity converter, parsers that
    reject everything, a fixed date, a header written as its row count. *)
Definition id_converter (b : list byte) : list byte * option error := (b, None).
Definition no_parse_Z (_ : list byte) : Z * option error :=
  (0, Some (External "not a number")).
Definition no_parse_float (_ : list byte) : float64 * option error :=
  (S754_zero false, Some (External "not a number")).
Definition sample_now : Z * Z * Z := (2024, 1, 31).
Definition sample_Header_bytes (h : Header) : list byte :=
  LittleEndian.PutUint32 (RowsCount h).

(** A row is encoded as the text of its first field, and decoded into one
    character field; neither touches the memo file. *)
Definition sample_column : Column := mkColumn [] "C"%byte 1 3 0.

Definition sample_ToBytes (row : Row) (dbf : DBF)
    : (list byte + error) * (handle * MemoHeader) :=
  (match fields row with
   | {| value_of := VString s |} :: _ => inl (" "%byte :: s)
   | _ => inr (External "no text")
   end, (memoFile dbf, memoHeader dbf)).

Definition sample_BytesToRow (data : list byte) (pos : Z) (memo : handle)
    (mh : MemoHeader) : (Row + error) * handle :=
  (inl (mkRow pos false [mkField sample_column (VString (skipn 1 data))]), memo).

Definition sample_encode (f : Field) (padding : bool) : list byte + error :=
  match value_of f with
  | VString s => inl s
  | _ => inr (External "no text")
  end.

Definition sample_row (pos : Z) (text : list byte) : Row :=
  mkRow pos false [mkField sample_column (VString text)].

(** Currency samples: the column, and the float64 value -1.5. *)
Definition currency_column : Column := mkColumn [] "Y"%byte 1 8 4.
Definition minus_one_and_a_half : float64 :=
  S754_finite true 6755399441055744 (-52).

(* ================================================================= *)
(** ** More of the engine: deletion flag, memo header, field encoders *)

Definition BigEndian_Uint16 (b : list byte) : option Z :=
  match b with
  | b0 :: b1 :: _ => Some (Z.lor (b2z b1) (Z.shiftl (b2z b0) 8))
  | _ => None
  end.

(** Modelled from the spec: the constant [Deleted], declared outside the
    sources. Section 3: "0x20 = live, Deleted constant (0x2A '*') =
    deleted". *)
Definition Deleted : byte := "*"%byte.

(** [func (dbf *DBF) Deleted() (bool, error)] *)
Definition DBF_Deleted (dbf : DBF) : result bool * DBF :=
  if rowPointer dbf >=? RowsCount (header dbf) then
    (Err (newError "dbase-io-deleted-1" ErrEOF), dbf)
  else
    let '(err, df) :=
      Seek (dbaseFile dbf)
        (int64 (int64 (FirstRow (header dbf))
                + int64 (int64 (rowPointer dbf)
                         * int64 (RowLength (header dbf))))) in
    let dbf := set_dbaseFile dbf df in
    match err with
    | Some e => (Err (newError "dbase-io-deleted-2" e), dbf)
    | None =>
        let '(d, err, df) := Read (dbaseFile dbf) 1 in
        let buf := copy (make 1) d in
        let dbf := set_dbaseFile dbf df in
        match err with
        | Some e => (Err (newError "dbase-io-deleted-3" e), dbf)
        | None =>
            if negb (len d =? 1) then
              (Err (newError "dbase-io-deleted-4" ErrIncomplete), dbf)
            else (Ok (Byte.eqb (nth 0 buf Byte.x00) Deleted), dbf)
        end
    end.

(** Modelled from the spec: the layout of the memo header structure that
    [binary.Read] fills, declared outside the sources. Section 3: NextFree,
    4 bytes big-endian at offset 0; BlockSize, 2 bytes big-endian at offset
    6. [None]: fewer than the eight bytes of the structure. *)
Definition decode_MemoHeader (b : list byte) : option MemoHeader :=
  match BigEndian.Uint32 b, BigEndian_Uint16 (skipn 6 b) with
  | Some nextFree, Some blockSize => Some (mkMemoHeader nextFree blockSize)
  | _, _ => None
  end.

(** [func readMemoHeader(memoFile *os.File)]: the header read, or an error. *)
Definition readMemoHeader (memoFile : handle) : result MemoHeader * handle :=
  let '(err, mf) := Seek memoFile 0 in
  match err with
  | Some e => (Err (newError "dbase-io-read-memo-header-1" e), mf)
  | None =>
      let '(d, err, mf) := Read mf 1024 in
      match err with
      | Some e => (Err (newError "dbase-io-read-memo-header-2" e), mf)
      | None =>
          (* binary.Read(bytes.NewReader(b[:n]), binary.BigEndian, h) *)
          match decode_MemoHeader d with
          | Some h => (Ok h, mf)
          | None =>
              (Err (newError "dbase-io-read-memo-header-3"
                      (External "unexpected EOF")), mf)
          end
      end
  end.

(** [func (dbf *DBF) prepareMemo(memoFile *os.File) error] *)
Definition prepareMemo (memoFile : handle) (dbf : DBF) : option error * DBF :=
  let '(r, mf) := readMemoHeader memoFile in
  match r with
  | Ok memoHeader => (None, set_memoHeader (set_memoFile dbf mf) memoHeader)
  | Err e | ErrWith _ e => (Some (newError "dbase-io-prepare-memo-1" e), dbf)
  | Panic m => (Some (External m), dbf) (* readMemoHeader has no such path *)
  end.

(** [func (dbf *DBF) getMRepresentation(field *Field) ([]byte, error)] *)
Definition getMRepresentation (field : Field) (dbf : DBF)
    : result (list byte) * DBF :=
  let write (memo : list byte) (txt : bool) :=
    (* Write the memo to the memo file *)
    let '(r, dbf) := writeMemo memo txt (len memo) dbf in
    match r with
    | Ok address => (Ok address, dbf)
    | Err e | ErrWith _ e =>
        (Err (Errorfw "dbase-interpreter-getmrepresentation-2:FAILED:writing to memo file at column field: %v failed with error: %w" e),
         dbf)
    | Panic m => (Panic m, dbf)
    end in
  match value_of field with
  | VString s => write s true
  | VBytes m => write m false
  | _ =>
      (Err (Errorf "dbase-interpreter-getmrepresentation-1:FAILED:invalid type for memo field: %T"),
       dbf)
  end.

(** [math.MaxInt32] as a float64, and the two comparisons of
    [getIRepresentation]. *)
Definition MaxInt32 : Z := 2147483647.

(** [func (dbf *DBF) getIRepresentation(field *Field) ([]byte, error)].
    Inside the bounds the guard checks, [int32(f)] is the truncation of
    [f]. *)
Definition getIRepresentation (field : Field) : result (list byte) :=
  let converted : option Z :=
    match value_of field with
    | VInt32 i => Some i
    | VFloat64 f =>
        (* check for lower and uppper bounds *)
        if SFltb (f64_of_Z 0) f && SFleb f (f64_of_Z MaxInt32)
        then Some (int32 (f64_to_int64 f))
        else Some 0
    | _ => None
    end in
  match converted with
  | None =>
      Err (Errorf "dbase-interpreter-getirepresentation-1:FAILED:invalid data type %T, expected int32 at column field: %v")
  | Some i =>
      let raw := make (Length (column field)) in
      match toBinary (data_int32 i) with
      | Ok bin =>
          let raw := copy raw bin in
          if negb (len raw =? Length (column field)) then
            Err (Errorf "dbase-interpreter-getirepresentation-3:FAILED:invalid length %v Bytes != %v Bytes at column field: %v")
          else Ok raw
      | Err e | ErrWith _ e =>
          Err (Errorfw "dbase-interpreter-getirepresentation-2:FAILED:converting to binary at column field: %v failed with error: %w" e)
      | Panic m => Panic m
      end
  end.

(** [func (dbf *DBF) getLRepresentation(field *Field) ([]byte, error)] *)
Definition getLRepresentation (field : Field) : result (list byte) :=
  match value_of field with
  | VBool l => if l then Ok ["T"%byte] else Ok ["F"%byte]
  | _ =>
      Err (Errorf "dbase-interpreter-getlrepresentation-1:FAILED:invalid data type %T, expected bool at column field: %v")
  end.

(** [return nil, fmt.Errorf(site + "%w", err)] around the call of an
    encoder. *)
Definition wrap_encoder (site : string) (r : result (list byte))
    : result (list byte) :=
  match r with
  | Ok raw => Ok raw
  | Err e | ErrWith _ e => Err (Errorfw site e)
  | Panic m => Panic m
  end.

Section Encoders.

(** The converter, and the encoders that format numbers and dates with
    [fmt.Sprintf], [time.Format] and [math.Float64bits]: collaborators
    here. *)
Variable fromUtf8String : list byte -> list byte * option error.
Variable getFRepresentation : Field -> result (list byte).
Variable getBRepresentation : Field -> result (list byte).
Variable getDRepresentation : Field -> result (list byte).
Variable getTRepresentation : Field -> result (list byte).
Variable getNRepresentation : Field -> result (list byte).

(** [func (dbf *DBF) valueToByteRepresentation(field *Field) ([]byte, error)] *)
Definition valueToByteRepresentation (field : Field) (dbf : DBF)
    : result (list byte) * DBF :=
  let t := ColumnType (column field) in
  if String.eqb t "M" then
    let '(r, dbf) := getMRepresentation field dbf in
    (wrap_encoder "dbase-interpreter-valuetobyterepresentation-1:FAILED:%w" r,
     dbf)
  else if String.eqb t "C" then
    (wrap_encoder "dbase-interpreter-valuetobyterepresentation-2:FAILED:%w"
       (getCRepresentation fromUtf8String field), dbf)
  else if String.eqb t "I" then
    (wrap_encoder "dbase-interpreter-valuetobyterepresentation-3:FAILED:%w"
       (getIRepresentation field), dbf)
  else if String.eqb t "Y" then
    (wrap_encoder "dbase-interpreter-valuetobyterepresentation-4:FAILED:%w"
       (getYRepresentation field), dbf)
  else if String.eqb t "F" then
    (wrap_encoder "dbase-interpreter-valuetobyterepresentation-5:FAILED:%w"
       (getFRepresentation field), dbf)
  else if String.eqb t "B" then
    (wrap_encoder "dbase-interpreter-valuetobyterepresentation-6:FAILED:%w"
       (getBRepresentation field), dbf)
  else if String.eqb t "D" then
    (wrap_encoder "dbase-interpreter-valuetobyterepresentation-7:FAILED:%w"
       (getDRepresentation field), dbf)
  else if String.eqb t "T" then
    (wrap_encoder "dbase-interpreter-valuetobyterepresentation-8:FAILED:%w"
       (getTRepresentation field), dbf)
  else if String.eqb t "L" then
    (wrap_encoder "dbase-interpreter-valuetobyterepresentation-9:FAILED:%w"
       (getLRepresentation field), dbf)
  else if String.eqb t "V" then
    match value_of field with
    | VBytes raw => (Ok raw, dbf)
    | _ =>
        (Err (Errorf "dbase-interpreter-valuetobyterepresentation-10:FAILED:invalid data type %T, expected []byte at column field: %v"),
         dbf)
    end
  else if String.eqb t "N" then
    (wrap_encoder "dbase-interpreter-valuetobyterepresentation-11:FAILED:%w"
       (getNRepresentation field), dbf)
  else
    (Err (Errorf "dbase-interpreter-valuetobyterepresentation-12:FAILED:Unsupported column data type: %s at column field: %v"),
     dbf).

End Encoders.

(** [errors.Is(e, ErrNoFPT)], [errors.Is(e, ErrIncomplete)] *)
Definition is_ErrNoFPT (e : error) : bool :=
  match unwrap e with ErrNoFPT => true | _ => false end.

Definition is_ErrIncomplete (e : error) : bool :=
  match unwrap e with ErrIncomplete => true | _ => false end.

Definition is_os_ErrClosed (e : error) : bool :=
  match unwrap e with os_ErrClosed => true | _ => false end.

(** The table side of a handle: everything but the memo file and its
    header. *)
Definition table_side (dbf : DBF) : Config * handle * Header * Z :=
  (config dbf, dbaseFile dbf, header dbf, rowPointer dbf).

(** Two handles on files that differ at most by the cursor. *)
Definition same_bytes (h h' : handle) : Prop :=
  match h, h' with
  | None, None => True
  | Some f, Some f' =>
      contents f' = contents f /\ size f' = size f /\ closes f' = closes f
      /\ fault f' = fault f
  | _, _ => False
  end.

(** A table with two rows, the second one marked deleted, for the samples
    of [DBF_Deleted]. *)
Definition sample_deleted_table (ptr : Z) : DBF :=
  mkDBF default_config
        (Some (file_of (make 8 ++ [" "; "a"; "b"; "c"; "*"; "x"; "b"; "z"]%byte)))
        None (sample_header 2) (mkMemoHeader 0 0) ptr.

Definition integer_column : Column := mkColumn [] "I"%byte 1 4 0.
Definition logical_column : Column := mkColumn [] "L"%byte 1 1 0.
Definition memo_column : Column := mkColumn [] "M"%byte 1 4 0.
Definition no_encoder (_ : Field) : result (list byte) :=
  Err (External "not modelled").

(* ================================================================= *)
(** ** The column descriptors *)

(** Modelled from the spec: the constant [ColumnEnd], declared outside the
    sources. Section 3: "terminated by a sentinel byte ColumnEnd (0x0D)". *)
Definition ColumnEnd : byte := "013"%byte.

(** Modelled from the spec: the layout of the column structure that
    [binary.Read] fills, declared outside the sources. Section 3: 32 bytes
    each; Name, 11 bytes; Type, 1 byte; Position, 4 bytes (little-endian,
    section 4.3); Length, 1 byte; Decimals, 1 byte. [None]: fewer than the
    32 bytes of the structure. *)
Definition decode_Column (b : list byte) : option Column :=
  if len b <? 32 then None
  else
    match LittleEndian.Uint32 (skipn 12 b) with
    | Some position =>
        Some (mkColumn (firstn 11 b) (nth 11 b Byte.x00) position
                (b2z (nth 16 b Byte.x00)) (b2z (nth 17 b Byte.x00)))
    | None => None
    end.

(** [f.Seek(off, 1)]: relative to the cursor. *)
Definition Seek_current (h : handle) (off : Z) : option error * handle :=
  match h with
  | None => (Some os_ErrInvalid, h)
  | Some f => Seek h (cursor f + off)
  end.

Section Columns.

(** [column.Name()], declared outside the sources. *)
Variable Name : Column -> string.

(** One turn of the loop of [readColumns]: [inl] when it returns or
    breaks, [inr] with the next offset and the columns so far when it
    goes round again. *)
Definition readColumns_step (dbaseFile : handle) (offset : Z)
    (columns : list Column)
    : (result (list Column) + Z * list Column) * handle :=
  (* Check if we are at 0x0D by reading one byte ahead *)
  let '(err, h) := Seek dbaseFile offset in
  match err with
  | Some e => (inl (Err (newError "dbase-io-readcolumninfos-1" e)), h)
  | None =>
      let '(d, err, h) := Read h 1 in
      match err with
      | Some e => (inl (Err (newError "dbase-io-readcolumninfos-2" e)), h)
      | None =>
          let b := copy (make 1) d in
          if Byte.eqb (nth 0 b Byte.x00) ColumnEnd then (inl (Ok columns), h)
          else
            (* Position back one byte and read the column *)
            let '(err, h) := Seek_current h (-1) in
            match err with
            | Some e =>
                (inl (Err (newError "dbase-io-readcolumninfos-3" e)), h)
            | None =>
                let '(d, err, h) := Read h 2048 in
                match err with
                | Some e =>
                    (inl (Err (newError "dbase-io-readcolumninfos-4" e)), h)
                | None =>
                    match decode_Column d with
                    | None =>
                        (inl (Err (newError "dbase-io-readcolumninfos-5"
                                     (External "unexpected EOF"))), h)
                    | Some column =>
                        if String.eqb (Name column) "_NullFlags" then
                          (inr (int64 (offset + 32), columns), h)
                        else
                          (inr (int64 (offset + 32), columns ++ [column]), h)
                    end
                end
            end
      end
  end.

(** The loop, with a bound on the number of turns; [None]: the bound is
    used up. *)
Fixpoint readColumns_loop (fuel : nat) (dbaseFile : handle) (offset : Z)
    (columns : list Column) : option (result (list Column) * handle) :=
  match fuel with
  | O => None
  | S fuel =>
      match readColumns_step dbaseFile offset columns with
      | (inl r, h) => Some (r, h)
      | (inr (offset, columns), h) => readColumns_loop fuel h offset columns
      end
  end.

(** [func readColumns(dbaseFile *os.File) ([]*Column, error)] *)
Definition readColumns (fuel : nat) (dbaseFile : handle)
    : option (result (list Column) * handle) :=
  readColumns_loop fuel dbaseFile 32 [].

End Columns.

(** The size of the file behind a handle. *)
Definition size_of (h : handle) : Z :=
  match h with Some f => size f | None => 0 end.

(** The columns that [readColumns] exposes among those it decodes. *)
Definition exposed (Name : Column -> string) (columns : list Column)
    : list Column :=
  filter (fun c => negb (String.eqb (Name c) "_NullFlags")) columns.

(** Samples: a column name taken from the first byte of the name field,
    and a descriptor area with one character column, the pseudo-column
    and the terminator. *)
Definition sample_Name (c : Column) : string :=
  match FieldName c with
  | "_"%byte :: _ => "_NullFlags"%string
  | _ => "A"%string
  end.

Definition sample_descriptor (name type : byte) (length : Z) : list byte :=
  [name] ++ make 10 ++ [type] ++ LittleEndian.PutUint32 1 ++ [z2b length]
  ++ make 15.

Definition sample_descriptors : File :=
  file_of (make 32 ++ sample_descriptor "A"%byte "C"%byte 3
           ++ sample_descriptor "_"%byte "0"%byte 1 ++ [ColumnEnd]).

(* ================================================================= *)
(** ** Preparing the handle *)

(** Modelled from the spec: the constants [FoxPro] and
    [FoxProAutoincrement], declared outside the sources. Section 3:
    "Valid: FoxPro (0x30), FoxProAutoincrement (0x31)". *)
Definition FoxPro : Z := 48.
Definition FoxProAutoincrement : Z := 49.

(** [func validateFileVersion(version byte, untested bool) error]. The
    [default] clause is written first but is taken last. *)
Definition validateFileVersion (version : Z) (untested : bool) : option error :=
  if (version =? FoxPro) || (version =? FoxProAutoincrement) then None
  else if untested then None
  else
    Some (newError "dbase-io-validatefileversion-1"
            (Errorf "untested DBF file version: %d (0x%x)")).

Section Prepare.

Variable Name : Column -> string.

(** [binary.Read(bytes.NewReader(b[:n]), binary.LittleEndian, h)] into the
    header structure, which is declared outside the sources; [None] when
    the bytes do not fill it. *)
Variable decode_Header : list byte -> option Header.

(** [func readHeader(dbaseFile *os.File)]: the header read, or an error. *)
Definition readHeader (dbaseFile : handle) : result Header * handle :=
  let '(err, df) := Seek dbaseFile 0 in
  match err with
  | Some e => (Err (newError "dbase-io-readdbfheader-1" e), df)
  | None =>
      let '(d, err, df) := Read df 1024 in
      match err with
      | Some e => (Err (newError "dbase-io-readdbfheader-2" e), df)
      | None =>
          (* LittleEndian - Integers in table files are stored with the
             least significant byte first. *)
          match decode_Header d with
          | Some h => (Ok h, df)
          | None =>
              (Err (newError "dbase-io-readdbfheader-3"
                      (External "unexpected EOF")), df)
          end
      end
  end.

(** [func prepareDBF(dbaseFile *os.File, config *Config)]: the handle, or
    an error. The columns of [table] come beside the handle; the memo side is nil
    and the row pointer 0. [None]: the bound on the turns of
    [readColumns] is used up. *)
Definition prepareDBF (fuel : nat) (dbaseFile : handle) (config : Config)
    : option (result (DBF * list Column) * handle) :=
  let '(r, df) := readHeader dbaseFile in
  match r with
  | Ok header =>
      (* Check if the fileversion flag is expected *)
      match validateFileVersion (FileType header) (Untested config) with
      | Some e => Some (Err (newError "dbase-io-preparedbf-2" e), df)
      | None =>
          match readColumns Name fuel df with
          | None => None
          | Some (Ok columns, df) =>
              Some (Ok (mkDBF config df None header (mkMemoHeader 0 0) 0,
                        columns), df)
          | Some (Err e, df) | Some (ErrWith _ e, df) =>
              Some (Err (newError "dbase-io-preparedbf-3" e), df)
          | Some (Panic m, df) => Some (Panic m, df)
          end
      end
  | Err e | ErrWith _ e => Some (Err (newError "dbase-io-preparedbf-1" e), df)
  | Panic m => Some (Panic m, df)
  end.

End Prepare.

(** [errors.Is]-style test for the version error of [prepareDBF]. *)
Definition is_untested_version (e : error) : bool :=
  match e with
  | newError "dbase-io-preparedbf-2"
      (newError "dbase-io-validatefileversion-1" _) => true
  | _ => false
  end.

(** Sample: a header decoder that reads the version byte and the row
    count, and a table file of version [version] with the sample
    descriptors. *)
Definition sample_decode_Header (b : list byte) : option Header :=
  match b, LittleEndian.Uint32 (skipn 4 b) with
  | v :: _, Some rows => Some (mkHeader (b2z v) 24 1 31 rows 98 4 0 0)
  | _, _ => None
  end.

Definition sample_table_file (version : byte) : File :=
  file_of ([version] ++ make 31 ++ sample_descriptor "A"%byte "C"%byte 3
           ++ sample_descriptor "_"%byte "0"%byte 1 ++ [ColumnEnd]).

(* ================================================================= *)
(** * Properties *)

(** ** Bytes and fixed-width integers *)

Lemma Some_eq {A} (x y : A) : Some x = Some y -> x = y.
Proof. congruence. Qed.

Lemma b2z_z2b (z : Z) : b2z (z2b z) = Z.land z 255.
Proof.
  assert (R : 0 <= Z.land z 255 < 256).
  { change 255 with (Z.ones 8). rewrite Z.land_ones by lia.
    apply Z.mod_pos_bound. lia. }
  unfold z2b, b2z.
  destruct (Byte.of_N (Z.to_N (Z.land z 255))) as [b|] eqn:E.
  - apply Byte.to_of_N in E. rewrite E. apply Z2N.id. lia.
  - apply Byte.of_N_None_iff in E. lia.
Qed.

Lemma testbit_byte_at (v k n : Z) :
  0 <= k -> 0 <= n ->
  Z.testbit (Z.shiftl (Z.land (Z.shiftr v k) 255) k) n
  = (k <=? n) && (n <? k + 8) && Z.testbit v n.
Proof.
  intros Hk Hn. change 255 with (Z.ones 8).
  rewrite Z.shiftl_spec by lia.
  destruct (Z.leb_spec k n) as [L|L]; simpl.
  - rewrite Z.land_spec, Z.shiftr_spec by lia.
    rewrite Z.testbit_ones_nonneg by lia.
    replace (n - k + k) with n by lia.
    replace (n - k <? 8) with (n <? k + 8)
      by (destruct (Z.ltb_spec (n - k) 8), (Z.ltb_spec n (k + 8)); lia).
    apply andb_comm.
  - apply Z.testbit_neg_r. lia.
Qed.

Lemma testbit_low_byte (v n : Z) :
  0 <= n -> Z.testbit (Z.land v 255) n = (n <? 8) && Z.testbit v n.
Proof.
  intros Hn. change 255 with (Z.ones 8).
  rewrite Z.land_spec, Z.testbit_ones_nonneg by lia. apply andb_comm.
Qed.

Lemma testbit_uint32 (v n : Z) :
  0 <= n -> Z.testbit (uint32 v) n = (n <? 32) && Z.testbit v n.
Proof.
  intros Hn. unfold uint32. rewrite <- Z.land_ones by lia.
  rewrite Z.land_spec, Z.testbit_ones_nonneg by lia. apply andb_comm.
Qed.

Lemma four_bytes (v : Z) :
  Z.lor (Z.lor (Z.lor (Z.land v 255)
                  (Z.shiftl (Z.land (Z.shiftr v 8) 255) 8))
           (Z.shiftl (Z.land (Z.shiftr v 16) 255) 16))
        (Z.shiftl (Z.land (Z.shiftr v 24) 255) 24)
  = uint32 v.
Proof.
  apply Z.bits_inj'. intros n Hn.
  rewrite !Z.lor_spec, testbit_low_byte, !testbit_byte_at, testbit_uint32
    by lia.
  destruct (Z.testbit v n); rewrite ?andb_true_r, ?andb_false_r; [|reflexivity].
  destruct (Z.ltb_spec n 8), (Z.leb_spec 8 n), (Z.ltb_spec n (8 + 8)),
    (Z.leb_spec 16 n), (Z.ltb_spec n (16 + 8)), (Z.leb_spec 24 n),
    (Z.ltb_spec n (24 + 8)), (Z.ltb_spec n 32); simpl; try reflexivity; lia.
Qed.

Lemma uint32_small (v : Z) : is_uint32 v -> uint32 v = v.
Proof. unfold is_uint32, uint32. intros H. apply Z.mod_small. exact H. Qed.

Lemma int64_small (v : Z) :
  - 9223372036854775808 <= v < 9223372036854775808 -> int64 v = v.
Proof.
  unfold int64. change (2 ^ 63) with 9223372036854775808.
  change (2 ^ 64) with 18446744073709551616.
  intros H. rewrite Z.mod_small; lia.
Qed.

Lemma is_uint32_bounds (v : Z) : is_uint32 v -> 0 <= v < 4294967296.
Proof. exact (fun H => H). Qed.

Lemma is_uint16_bounds (v : Z) : is_uint16 v -> 0 <= v < 65536.
Proof. exact (fun H => H). Qed.

Lemma BigEndian_Uint32_Put (v : Z) :
  BigEndian.Uint32 (BigEndian.PutUint32 v) = Some (uint32 v).
Proof.
  unfold BigEndian.Uint32, BigEndian.PutUint32.
  rewrite !b2z_z2b. f_equal. apply four_bytes.
Qed.

Lemma LittleEndian_Uint32_Put (v : Z) :
  LittleEndian.Uint32 (LittleEndian.PutUint32 v) = Some (uint32 v).
Proof.
  unfold LittleEndian.Uint32, LittleEndian.PutUint32.
  rewrite !b2z_z2b. f_equal. apply four_bytes.
Qed.

(* ----------------------------------------------------------------- *)
(** ** GoTo and Skip *)




(** What [Skip] leaves in the cursor: the sum, converted to uint32. *)
Lemma Skip_rowPointer (offset : Z) (dbf : DBF) :
  rowPointer (Skip offset dbf) = uint32 (int64 (rowPointer dbf + offset)).
Proof. reflexivity. Qed.

(** C1. On a table of three rows with the cursor on row 1, [Skip 5] leaves
    the cursor at 6 where the clamp is 3, and [Skip (-2)] leaves it at
    4294967295 where the clamp is 0: the clamped values are overwritten by
    the last assignment. *)
Theorem Skip_overwrites_clamp :
  rowPointer (Skip 5 (sample_table 3 1)) = 6
  /\ clamp (RowsCount (header (sample_table 3 1))) (1 + 5) = 3
  /\ rowPointer (Skip (-2) (sample_table 3 1)) = 4294967295
  /\ clamp (RowsCount (header (sample_table 3 1))) (1 + -2) = 0.
Proof. repeat split. Qed.

(* ----------------------------------------------------------------- *)
(** ** Close *)

(* ----------------------------------------------------------------- *)
(** ** Close *)

(** C4 (as the code has it). The table file, when there is one, receives one
    [Close] call. When that call fails its error is returned at once and the
    memo handle is left as it was; otherwise the memo file, when there is
    one, receives one [Close] call and its error, if any, is returned. *)
Theorem Close_spec (dbf : DBF) :
  close_calls (dbaseFile (snd (Close dbf)))
  = match dbaseFile dbf with Some f => S (closes f) | None => 0%nat end
  /\ match table_close_error dbf with
     | Some e =>
         fst (Close dbf)
         = Some (newError "dbase-io-close-1"
                   (Errorfw "closing DBF failed with error: %w" e))
         /\ memoFile (snd (Close dbf)) = memoFile dbf
     | None =>
         close_calls (memoFile (snd (Close dbf)))
         = match memoFile dbf with Some m => S (closes m) | None => 0%nat end
         /\ fst (Close dbf)
            = match memoFile dbf with
              | Some m =>
                  option_map
                    (fun e => newError "dbase-io-close-2"
                                (Errorfw "closing FPT failed with error: %w" e))
                    (fst (File_Close m))
              | None => None
              end
     end.
Proof.
  unfold Close, table_close_error.
  destruct dbf as [cfg [df|] mf hd mh rp]; simpl.
  - destruct (File_Close df) as [[e|] df'] eqn:E; simpl.
    + split; [|split; reflexivity].
      unfold File_Close in E.
      destruct (is_closed df); [|destruct (fault df OpClose 0)];
        inversion E; reflexivity.
    + assert (C : closes df' = S (closes df)).
      { unfold File_Close in E.
        destruct (is_closed df); [|destruct (fault df OpClose 0)];
          inversion E; reflexivity. }
      destruct mf as [m|]; simpl.
      * destruct (File_Close m) as [[e|] m'] eqn:E'; simpl;
          (split; [exact C|]); (split; [|reflexivity]);
          unfold File_Close in E';
          destruct (is_closed m); try destruct (fault m OpClose 0);
          inversion E'; reflexivity.
      * repeat split. exact C.
  - destruct mf as [m|]; simpl.
    + destruct (File_Close m) as [[e|] m'] eqn:E'; simpl;
        (split; [reflexivity|]); (split; [|reflexivity]);
        unfold File_Close in E';
        destruct (is_closed m); try destruct (fault m OpClose 0);
        inversion E'; reflexivity.
    + repeat split.
Qed.

(** C4 (as the specification words it) fails: when closing the table file
    reports an error, the memo file receives no [Close] call. *)
Lemma Close_skips_memo_after_failure :
  ~ (forall dbf m, memoFile dbf = Some m ->
       close_calls (memoFile (snd (Close dbf))) = S (closes m)).
Proof.
  intros H.
  specialize (H sample_unclosable (file_of (make 16)) eq_refl).
  vm_compute in H. discriminate H.
Qed.

(* ----------------------------------------------------------------- *)
(** ** The value codec *)

Lemma len_nonneg {A} (l : list A) : 0 <= len l.
Proof. unfold len. lia. Qed.

Lemma len_app {A} (l1 l2 : list A) : len (l1 ++ l2) = len l1 + len l2.
Proof. unfold len. rewrite length_app. lia. Qed.

Lemma len_make (n : Z) : 0 <= n -> len (make n) = n.
Proof. intros H. unfold len, make. rewrite repeat_length. lia. Qed.

Lemma length_make (n : Z) : List.length (make n) = Z.to_nat n.
Proof. apply repeat_length. Qed.

Lemma length_copy (dst src : list byte) :
  List.length (copy dst src) = List.length dst.
Proof.
  unfold copy. rewrite length_app, length_firstn, length_skipn. lia.
Qed.

Lemma copy_long (dst src : list byte) :
  (List.length dst <= List.length src)%nat ->
  copy dst src = firstn (List.length dst) src.
Proof.
  intros H. unfold copy. rewrite skipn_all2 by exact H. apply app_nil_r.
Qed.

Lemma copy_exact (dst src : list byte) :
  List.length dst = List.length src -> copy dst src = src.
Proof.
  intros H. rewrite copy_long by lia. rewrite H. apply firstn_all.
Qed.

Lemma copy_short (dst src : list byte) :
  (List.length src <= List.length dst)%nat ->
  copy dst src = src ++ skipn (List.length src) dst.
Proof.
  intros H. unfold copy. rewrite firstn_all2 by exact H. reflexivity.
Qed.

Lemma not_supported_no_case (b : byte) :
  ~ In b supported_types ->
  forallb (fun s => negb (String.eqb (string_of_rune b) s))
    ["M"; "C"; "I"; "B"; "D"; "T"; "L"; "V"; "Y"; "N"; "F"]%string = true.
Proof.
  intros H.
  destruct b; try reflexivity; exfalso; apply H; simpl; auto 20.
Qed.

Section Codec.

Variable Decode toUTF8String fromUtf8String : list byte -> list byte * option error.
Variable parseDate parseDateTime parseNumericInt : list byte -> Z * option error.
Variable parseFloat : list byte -> float64 * option error.

Lemma dataToValue_bad_length raw col dbf :
  len raw <> Length col ->
  dataToValue Decode toUTF8String parseDate parseDateTime parseNumericInt
    parseFloat raw col dbf
  = (Err (Errorf "dbase-interpreter-datatovalue-1:FAILED:invalid length %v Bytes != %v Bytes at column field: %v"),
     dbf).
Proof.
  intros H. unfold dataToValue.
  destruct (Z.eqb_spec (len raw) (Length col)); [contradiction|reflexivity].
Qed.

Lemma dataToValue_unknown_type raw col dbf :
  len raw = Length col ->
  ~ In (DataType col) supported_types ->
  dataToValue Decode toUTF8String parseDate parseDateTime parseNumericInt
    parseFloat raw col dbf
  = (Err (Errorf "dbase-interpreter-datatovalue-9:FAILED:Unsupported column data type: %s"),
     dbf).
Proof.
  intros HL HT. unfold dataToValue.
  rewrite HL, Z.eqb_refl. simpl negb. cbv iota.
  apply not_supported_no_case in HT. unfold ColumnType.
  simpl in HT. repeat rewrite andb_true_iff in HT.
  repeat rewrite negb_true_iff in HT.
  destruct HT as (M & C & I & B & D & T & L & V & Y & N & F & _).
  rewrite M, C, I, B, D, T, L, V, Y, N, F. reflexivity.
Qed.

(** C7 (as the code has it). A raw slice whose length differs from
    [column.Length] is rejected with the invalid-length error, whatever
    the column type; a slice of the right length in a column whose type
    code is outside B, C, D, F, I, L, M, N, T, V, Y is rejected with the
    unsupported-type error. *)
Theorem dataToValue_errors raw col dbf :
  (len raw <> Length col ->
     exists e,
       dataToValue Decode toUTF8String parseDate parseDateTime parseNumericInt
         parseFloat raw col dbf = (Err e, dbf)
       /\ is_invalid_length e = true)
  /\ (len raw = Length col -> ~ In (DataType col) supported_types ->
        exists e,
          dataToValue Decode toUTF8String parseDate parseDateTime
            parseNumericInt parseFloat raw col dbf = (Err e, dbf)
          /\ is_unsupported_type e = true).
Proof.
  split.
  - intros H. eexists. split; [apply dataToValue_bad_length; exact H|].
    reflexivity.
  - intros HL HT. eexists.
    split; [apply dataToValue_unknown_type; assumption|]. reflexivity.
Qed.

(** C9. For a string value in a C column, when the converter succeeds,
    the result is the encoded text followed by spaces up to [Length] and
    cut at [Length]: exactly [Length] bytes. Whatever the field, the
    over-length error is never returned. *)
Theorem getCRepresentation_spec (field : Field) :
  0 <= Length (column field) ->
  (forall c bin,
      value_of field = VString c ->
      fromUtf8String c = (bin, None) ->
      let n := Length (column field) in
      let padded := bin ++ repeat " "%byte (Z.to_nat (n - len bin)) in
      getCRepresentation fromUtf8String field = Ok (firstn (Z.to_nat n) padded)
      /\ len (firstn (Z.to_nat n) padded) = n)
  /\ (forall e, getCRepresentation fromUtf8String field = Err e ->
                is_overlength_C e = false).
Proof.
  intros HL.
  assert (LC : forall src, len (copy (make (Length (column field))) src)
                           = Length (column field)).
  { intros src. unfold len. rewrite length_copy, length_make. lia. }
  split.
  - intros c bin Hv Hc n padded. unfold getCRepresentation.
    rewrite Hv, Hc. unfold appendSpaces. fold n. fold padded.
    assert (HP : (Z.to_nat n <= List.length padded)%nat).
    { unfold padded. rewrite length_app, repeat_length. unfold len. lia. }
    unfold n at 1 2. rewrite LC, Z.gtb_ltb, Z.ltb_irrefl. fold n.
    rewrite copy_long by (rewrite length_make; exact HP).
    rewrite length_make. split; [reflexivity|].
    unfold len. rewrite length_firstn. lia.
  - intros e. unfold getCRepresentation.
    destruct (value_of field); try (intros E; inversion E; reflexivity).
    destruct (fromUtf8String s) as [bin [e'|]].
    + intros E; inversion E; reflexivity.
    + rewrite LC, Z.gtb_ltb, Z.ltb_irrefl. discriminate.
Qed.

End Codec.

(** C7 (as the specification words it) fails: for a column of the unknown
    type X and length 1, an empty raw slice is rejected with the
    invalid-length error, not with the unsupported-type error. *)
Lemma dataToValue_length_checked_before_type :
  ~ (forall raw col dbf,
       ~ In (DataType col) supported_types ->
       exists e,
         fst (dataToValue id_converter id_converter no_parse_Z no_parse_Z
                no_parse_Z no_parse_float raw col dbf) = Err e
         /\ is_unsupported_type e = true).
Proof.
  intros H.
  destruct (H [] (mkColumn [] "X"%byte 1 1 0) (sample_table 0 0)) as (e & E & U).
  - simpl. intuition discriminate.
  - vm_compute in E. inversion E; subst e. discriminate U.
Qed.

Lemma dataToValue_errors_witness :
  (exists e,
      dataToValue id_converter id_converter no_parse_Z no_parse_Z no_parse_Z
        no_parse_float [] (mkColumn [] "X"%byte 1 1 0) (sample_table 0 0)
      = (Err e, sample_table 0 0) /\ is_invalid_length e = true)
  /\ (exists e,
      dataToValue id_converter id_converter no_parse_Z no_parse_Z no_parse_Z
        no_parse_float ["a"%byte] (mkColumn [] "X"%byte 1 1 0) (sample_table 0 0)
      = (Err e, sample_table 0 0) /\ is_unsupported_type e = true).
Proof.
  split.
  - apply (proj1 (dataToValue_errors id_converter id_converter no_parse_Z
                    no_parse_Z no_parse_Z no_parse_float
                    [] (mkColumn [] "X"%byte 1 1 0) (sample_table 0 0))).
    vm_compute. discriminate.
  - apply (proj2 (dataToValue_errors id_converter id_converter no_parse_Z
                    no_parse_Z no_parse_Z no_parse_float
                    ["a"%byte] (mkColumn [] "X"%byte 1 1 0) (sample_table 0 0))).
    + reflexivity.
    + simpl. intuition discriminate.
Defined.

Lemma getCRepresentation_spec_witness :
  getCRepresentation id_converter
    (mkField sample_column (VString ["h"; "i"]%byte))
  = Ok ["h"; "i"; " "]%byte
  /\ getCRepresentation id_converter
       (mkField sample_column (VString ["h"; "e"; "l"; "l"; "o"]%byte))
     = Ok ["h"; "e"; "l"]%byte.
Proof.
  split.
  - apply (proj1 (getCRepresentation_spec id_converter
                    (mkField sample_column (VString ["h"; "i"]%byte))
                    ltac:(simpl; lia)) ["h"; "i"]%byte ["h"; "i"]%byte
                 eq_refl eq_refl).
  - apply (proj1 (getCRepresentation_spec id_converter
                    (mkField sample_column
                       (VString ["h"; "e"; "l"; "l"; "o"]%byte))
                    ltac:(simpl; lia))
                 ["h"; "e"; "l"; "l"; "o"]%byte ["h"; "e"; "l"; "l"; "o"]%byte
                 eq_refl eq_refl).
Defined.

(** Whatever the eight bytes, the decoder of a Y column divides a
    non-negative integer: the bytes are read unsigned. *)
Lemma LittleEndian_Uint64_nonneg (raw : list byte) (u : Z) :
  LittleEndian.Uint64 raw = Some u -> 0 <= u.
Proof.
  unfold LittleEndian.Uint64.
  destruct raw as [|b0 [|b1 [|b2 [|b3 [|b4 [|b5 [|b6 [|b7 raw]]]]]]]];
    try discriminate.
  intros E. apply Some_eq in E. subst u.
  assert (B : forall b, 0 <= b2z b) by (intros b; unfold b2z; lia).
  repeat (apply Z.lor_nonneg; split);
    try (apply Z.shiftl_nonneg); apply B.
Qed.

Lemma dataToValue_Y_unsigned
    (Decode toUTF8String : list byte -> list byte * option error)
    (parseDate parseDateTime parseNumericInt : list byte -> Z * option error)
    (parseFloat : list byte -> float64 * option error)
    (raw : list byte) (col : Column) (dbf : DBF) :
  DataType col = "Y"%byte -> Length col = 8 -> len raw = 8 ->
  exists u,
    LittleEndian.Uint64 raw = Some u /\ 0 <= u
    /\ dataToValue Decode toUTF8String parseDate parseDateTime parseNumericInt
         parseFloat raw col dbf
       = (Ok (VFloat64 (f64_div (f64_of_Z u) (f64_of_Z 10000))), dbf).
Proof.
  intros T L R.
  destruct raw as [|b0 [|b1 [|b2 [|b3 [|b4 [|b5 [|b6 [|b7 raw]]]]]]]];
    try discriminate R.
  eexists. split; [reflexivity|].
  split.
  - apply (LittleEndian_Uint64_nonneg
             (b0 :: b1 :: b2 :: b3 :: b4 :: b5 :: b6 :: b7 :: raw)).
    reflexivity.
  - unfold dataToValue, ColumnType. rewrite T, L, R. reflexivity.
Qed.

(** C2. The encoder stores -1.5 as the signed integer -15000; the decoder
    reads those eight bytes as the unsigned integer 18446744073709536616 and
    returns 7378697629483815 / 4 (about 1.8e15), not -1.5. *)
Theorem dataToValue_Y_reads_unsigned :
  getYRepresentation (mkField currency_column (VFloat64 minus_one_and_a_half))
  = Ok ["h"; "197"; "255"; "255"; "255"; "255"; "255"; "255"]%byte
  /\ le_int64 ["h"; "197"; "255"; "255"; "255"; "255"; "255"; "255"]%byte
     = Some (-15000)
  /\ f64_div (f64_of_Z (-15000)) (f64_of_Z 10000) = minus_one_and_a_half
  /\ forall dbf,
       dataToValue id_converter id_converter no_parse_Z no_parse_Z no_parse_Z
         no_parse_float
         ["h"; "197"; "255"; "255"; "255"; "255"; "255"; "255"]%byte
         currency_column dbf
       = (Ok (VFloat64 (S754_finite false 7378697629483815 (-2))), dbf).
Proof.
  repeat split; vm_compute; reflexivity.
Qed.

(* ----------------------------------------------------------------- *)
(** ** System calls that go through *)

Lemma Seek_inv (h h' : handle) (off : Z) :
  Seek h off = (None, h') ->
  exists f, h = Some f /\ is_closed f = false /\ 0 <= off
            /\ h' = Some (set_cursor f off).
Proof.
  unfold Seek. destruct h as [f|]; [|discriminate].
  destruct (is_closed f) eqn:C; [discriminate|].
  destruct (Z.ltb_spec off 0); [discriminate|].
  destruct (fault f OpSeek off); [discriminate|].
  intros E. inversion E. exists f. repeat split; auto.
Qed.

Lemma Write_inv (h h' : handle) (b : list byte) :
  Write h b = (None, h') ->
  exists f, h = Some f /\ is_closed f = false
            /\ h' = Some (store f (cursor f) b).
Proof.
  unfold Write. destruct h as [f|]; [|discriminate].
  destruct (is_closed f) eqn:C; [discriminate|].
  destruct (fault f OpWrite (cursor f)); [discriminate|].
  intros E. inversion E. exists f. repeat split; auto.
Qed.

Lemma healthy_inv (h : handle) :
  healthy h ->
  exists f, h = Some f /\ is_closed f = false
            /\ forall op off, fault f op off = false.
Proof.
  intros (f & E & C & F). exists f. repeat split; auto.
  unfold is_closed. rewrite C. reflexivity.
Qed.

Lemma Seek_ok (f : File) (off : Z) :
  is_closed f = false -> fault f OpSeek off = false -> 0 <= off ->
  Seek (Some f) off = (None, Some (set_cursor f off)).
Proof.
  intros C F H. unfold Seek. rewrite C, F.
  destruct (Z.ltb_spec off 0); [lia|reflexivity].
Qed.

Lemma Write_ok (f : File) (b : list byte) :
  is_closed f = false -> fault f OpWrite (cursor f) = false ->
  Write (Some f) b = (None, Some (store f (cursor f) b)).
Proof. intros C F. unfold Write. rewrite C, F. reflexivity. Qed.

Lemma FcntlFlock_lock_ok (f : File) (start : Z) :
  is_closed f = false -> fault f OpLock start = false ->
  FcntlFlock_lock (Some f) start = None.
Proof. intros C F. unfold FcntlFlock_lock. rewrite C, F. reflexivity. Qed.



Lemma Read_ok (f : File) (n : Z) :
  is_closed f = false -> fault f OpRead (cursor f) = false ->
  0 < n -> cursor f + n <= size f ->
  Read (Some f) n
  = (read_range f (cursor f) (Z.to_nat n), None,
     Some (set_cursor f (cursor f + n))).
Proof.
  intros C F H S. unfold Read. rewrite C, F.
  destruct (Z.leb_spec n 0); [lia|].
  destruct (Z.leb_spec (size f) (cursor f)); [lia|].
  rewrite Z.min_l by lia. reflexivity.
Qed.

(** Reading back what has just been stored. *)
Lemma read_range_nth (f : File) (c : Z) (b : list byte) (off k : nat) :
  (forall i, (i < k)%nat ->
     contents f (c + Z.of_nat (off + i)) = nth (off + i) b Byte.x00) ->
  (off + k <= List.length b)%nat ->
  read_range f (c + Z.of_nat off) k = firstn k (skipn off b).
Proof.
  intros H L. unfold read_range.
  apply nth_ext with (d := Byte.x00) (d' := Byte.x00).
  - rewrite length_map, length_seq, length_firstn, length_skipn. lia.
  - rewrite length_map, length_seq. intros i Hi.
    rewrite nth_firstn.
    destruct (Nat.ltb_spec i k); [|lia].
    rewrite nth_skipn.
    rewrite (nth_indep _ Byte.x00 (contents f (c + Z.of_nat off + Z.of_nat 0)))
      by (rewrite length_map, length_seq; lia).
    rewrite (map_nth (fun j => contents f (c + Z.of_nat off + Z.of_nat j))).
    rewrite seq_nth by lia. simpl Nat.add.
    rewrite <- H by lia. f_equal. lia.
Qed.

Lemma contents_store_inside (f : File) (c : Z) (b : list byte) (i : nat) :
  (i < List.length b)%nat ->
  contents (store f c b) (c + Z.of_nat i) = nth i b Byte.x00.
Proof.
  intros H. unfold store, len. simpl.
  destruct (Z.leb_spec c (c + Z.of_nat i)); [|lia].
  destruct (Z.ltb_spec (c + Z.of_nat i) (c + Z.of_nat (List.length b))); [|lia].
  simpl. f_equal. lia.
Qed.

Lemma contents_store_outside (f : File) (c : Z) (b : list byte) (i : Z) :
  ~ (c <= i < c + len b) -> contents (store f c b) i = contents f i.
Proof.
  intros H. unfold store. simpl.
  destruct (Z.leb_spec c i), (Z.ltb_spec i (c + len b)); simpl;
    try reflexivity; lia.
Qed.

Lemma read_range_store (f : File) (c : Z) (b : list byte) (off k : nat) :
  (off + k <= List.length b)%nat ->
  read_range (store f c b) (c + Z.of_nat off) k = firstn k (skipn off b).
Proof.
  intros L. apply read_range_nth; [|exact L].
  intros i Hi. apply contents_store_inside. lia.
Qed.

Lemma read_range_store_all (f : File) (c : Z) (b : list byte) :
  read_range (store f c b) c (List.length b) = b.
Proof.
  replace c with (c + Z.of_nat 0) at 2 by lia.
  rewrite read_range_store by lia. rewrite skipn_O. apply firstn_all.
Qed.

Lemma len_read_range (f : File) (off : Z) (k : nat) :
  len (read_range f off k) = Z.of_nat k.
Proof. unfold len, read_range. rewrite length_map, length_seq. reflexivity. Qed.

Lemma read_range_set_cursor (f : File) (c off : Z) (k : nat) :
  read_range (set_cursor f c) off k = read_range f off k.
Proof. reflexivity. Qed.

(* ----------------------------------------------------------------- *)
(** ** The memo block *)

Lemma slice_update_app (a s c : list byte) (lo hi : Z)
    (f : list byte -> list byte) :
  lo = len a -> hi = lo + len s ->
  slice_update (a ++ s ++ c) lo hi f = Some (a ++ f s ++ c).
Proof.
  intros -> ->. unfold slice_update.
  assert (L : len (a ++ s ++ c) = len a + len s + len c)
    by (rewrite !len_app; lia).
  pose proof (len_nonneg a). pose proof (len_nonneg s).
  pose proof (len_nonneg c).
  destruct (Z.leb_spec (len a) (len a + len s)); [|lia].
  destruct (Z.leb_spec (len a + len s) (len (a ++ s ++ c))); [|lia].
  simpl. unfold len.
  replace (Z.to_nat (Z.of_nat (List.length a) + Z.of_nat (List.length s)
                     - Z.of_nat (List.length a)))
    with (List.length s) by lia.
  replace (Z.to_nat (Z.of_nat (List.length a) + Z.of_nat (List.length s)))
    with (List.length a + List.length s)%nat by lia.
  rewrite Nat2Z.id.
  rewrite skipn_app, skipn_all, Nat.sub_diag. simpl.
  rewrite firstn_app, firstn_all, Nat.sub_diag. simpl. rewrite app_nil_r.
  rewrite firstn_app, firstn_all, Nat.sub_diag. simpl. rewrite app_nil_r.
  replace (skipn (List.length a + List.length s) (a ++ s ++ c)) with c;
    [reflexivity|].
  rewrite (app_assoc a s c), <- length_app.
  rewrite skipn_app, skipn_all, Nat.sub_diag. reflexivity.
Qed.

Lemma skipn_repeat_x00 (k n : nat) :
  skipn k (repeat Byte.x00 n) = repeat Byte.x00 (n - k).
Proof.
  revert n. induction k as [|k IH]; intros n.
  - rewrite Nat.sub_0_r. reflexivity.
  - destruct n; [reflexivity|]. simpl. apply IH.
Qed.

Lemma block_length_field (a b c : list byte) :
  List.length a = 4%nat -> List.length b = 4%nat ->
  firstn 4 (skipn 4 (a ++ b ++ c)) = b.
Proof.
  intros A B.
  rewrite <- A at 2. rewrite skipn_app, skipn_all, Nat.sub_diag.
  rewrite <- B at 1. simpl. rewrite firstn_app, firstn_all, Nat.sub_diag.
  apply app_nil_r.
Qed.

Lemma block_payload (a b c : list byte) :
  List.length a = 4%nat -> List.length b = 4%nat ->
  skipn 8 (a ++ b ++ c) = c.
Proof.
  intros A B. rewrite app_assoc.
  replace 8%nat with (List.length (a ++ b)) by (rewrite length_app; lia).
  rewrite skipn_app, skipn_all, Nat.sub_diag. reflexivity.
Qed.

Lemma block_header (a b c : list byte) :
  List.length a = 4%nat -> List.length b = 4%nat ->
  firstn 8 (a ++ b ++ c) = a ++ b.
Proof.
  intros A B. rewrite app_assoc.
  replace 8%nat with (List.length (a ++ b)) by (rewrite length_app; lia).
  rewrite firstn_app, firstn_all, Nat.sub_diag. apply app_nil_r.
Qed.

Lemma len_PutUint32 (v : Z) : len (BigEndian.PutUint32 v) = 4.
Proof. reflexivity. Qed.

Lemma make_split (n k : Z) :
  0 <= k <= n -> make n = make k ++ make (n - k).
Proof.
  intros H. unfold make. rewrite <- repeat_app. f_equal. lia.
Qed.

(** The block is the signature, the length converted to uint32, and the
    data cut or zero-padded to the rest of the block. *)
Lemma memo_block_layout (bs : Z) (raw : list byte) (text : bool) (length : Z) :
  8 <= bs ->
  memo_block bs raw text length
  = Some (BigEndian.PutUint32 (if text then 1 else 0)
          ++ BigEndian.PutUint32 (uint32 length)
          ++ copy (make (bs - 8)) raw).
Proof.
  intros H. unfold memo_block.
  rewrite (make_split bs 4) by lia.
  rewrite (make_split (bs - 4) 4) by lia.
  replace (bs - 4 - 4) with (bs - 8) by lia.
  rewrite (slice_update_app [] (make 4) (make 4 ++ make (bs - 8)))
    by reflexivity.
  rewrite copy_exact by reflexivity. rewrite app_nil_l.
  rewrite (slice_update_app _ (make 4) (make (bs - 8)))
    by reflexivity.
  rewrite copy_exact by reflexivity.
  set (a := BigEndian.PutUint32 (if text then 1 else 0)).
  set (l := BigEndian.PutUint32 (uint32 length)).
  replace (a ++ l ++ make (bs - 8)) with ((a ++ l) ++ make (bs - 8) ++ [])
    by (rewrite app_nil_r, app_assoc; reflexivity).
  rewrite slice_update_app.
  - rewrite app_nil_r, <- app_assoc. reflexivity.
  - reflexivity.
  - subst a l. rewrite !len_app, len_make, !len_PutUint32 by lia.
    change (len (@nil byte)) with 0. lia.
Qed.

Lemma slice_update_len (buf b' : list byte) (lo hi : Z)
    (f : list byte -> list byte) :
  0 <= lo ->
  (forall s, List.length (f s) = List.length s) ->
  slice_update buf lo hi f = Some b' ->
  len b' = len buf /\ hi <= len buf.
Proof.
  intros Hlo Hf. unfold slice_update.
  destruct (Z.leb_spec lo hi); simpl; [|discriminate].
  destruct (Z.leb_spec hi (len buf)); simpl; [|discriminate].
  intros E. inversion E. split; [|assumption].
  unfold len in *.
  rewrite !length_app, Hf, !length_firstn, !length_skipn. lia.
Qed.

Lemma memo_block_inv (bs : Z) (raw : list byte) (text : bool) (length : Z)
    (block : list byte) :
  0 <= bs -> memo_block bs raw text length = Some block -> 8 <= bs.
Proof.
  intros Hbs. unfold memo_block.
  destruct (slice_update (make bs) 0 4 _) as [b1|] eqn:E1; [|discriminate].
  destruct (slice_update b1 4 8 _) as [b2|] eqn:E2; [|discriminate].
  intros _.
  apply slice_update_len in E1; [|lia|intros; apply length_copy].
  apply slice_update_len in E2; [|lia|intros; apply length_copy].
  rewrite len_make in E1 by lia. lia.
Qed.

Lemma len_memo_block (bs : Z) (raw : list byte) (text : bool) (length : Z)
    (block : list byte) :
  0 <= bs -> memo_block bs raw text length = Some block -> len block = bs.
Proof.
  intros Hbs. unfold memo_block.
  destruct (slice_update (make bs) 0 4 _) as [b1|] eqn:E1; [|discriminate].
  destruct (slice_update b1 4 8 _) as [b2|] eqn:E2; [|discriminate].
  intros E3.
  apply slice_update_len in E1; [|lia|intros; apply length_copy].
  apply slice_update_len in E2; [|lia|intros; apply length_copy].
  apply slice_update_len in E3; [|lia|intros; apply length_copy].
  rewrite len_make in E1 by lia. lia.
Qed.

(* ----------------------------------------------------------------- *)
(** ** Memo file: writeMemoHeader, writeMemo, readMemo *)

Lemma writeMemoHeader_body_inv (dbf dbf1 : DBF) :
  writeMemoHeader_body dbf = (None, dbf1) ->
  exists mf, memoFile dbf = Some mf /\ is_closed mf = false
             /\ dbf1 = after_memo_header dbf mf.
Proof.
  unfold writeMemoHeader_body, after_memo_header.
  destruct (Seek (memoFile dbf) 0) as [[e|] mf0] eqn:ES; [discriminate|].
  apply Seek_inv in ES. destruct ES as (mf & Em & C & _ & ->).
  cbn [set_memoFile set_memoHeader set_NextFree memoFile memoHeader
       NextFree BlockSize].
  destruct (Write _ _) as [[e|] mf1] eqn:EW; [discriminate|].
  apply Write_inv in EW. destruct EW as (f & Ef & _ & ->).
  injection Ef as <-. intros E. injection E as <-.
  exists mf. repeat split; auto.
Qed.

Lemma writeMemoHeader_inv (dbf dbf1 : DBF) :
  writeMemoHeader dbf = (None, dbf1) ->
  exists mf, memoFile dbf = Some mf /\ is_closed mf = false
             /\ dbf1 = after_memo_header dbf mf.
Proof.
  unfold writeMemoHeader.
  destruct (memoFile dbf) as [mf0|] eqn:Em; [|discriminate].
  destruct (WriteLock (config dbf)).
  - destruct (FcntlFlock_lock (Some mf0) 0); [discriminate|].
    destruct (writeMemoHeader_body dbf) as [err r] eqn:EB.
    destruct (FcntlFlock_unlock (dbaseFile r) 0); [discriminate|].
    intros E. injection E as -> <-.
    apply writeMemoHeader_body_inv in EB. rewrite Em in EB. exact EB.
  - intros E. apply writeMemoHeader_body_inv in E. rewrite Em in E. exact E.
Qed.

Lemma writeMemoHeader_ok (dbf : DBF) (mf : File) :
  memoFile dbf = Some mf -> is_closed mf = false ->
  (forall op off, fault mf op off = false) ->
  WriteLock (config dbf) = false ->
  writeMemoHeader dbf = (None, after_memo_header dbf mf).
Proof.
  intros Em C F HL.
  assert (B : writeMemoHeader_body dbf = (None, after_memo_header dbf mf)).
  { unfold writeMemoHeader_body. rewrite Em.
    rewrite Seek_ok by first [exact C | apply F | lia].
    cbn [set_memoFile set_memoHeader set_NextFree memoFile memoHeader
         NextFree BlockSize].
    rewrite Write_ok by first [exact C | apply F]. reflexivity. }
  unfold writeMemoHeader. rewrite Em, B, HL. reflexivity.
Qed.

Lemma memo_offset_in_range (mh : MemoHeader) :
  memoHeader_in_range mh ->
  int64 (int64 (NextFree mh) * int64 (BlockSize mh))
  = NextFree mh * BlockSize mh
  /\ 0 <= NextFree mh * BlockSize mh.
Proof.
  intros (N & B).
  apply is_uint32_bounds in N. apply is_uint16_bounds in B.
  rewrite (int64_small (NextFree mh)), (int64_small (BlockSize mh)) by lia.
  rewrite int64_small by nia. split; [reflexivity|nia].
Qed.

Lemma writeMemo_inv (raw : list byte) (text : bool) (length : Z)
    (dbf dbf' : DBF) (addr : list byte) :
  memoHeader_in_range (memoHeader dbf) ->
  writeMemo raw text length dbf = (Ok addr, dbf') ->
  exists mf block,
    memoFile dbf = Some mf /\ is_closed mf = false
    /\ 8 <= BlockSize (memoHeader dbf)
    /\ memo_block (BlockSize (memoHeader dbf)) raw text length = Some block
    /\ addr = LittleEndian.PutUint32 (NextFree (memoHeader dbf))
    /\ writeMemoHeader dbf = (None, after_memo_header dbf mf)
    /\ dbf' = after_memo_write dbf mf block.
Proof.
  intros R. pose proof (memo_offset_in_range _ R) as (Off & Off0).
  unfold writeMemo.
  destruct (memoFile dbf) as [mf0|] eqn:Em; [|discriminate].
  destruct (writeMemoHeader dbf) as [[e|] dbf1] eqn:EH; [discriminate|].
  pose proof EH as EH'.
  apply writeMemoHeader_inv in EH. destruct EH as (mf & Em' & C & ->).
  rewrite Em in Em'. injection Em' as <-.
  unfold after_memo_header at 1 2 3 4 5 6 7. cbn [memoHeader BlockSize config memoFile].
  destruct (memo_block _ raw text length) as [block|] eqn:EB; [|discriminate].
  assert (H8 : 8 <= BlockSize (memoHeader dbf)).
  { eapply memo_block_inv; [|exact EB]. destruct R as (_ & B). apply B. }
  match goal with
  | |- match ?l with Some _ => _ | None => _ end = _ -> _ =>
      destruct l; [discriminate|]
  end.
  rewrite Off.
  destruct (Seek _ _) as [[e|] h1] eqn:ES; [discriminate|].
  apply Seek_inv in ES. destruct ES as (f1 & Ef1 & _ & _ & ->).
  injection Ef1 as <-.
  cbn [set_memoFile memoFile].
  destruct (Write _ block) as [[e|] h2] eqn:EW; [discriminate|].
  apply Write_inv in EW. destruct EW as (f2 & Ef2 & _ & ->).
  injection Ef2 as <-.
  cbn [toBinary]. intros E. injection E as <- <-.
  exists mf0, block. repeat split; auto.
Qed.

(** After a successful [writeMemo] the header counter is the old one plus
    one, converted to uint32. *)
Lemma writeMemo_NextFree (raw : list byte) (text : bool) (length : Z)
    (dbf dbf' : DBF) (addr : list byte) :
  memoHeader_in_range (memoHeader dbf) ->
  writeMemo raw text length dbf = (Ok addr, dbf') ->
  NextFree (memoHeader dbf') = uint32 (NextFree (memoHeader dbf) + 1).
Proof.
  intros R E. apply writeMemo_inv in E; [|exact R].
  destruct E as (mf & block & _ & _ & _ & _ & _ & _ & ->). reflexivity.
Qed.

Lemma writeMemo_ok (raw : list byte) (text : bool) (length : Z)
    (dbf : DBF) (mf : File) :
  memoHeader_in_range (memoHeader dbf) ->
  memoFile dbf = Some mf -> is_closed mf = false ->
  (forall op off, fault mf op off = false) ->
  WriteLock (config dbf) = false ->
  8 <= BlockSize (memoHeader dbf) ->
  exists block,
    memo_block (BlockSize (memoHeader dbf)) raw text length = Some block
    /\ writeMemo raw text length dbf
       = (Ok (LittleEndian.PutUint32 (NextFree (memoHeader dbf))),
          after_memo_write dbf mf block).
Proof.
  intros R Em C F HL H8.
  pose proof (memo_offset_in_range _ R) as (Off & Off0).
  pose proof (memo_block_layout (BlockSize (memoHeader dbf)) raw text length H8)
    as EB.
  eexists. split; [exact EB|].
  unfold writeMemo. rewrite Em.
  rewrite (writeMemoHeader_ok dbf mf Em C F HL).
  unfold after_memo_header at 1 2 3 4 5 6 7.
  cbn [memoHeader BlockSize config memoFile].
  rewrite EB. rewrite Off.
  rewrite HL.
  rewrite Seek_ok by first [exact C | apply F | exact Off0].
  cbn [set_memoFile memoFile].
  rewrite Write_ok by first [exact C | apply F].
  reflexivity.
Qed.

Lemma BigEndian_Uint32_first (a b : list byte) (v : Z) :
  a = BigEndian.PutUint32 v ->
  BigEndian.Uint32 (firstn 4 (a ++ b)) = Some (uint32 v).
Proof. intros ->. apply BigEndian_Uint32_Put. Qed.

(** [readMemo] on a reference to block [k], when the file holds there a
    header with signature [sign] and the length of [p], followed by [p]. *)
Lemma readMemo_reads_block (dbf : DBF) (f : File) (k sign : Z) (p : list byte) :
  memoFile dbf = Some f -> is_closed f = false ->
  (forall op off, fault f op off = false) ->
  memoHeader_in_range (memoHeader dbf) ->
  is_uint32 k -> is_uint32 sign -> is_uint32 (len p) ->
  k * BlockSize (memoHeader dbf) + 8 + len p <= size f ->
  read_range f (k * BlockSize (memoHeader dbf)) 8
  = BigEndian.PutUint32 sign ++ BigEndian.PutUint32 (len p) ->
  read_range f (k * BlockSize (memoHeader dbf) + 8) (List.length p) = p ->
  exists dbf', readMemo (LittleEndian.PutUint32 k) dbf = (Ok (p, sign =? 1), dbf').
Proof.
  intros Em C F (_ & B) K S P Sz H8 HP.
  set (off := k * BlockSize (memoHeader dbf)) in *.
  apply is_uint16_bounds in B.
  pose proof (is_uint32_bounds _ K) as K'.
  pose proof (is_uint32_bounds _ P) as P'.
  assert (O : int64 (int64 (BlockSize (memoHeader dbf)) * int64 k) = off).
  { rewrite (int64_small (BlockSize _)), (int64_small k) by lia.
    rewrite int64_small by nia. unfold off. apply Z.mul_comm. }
  assert (O0 : 0 <= off) by (unfold off; nia).
  unfold readMemo. rewrite Em, LittleEndian_Uint32_Put, (uint32_small _ K), O.
  rewrite Seek_ok by first [exact C | apply F | exact O0].
  cbn [set_memoFile memoFile].
  rewrite Read_ok by first [exact C | apply F | cbn; lia].
  cbn [cursor set_cursor]. rewrite read_range_set_cursor.
  change (Z.to_nat 8) with 8%nat. rewrite H8.
  rewrite copy_exact by reflexivity.
  change (firstn 4 (BigEndian.PutUint32 sign ++ BigEndian.PutUint32 (len p)))
    with (BigEndian.PutUint32 sign).
  change (skipn 4 (BigEndian.PutUint32 sign ++ BigEndian.PutUint32 (len p)))
    with (BigEndian.PutUint32 (len p)).
  rewrite !BigEndian_Uint32_Put, (uint32_small _ S), (uint32_small _ P).
  destruct (Z.eqb_spec (len p) 0) as [Z0|NZ].
  - destruct p; [|discriminate Z0]. eexists. reflexivity.
  - rewrite Read_ok by first [exact C | apply F | cbn; lia].
    cbn [cursor set_cursor]. rewrite !read_range_set_cursor.
    replace (Z.to_nat (len p)) with (List.length p) by (unfold len; lia).
    rewrite HP.
    rewrite copy_exact by (rewrite length_make; unfold len; lia).
    rewrite Z.eqb_refl. eexists. reflexivity.
Qed.

(** The bytes of the block as they lie in the file after [writeMemo]. *)
Lemma after_memo_write_block (dbf : DBF) (mf : File) (block : list byte)
    (off k : nat) :
  (off + k <= List.length block)%nat ->
  exists mf',
    memoFile (after_memo_write dbf mf block) = Some mf'
    /\ is_closed mf' = is_closed mf
    /\ (forall op o, fault mf' op o = fault mf op o)
    /\ NextFree (memoHeader dbf) * BlockSize (memoHeader dbf) + len block
       <= size mf'
    /\ read_range mf'
         (NextFree (memoHeader dbf) * BlockSize (memoHeader dbf) + Z.of_nat off) k
       = firstn k (skipn off block).
Proof.
  intros L. eexists. split; [reflexivity|].
  split; [reflexivity|]. split; [reflexivity|].
  split; [cbn [size store]; lia|].
  apply read_range_store. exact L.
Qed.

(** C10 (as the code has it). A successful [writeMemo] puts one block of
    exactly [BlockSize] bytes at offset [NextFree * BlockSize] and changes
    nothing else after the header update: four bytes of signature, four
    bytes holding the length argument converted to uint32, then at most
    [BlockSize - 8] bytes of the payload, zero-filled. The length field is
    the argument itself when it fits in 32 bits, so for
    [BlockSize - 8 < length < 2^32] it exceeds the number of payload bytes
    stored. *)
Theorem writeMemo_block (raw : list byte) (text : bool) (length : Z)
    (dbf dbf' : DBF) (addr : list byte) :
  memoHeader_in_range (memoHeader dbf) ->
  writeMemo raw text length dbf = (Ok addr, dbf') ->
  let n := NextFree (memoHeader dbf) in
  let bs := BlockSize (memoHeader dbf) in
  let stored := firstn (Z.to_nat (bs - 8)) raw in
  exists mf1 mf',
    memoFile (snd (writeMemoHeader dbf)) = Some mf1
    /\ memoFile dbf' = Some mf'
    /\ 8 <= bs
    /\ read_range mf' (n * bs) (Z.to_nat bs)
       = BigEndian.PutUint32 (if text then 1 else 0)
         ++ BigEndian.PutUint32 (uint32 length)
         ++ stored
         ++ repeat Byte.x00 (Z.to_nat (bs - 8) - List.length stored)
    /\ (forall i, ~ (n * bs <= i < n * bs + bs) ->
                  contents mf' i = contents mf1 i)
    /\ len stored <= bs - 8
    /\ BigEndian.Uint32 (read_range mf' (n * bs + 4) 4) = Some (uint32 length)
    /\ (0 <= length < 2 ^ 32 -> uint32 length = length)
    /\ (bs - 8 < length < 2 ^ 32 -> len stored < uint32 length).
Proof.
  intros R E n bs stored.
  apply writeMemo_inv in E; [|exact R].
  destruct E as (mf & block & Em & C & H8 & EB & _ & EH & ->).
  fold bs in H8, EB.
  pose proof (len_memo_block bs raw text length block ltac:(lia) EB) as LB.
  rewrite memo_block_layout in EB by exact H8. apply Some_eq in EB.
  assert (LS : len stored <= bs - 8).
  { unfold stored, len. rewrite length_firstn. lia. }
  assert (CP : copy (make (bs - 8)) raw
               = stored ++ repeat Byte.x00 (Z.to_nat (bs - 8) - List.length stored)).
  { unfold copy, stored. rewrite length_make. f_equal.
    unfold make. rewrite skipn_repeat_x00. f_equal.
    rewrite length_firstn. lia. }
  assert (US : forall v, 0 <= v < 2 ^ 32 -> uint32 v = v).
  { intros v Hv. apply uint32_small. exact Hv. }
  rewrite EH. cbn [snd].
  eexists. eexists. split; [reflexivity|]. split; [reflexivity|].
  split; [exact H8|].
  split; [|split; [|split; [exact LS|split; [|split]]]].
  - replace (n * bs) with (n * bs + Z.of_nat 0) by lia.
    fold n bs. rewrite read_range_store by (unfold len in LB; lia).
    rewrite skipn_O, firstn_all2 by (unfold len in LB; lia).
    rewrite <- EB, CP. reflexivity.
  - intros i Hi. fold n bs.
    rewrite contents_store_outside by (rewrite LB; exact Hi). reflexivity.
  - replace (n * bs + 4) with (n * bs + Z.of_nat 4) by lia.
    fold n bs. rewrite read_range_store by (unfold len in LB; lia).
    rewrite <- EB, block_length_field by reflexivity.
    rewrite BigEndian_Uint32_Put. f_equal. unfold uint32.
    apply Z.mod_mod. lia.
  - exact (US length).
  - intros HL. rewrite US by lia. lia.
Qed.

(** C10 (as the specification words it) fails for a length argument that
    does not fit in 32 bits: with [length = 2^32] the length field of the
    block holds 0. *)
Lemma writeMemo_length_field_wraps :
  ~ (forall raw text length dbf addr dbf' mf',
       memoHeader_in_range (memoHeader dbf) ->
       writeMemo raw text length dbf = (Ok addr, dbf') ->
       memoFile dbf' = Some mf' ->
       BigEndian.Uint32
         (read_range mf'
            (NextFree (memoHeader dbf) * BlockSize (memoHeader dbf) + 4) 4)
       = Some length).
Proof.
  intros H.
  specialize (H [] true (2 ^ 32) (sample_memo_table default_config 1)).
  specialize (H _ _ _ ltac:(vm_compute; intuition discriminate)
                eq_refl eq_refl).
  vm_compute in H. discriminate H.
Qed.

Lemma writeMemo_block_witness :
  exists mf',
    memoFile (snd (writeMemo ["h"; "i"]%byte true 2
                     (sample_memo_table default_config 1))) = Some mf'
    /\ read_range mf' 16 16
       = ["000"; "000"; "000"; "001"; "000"; "000"; "000"; "002"; "h"; "i";
          "000"; "000"; "000"; "000"; "000"; "000"]%byte.
Proof.
  destruct (writeMemo_block ["h"; "i"]%byte true 2
              (sample_memo_table default_config 1)
              (snd (writeMemo ["h"; "i"]%byte true 2
                      (sample_memo_table default_config 1)))
              (LittleEndian.PutUint32 1)
              ltac:(vm_compute; intuition discriminate) eq_refl)
    as (mf1 & mf' & _ & E & _ & B & _).
  exists mf'. split; [exact E|exact B].
Defined.

(** C5 (as the code has it). With [WriteLock] off, on a memo file that
    answers every system call, with blocks of [BlockSize >= |p| + 8] bytes
    and [NextFree = n] below [2^32 - 1], [writeMemo p t |p|] returns the
    little-endian reference to block [n] and leaves [NextFree = n + 1];
    [readMemo] on that reference then returns [p] and [t]. *)
Theorem writeMemo_readMemo (p : list byte) (t : bool) (dbf : DBF) :
  memoHeader_in_range (memoHeader dbf) ->
  healthy (memoFile dbf) ->
  WriteLock (config dbf) = false ->
  len p <= BlockSize (memoHeader dbf) - 8 ->
  NextFree (memoHeader dbf) + 1 < 2 ^ 32 ->
  let n := NextFree (memoHeader dbf) in
  exists dbf' dbf'',
    writeMemo p t (len p) dbf = (Ok (LittleEndian.PutUint32 n), dbf')
    /\ LittleEndian.Uint32 (LittleEndian.PutUint32 n) = Some n
    /\ NextFree (memoHeader dbf') = n + 1
    /\ readMemo (LittleEndian.PutUint32 n) dbf' = (Ok (p, t), dbf'').
Proof.
  intros R HM HL Hp HN n.
  destruct (healthy_inv _ HM) as (mf & Em & C & F).
  pose proof (len_nonneg p) as P0.
  assert (H8 : 8 <= BlockSize (memoHeader dbf)) by lia.
  destruct (writeMemo_ok p t (len p) dbf mf R Em C F HL H8) as (block & EB & EW).
  pose proof (len_memo_block (BlockSize (memoHeader dbf)) p t (len p) block
                ltac:(lia) EB) as LB.
  rewrite memo_block_layout in EB by exact H8. apply Some_eq in EB.
  change (2 ^ 32) with 4294967296 in HN.
  pose proof R as (RN & RB).
  pose proof (is_uint32_bounds _ RN) as RN'.
  pose proof (is_uint16_bounds _ RB) as RB'.
  assert (UP : is_uint32 (len p)) by (unfold is_uint32; lia).
  assert (CP : copy (make (BlockSize (memoHeader dbf) - 8)) p
               = p ++ skipn (List.length p)
                        (make (BlockSize (memoHeader dbf) - 8))).
  { apply copy_short. rewrite length_make. unfold len in Hp. lia. }
  rewrite (uint32_small _ UP), CP in EB.
  destruct (after_memo_write_block dbf mf block 0 8
              ltac:(unfold len in LB; lia))
    as (mf' & Em' & C' & F' & Sz & R8).
  destruct (after_memo_write_block dbf mf block 8 (List.length p)
              ltac:(unfold len in LB, Hp; lia))
    as (mf'' & Em'' & _ & _ & _ & RP).
  rewrite Em' in Em''. injection Em'' as <-.
  assert (RD : exists dbf'',
    readMemo (LittleEndian.PutUint32 n) (after_memo_write dbf mf block)
    = (Ok (p, (if t then 1 else 0) =? 1), dbf'')).
  { apply (readMemo_reads_block _ mf').
    - exact Em'.
    - rewrite C'. exact C.
    - intros op o. rewrite F'. apply F.
    - split; [|exact RB]. cbn. unfold is_uint32, uint32.
      apply Z.mod_pos_bound. lia.
    - exact RN.
    - destruct t; unfold is_uint32; lia.
    - exact UP.
    - cbn [after_memo_write memoHeader BlockSize]. fold n. fold n in Sz. lia.
    - cbn [after_memo_write memoHeader BlockSize]. fold n.
      replace (n * BlockSize (memoHeader dbf))
        with (n * BlockSize (memoHeader dbf) + Z.of_nat 0) by lia.
      fold n in R8. rewrite R8, <- EB. rewrite skipn_O.
      apply block_header; reflexivity.
    - cbn [after_memo_write memoHeader BlockSize]. fold n.
      fold n in RP. change (Z.of_nat 8) with 8 in RP. rewrite RP, <- EB.
      rewrite block_payload by reflexivity.
      rewrite firstn_app, firstn_all, Nat.sub_diag. apply app_nil_r. }
  destruct RD as (dbf'' & RD).
  exists (after_memo_write dbf mf block), dbf''.
  split; [exact EW|].
  split; [rewrite LittleEndian_Uint32_Put; f_equal; apply uint32_small; exact RN|].
  split.
  - cbn. fold n. apply uint32_small. unfold is_uint32. lia.
  - rewrite RD. destruct t; reflexivity.
Qed.

(** C5 (as the specification words it) fails at the last value of the
    counter: from [NextFree = 2^32 - 1] the increment wraps to 0. *)
Lemma writeMemo_NextFree_wraps :
  ~ (forall p t dbf,
       memoHeader_in_range (memoHeader dbf) ->
       healthy (memoFile dbf) ->
       WriteLock (config dbf) = false ->
       len p <= BlockSize (memoHeader dbf) - 8 ->
       exists addr dbf',
         writeMemo p t (len p) dbf = (Ok addr, dbf')
         /\ NextFree (memoHeader dbf') = NextFree (memoHeader dbf) + 1).
Proof.
  intros H.
  destruct (H [] false (sample_memo_table default_config 4294967295))
    as (addr & dbf' & E & N).
  - vm_compute. intuition discriminate.
  - eexists. repeat split; intros; reflexivity.
  - reflexivity.
  - vm_compute. discriminate.
  - apply writeMemo_NextFree in E; [|vm_compute; intuition discriminate].
    rewrite E in N. vm_compute in N. discriminate N.
Qed.

Lemma writeMemo_readMemo_witness :
  exists dbf' dbf'',
    writeMemo ["h"; "e"; "l"; "l"; "o"]%byte true 5
      (sample_memo_table default_config 1)
    = (Ok ["001"; "000"; "000"; "000"]%byte, dbf')
    /\ NextFree (memoHeader dbf') = 2
    /\ readMemo ["001"; "000"; "000"; "000"]%byte dbf'
       = (Ok (["h"; "e"; "l"; "l"; "o"]%byte, true), dbf'').
Proof.
  destruct (writeMemo_readMemo ["h"; "e"; "l"; "l"; "o"]%byte true
              (sample_memo_table default_config 1))
    as (dbf' & dbf'' & W & _ & N & R).
  - vm_compute. intuition discriminate.
  - eexists. repeat split; intros; reflexivity.
  - reflexivity.
  - vm_compute. discriminate.
  - reflexivity.
  - exists dbf', dbf''. repeat split; [exact W|exact N|exact R].
Defined.

(* ----------------------------------------------------------------- *)
(** ** Table file: writeHeader, writeRow *)

Lemma uint32_range (v : Z) : 0 <= uint32 v < 4294967296.
Proof. unfold uint32. apply Z.mod_pos_bound. reflexivity. Qed.

Section Rows.

Variable now : Z * Z * Z.
Variable Header_bytes : Header -> list byte.
Variable ToBytes : Row -> DBF -> (list byte + error) * (handle * MemoHeader).

Lemma writeHeader_ok (dbf : DBF) (f : File) :
  WriteLock (config dbf) = false ->
  dbaseFile dbf = Some f -> is_closed f = false ->
  (forall op off, fault f op off = false) ->
  writeHeader now Header_bytes dbf
  = (None, after_header_write now Header_bytes dbf f).
Proof.
  intros W Ed C F.
  assert (B : writeHeader_body now Header_bytes dbf
              = (None, after_header_write now Header_bytes dbf f)).
  { unfold writeHeader_body, after_header_write, stamped. rewrite Ed.
    rewrite Seek_ok by first [exact C | apply F | lia].
    destruct now as [[y m] d].
    cbn [set_dbaseFile set_header dbaseFile header].
    rewrite Write_ok by first [exact C | apply F]. reflexivity. }
  unfold writeHeader. rewrite B, W. reflexivity.
Qed.

Lemma writeRow_position_append (row : Row) (h : Header) :
  header_in_range h ->
  RowPosition row >= RowsCount h ->
  writeRow_position row h
  = FirstRow h + uint32 (RowPosition row - 1) * RowLength h
  /\ 0 <= writeRow_position row h.
Proof.
  intros (_ & HF & HL) G.
  apply is_uint16_bounds in HF. apply is_uint16_bounds in HL.
  pose proof (uint32_range (RowPosition row - 1)) as U.
  unfold writeRow_position.
  destruct (Z.geb_spec (RowPosition row) (RowsCount h)); [|lia].
  rewrite (int64_small (FirstRow h)), (int64_small (RowLength h)),
    (int64_small (uint32 _)) by lia.
  rewrite (int64_small (_ * _)) by nia.
  rewrite int64_small by nia. split; [reflexivity|nia].
Qed.

(** What a successful append leaves behind. *)
Lemma writeRow_append_ok (row : Row) (dbf : DBF) (f : File)
    (r : list byte) (mf : handle) (mh : MemoHeader) :
  header_in_range (header dbf) ->
  WriteLock (config dbf) = false ->
  dbaseFile dbf = Some f -> is_closed f = false ->
  (forall op off, fault f op off = false) ->
  ToBytes row dbf = (inl r, (mf, mh)) ->
  RowPosition row >= RowsCount (header dbf) ->
  writeRow now Header_bytes ToBytes row dbf
  = (None,
     after_row_write now Header_bytes
       (set_header (set_memoHeader (set_memoFile dbf mf) mh)
          (set_RowsCount (header dbf) (uint32 (RowsCount (header dbf) + 1))))
       f
       (FirstRow (header dbf)
        + uint32 (RowPosition row - 1) * RowLength (header dbf))
       r).
Proof.
  intros R W Ed C F ET G.
  destruct (writeRow_position_append row (header dbf) R G) as (EP & P0).
  unfold writeRow. rewrite ET.
  cbn [set_memoHeader set_memoFile header].
  destruct (Z.geb_spec (RowPosition row) (RowsCount (header dbf))); [|lia].
  rewrite (writeHeader_ok _ f) by first [exact W | exact Ed | exact C | exact F].
  rewrite EP in *.
  unfold after_header_write.
  cbn [config dbaseFile set_header].
  assert (B : forall d,
    dbaseFile d = Some (store (set_cursor f 0) 0
                          (Header_bytes
                             (stamped now
                                (set_RowsCount (header dbf)
                                   (uint32 (RowsCount (header dbf) + 1)))))) ->
    writeRow_body
      (FirstRow (header dbf)
       + uint32 (RowPosition row - 1) * RowLength (header dbf)) r d
    = (None,
       set_dbaseFile d
         (Some (store
                  (set_cursor
                     (store (set_cursor f 0) 0
                        (Header_bytes
                           (stamped now
                              (set_RowsCount (header dbf)
                                 (uint32 (RowsCount (header dbf) + 1))))))
                     (FirstRow (header dbf)
                      + uint32 (RowPosition row - 1) * RowLength (header dbf)))
                  (FirstRow (header dbf)
                   + uint32 (RowPosition row - 1) * RowLength (header dbf))
                  r)))).
  { intros d Hd. unfold writeRow_body. rewrite Hd.
    rewrite Seek_ok by first [exact C | apply F | exact P0].
    cbn [set_dbaseFile dbaseFile].
    rewrite Write_ok by first [exact C | apply F]. reflexivity. }
  rewrite B by reflexivity.
  change (config (set_memoHeader (set_memoFile dbf mf) mh))
    with (config dbf).
  rewrite W. reflexivity.
Qed.

(** C3 (as the code has it). With [WriteLock] off, on a table file that
    answers every system call, with [RowsCount = k] below [2^32 - 1],
    writing a row whose position is [>= k] succeeds, raises [RowsCount] to
    [k + 1] and stores the row bytes at offset
    [FirstRow + ((Position - 1) mod 2^32) * RowLength], changing nothing
    else after the header update. That offset is the previous end of data,
    [FirstRow + k * RowLength], when [Position = k + 1]. *)
Theorem writeRow_append (row : Row) (dbf : DBF) (r : list byte)
    (mf : handle) (mh : MemoHeader) :
  header_in_range (header dbf) ->
  WriteLock (config dbf) = false ->
  healthy (dbaseFile dbf) ->
  ToBytes row dbf = (inl r, (mf, mh)) ->
  RowPosition row >= RowsCount (header dbf) ->
  RowsCount (header dbf) + 1 < 2 ^ 32 ->
  let k := RowsCount (header dbf) in
  let pos := FirstRow (header dbf)
             + uint32 (RowPosition row - 1) * RowLength (header dbf) in
  exists dbf' f1 f',
    writeRow now Header_bytes ToBytes row dbf = (None, dbf')
    /\ RowsCount (header dbf') = k + 1
    /\ dbaseFile
         (snd (writeHeader now Header_bytes
                 (set_header (set_memoHeader (set_memoFile dbf mf) mh)
                    (set_RowsCount (header dbf) (uint32 (k + 1))))))
       = Some f1
    /\ dbaseFile dbf' = Some f'
    /\ read_range f' pos (List.length r) = r
    /\ (forall i, ~ (pos <= i < pos + len r) -> contents f' i = contents f1 i)
    /\ (RowPosition row = k + 1 ->
        pos = FirstRow (header dbf) + k * RowLength (header dbf)).
Proof.
  intros R W HD ET G HK k pos.
  destruct (healthy_inv _ HD) as (f & Ed & C & F).
  pose proof R as (RC & _). apply is_uint32_bounds in RC.
  change (2 ^ 32) with 4294967296 in HK.
  rewrite (writeRow_append_ok row dbf f r mf mh R W Ed C F ET G).
  rewrite (writeHeader_ok _ f) by first [exact W | exact Ed | exact C | exact F].
  eexists. eexists. eexists.
  split; [reflexivity|].
  split.
  { unfold after_row_write, stamped. cbn [header set_header].
    destruct now as [[y m] d]. cbn. apply uint32_small.
    unfold is_uint32. fold k. lia. }
  split; [reflexivity|]. split; [reflexivity|].
  split.
  { apply read_range_store_all. }
  split.
  { intros i Hi.
    etransitivity; [apply contents_store_outside; exact Hi|reflexivity]. }
  intros EP. unfold pos. rewrite EP.
  replace (k + 1 - 1) with k by lia.
  rewrite uint32_small by (unfold is_uint32; fold k; lia). reflexivity.
Qed.

End Rows.

(** C3 (as the specification words it) fails for a row whose position equals
    [RowsCount]: on a table of one row, writing a row at position 1 stores
    it over row 0, and the slot at the previous end of data keeps its old
    bytes. *)
Lemma writeRow_at_RowsCount_overwrites :
  ~ (forall row dbf r mf mh,
       header_in_range (header dbf) ->
       WriteLock (config dbf) = false ->
       healthy (dbaseFile dbf) ->
       sample_ToBytes row dbf = (inl r, (mf, mh)) ->
       RowPosition row = RowsCount (header dbf) ->
       exists dbf' f',
         writeRow sample_now sample_Header_bytes sample_ToBytes row dbf
         = (None, dbf')
         /\ RowsCount (header dbf') = RowsCount (header dbf) + 1
         /\ dbaseFile dbf' = Some f'
         /\ read_range f'
              (FirstRow (header dbf)
               + RowsCount (header dbf) * RowLength (header dbf))
              (List.length r) = r).
Proof.
  intros H.
  destruct (H (sample_row 1 ["n"; "e"; "w"]%byte) (sample_table 1 0)
              [" "; "n"; "e"; "w"]%byte None (mkMemoHeader 0 0))
    as (dbf' & f' & E & _ & Ef & Rd).
  - vm_compute. intuition discriminate.
  - reflexivity.
  - eexists. repeat split; intros; reflexivity.
  - reflexivity.
  - reflexivity.
  - vm_compute in E. injection E as <-.
    cbn [dbaseFile] in Ef. injection Ef as <-.
    vm_compute in Rd. discriminate Rd.
Qed.

Lemma writeRow_append_witness :
  exists dbf' f',
    writeRow sample_now sample_Header_bytes sample_ToBytes
      (sample_row 2 ["n"; "e"; "w"]%byte) (sample_table 1 0) = (None, dbf')
    /\ RowsCount (header dbf') = 2
    /\ dbaseFile dbf' = Some f'
    /\ read_range f' 12 4 = [" "; "n"; "e"; "w"]%byte.
Proof.
  destruct (writeRow_append sample_now sample_Header_bytes sample_ToBytes
              (sample_row 2 ["n"; "e"; "w"]%byte) (sample_table 1 0)
              [" "; "n"; "e"; "w"]%byte None (mkMemoHeader 0 0))
    as (dbf' & f1 & f' & E & N & _ & Ef & Rd & _).
  - vm_compute. intuition discriminate.
  - reflexivity.
  - eexists. repeat split; intros; reflexivity.
  - reflexivity.
  - vm_compute. discriminate.
  - reflexivity.
  - exists dbf', f'. repeat split; [exact E|exact N|exact Ef|exact Rd].
Defined.

(* ----------------------------------------------------------------- *)
(** ** Search *)

(** Seeking to [off] and reading [n] bytes, against [slot]. *)
Lemma slot_seek_read (f : File) (c off n : Z) :
  0 <= off -> 0 <= n ->
  exists c',
    match Seek (Some (set_cursor f c)) off with
    | (Some _, h) => slot f off n = None /\ h = Some (set_cursor f c')
    | (None, h) =>
        match Read h n with
        | (d, Some _, h') => slot f off n = None /\ h' = Some (set_cursor f c')
        | (d, None, h') =>
            h' = Some (set_cursor f c')
            /\ (if len d =? n then slot f off n = Some d
                else slot f off n = None)
        end
    end.
Proof.
  intros Hoff Hn. unfold Seek, slot, is_closed.
  cbn [closes set_cursor fault size cursor].
  destruct (Nat.eqb (closes f) 0) eqn:C; cbn [negb orb];
    [|exists c; split; reflexivity].
  destruct (Z.ltb_spec off 0); [lia|].
  destruct (fault f OpSeek off) eqn:FS; [exists c; split; reflexivity|].
  unfold Read, is_closed. cbn [closes set_cursor fault size cursor].
  rewrite C. cbn [negb].
  destruct (Z.leb_spec n 0).
  - exists off. split; [reflexivity|].
    assert (n = 0) by lia. subst n. reflexivity.
  - destruct (fault f OpRead off) eqn:FR; cbn [orb];
      [exists off; split; reflexivity|].
    destruct (Z.leb_spec (size f) off).
    + exists off. split; [|reflexivity].
      destruct (Z.ltb_spec (size f) (off + n)); [reflexivity|lia].
    + exists (off + Z.min n (size f - off)). split; [reflexivity|].
      rewrite len_read_range, Z2Nat.id by lia.
      destruct (Z.eqb_spec (Z.min n (size f - off)) n) as [E|E].
      * destruct (Z.ltb_spec (size f) (off + n)); [lia|].
        rewrite E. reflexivity.
      * destruct (Z.ltb_spec (size f) (off + n)); [reflexivity|lia].
Qed.

Lemma GoTo_in_range (n : Z) (dbf : DBF) :
  n <= RowsCount (header dbf) -> GoTo n dbf = (None, set_rowPointer dbf n).
Proof.
  intros H. unfold GoTo.
  destruct (Z.gtb_spec n (RowsCount (header dbf))); [lia|reflexivity].
Qed.

Lemma row_offset_range (h : Header) (i : Z) :
  header_in_range h -> 0 <= i <= RowsCount h ->
  0 <= row_offset h i < 281479271743488.
Proof.
  intros (RC & RF & RL) Hi.
  apply is_uint32_bounds in RC. apply is_uint16_bounds in RF.
  apply is_uint16_bounds in RL. unfold row_offset. nia.
Qed.

Lemma readRow_slot (dbf : DBF) (f : File) (c i : Z) :
  header_in_range (header dbf) ->
  dbaseFile dbf = Some (set_cursor f c) ->
  0 <= i < RowsCount (header dbf) ->
  exists c',
    snd (readRow i dbf) = set_dbaseFile dbf (Some (set_cursor f c'))
    /\ match slot f (row_offset (header dbf) i) (RowLength (header dbf)) with
       | Some data => fst (readRow i dbf) = Ok data
       | None => exists b e, fst (readRow i dbf) = ErrWith b e
       end.
Proof.
  intros R Ed Hi.
  pose proof (row_offset_range (header dbf) i R ltac:(lia)) as RO.
  pose proof R as (RC & RF & RL).
  apply is_uint32_bounds in RC. apply is_uint16_bounds in RF.
  apply is_uint16_bounds in RL.
  assert (O : int64 (int64 (FirstRow (header dbf))
                     + int64 (int64 i * int64 (RowLength (header dbf))))
              = row_offset (header dbf) i).
  { unfold row_offset in *.
    rewrite (int64_small (FirstRow _)), (int64_small i),
      (int64_small (RowLength _)) by lia.
    rewrite (int64_small (_ * _)) by nia. apply int64_small. lia. }
  unfold readRow. rewrite O, Ed.
  destruct (Z.geb_spec i (RowsCount (header dbf))); [lia|].
  destruct (slot_seek_read f c (row_offset (header dbf) i)
              (RowLength (header dbf)) ltac:(lia) ltac:(lia)) as (c' & HS).
  exists c'.
  destruct (Seek _ _) as [[e|] h].
  - destruct HS as (-> & ->). split; [reflexivity|]. eexists. eexists.
    reflexivity.
  - cbn [set_dbaseFile dbaseFile].
    destruct (Read h _) as [[d [e|]] h'].
    + destruct HS as (-> & ->). split; [reflexivity|]. eexists. eexists.
      reflexivity.
    + destruct HS as (-> & HS). cbn [header set_dbaseFile].
      destruct (Z.eqb_spec (len d) (RowLength (header dbf))) as [E|E];
        rewrite HS; cbn [negb fst snd]; (split; [reflexivity|]).
      * f_equal. apply copy_exact. rewrite length_make. unfold len in E. lia.
      * eexists. eexists. reflexivity.
Qed.


Section Scan.

Variable BytesToRow :
  list byte -> Z -> handle -> MemoHeader -> (Row + error) * handle.
Variable valueToByteRepresentation2 : Field -> bool -> list byte + error.






Lemma Search_loop_no_file (field : Field) (val : list byte) (fuel : nat) :
  forall i pos rows dbf,
    dbaseFile dbf = None ->
    Search_loop BytesToRow fuel field val i pos rows dbf = (rows, dbf).
Proof.
  induction fuel as [|fuel IH]; intros i pos rows dbf Ed; [reflexivity|].
  cbn [Search_loop].
  destruct (i <? RowsCount (header dbf)); [|reflexivity].
  unfold Search_step. rewrite Ed. cbn [Seek].
  rewrite IH by reflexivity.
  destruct dbf. cbn in Ed. subst. reflexivity.
Qed.



End Scan.



(* ================================================================= *)
(** * Further properties of the engine *)

(** ** Reading rows *)

Lemma set_cursor_self (f : File) : set_cursor f (cursor f) = f.
Proof. destruct f. reflexivity. Qed.

Lemma row_offset_int64 (h : Header) (i : Z) :
  header_in_range h -> 0 <= i <= RowsCount h ->
  int64 (int64 (FirstRow h) + int64 (int64 i * int64 (RowLength h)))
  = row_offset h i.
Proof.
  intros R Hi. pose proof (row_offset_range h i R Hi) as RO.
  destruct R as (RC & RF & RL).
  apply is_uint32_bounds in RC. apply is_uint16_bounds in RF.
  apply is_uint16_bounds in RL. unfold row_offset in *.
  rewrite (int64_small (FirstRow _)), (int64_small i),
    (int64_small (RowLength _)) by lia.
  rewrite (int64_small (_ * _)) by nia. apply int64_small. lia.
Qed.

Lemma copy_nil (dst : list byte) : copy dst [] = dst.
Proof. unfold copy. rewrite firstn_nil. reflexivity. Qed.

(** X1. [readRow n] fails with ErrEOF, leaving the handle as it was, when
    [n >= RowsCount]. Otherwise, on a table file that answers every system
    call, it returns the [RowLength] bytes at offset
    [FirstRow + n * RowLength] when the file holds them all; when the file
    ends inside the row it returns ErrIncomplete together with the bytes
    that are there, zero-filled to [RowLength]; when the file ends at or
    before the row it returns the read error [io.EOF]. *)
Theorem readRow_spec (n : Z) (dbf : DBF) :
  (n >= RowsCount (header dbf) ->
     readRow n dbf = (Err (newError "dbase-io-readrow-1" ErrEOF), dbf))
  /\ (forall f,
        header_in_range (header dbf) ->
        dbaseFile dbf = Some f -> is_closed f = false ->
        (forall op o, fault f op o = false) ->
        0 <= n < RowsCount (header dbf) ->
        let off := row_offset (header dbf) n in
        let L := RowLength (header dbf) in
        (off + L <= size f ->
           fst (readRow n dbf) = Ok (read_range f off (Z.to_nat L)))
        /\ (off < size f < off + L ->
              fst (readRow n dbf)
              = ErrWith (read_range f off (Z.to_nat (size f - off))
                         ++ repeat Byte.x00 (Z.to_nat (off + L - size f)))
                        (newError "dbase-io-readrow-4" ErrIncomplete))
        /\ (size f <= off -> 0 < L ->
              fst (readRow n dbf)
              = ErrWith (make L) (newError "dbase-io-readrow-3" io_EOF))).
Proof.
  split.
  - intros G. unfold readRow.
    destruct (Z.geb_spec n (RowsCount (header dbf))); [reflexivity|lia].
  - intros f R Ed C F Hn off L.
    pose proof (row_offset_range (header dbf) n R ltac:(lia)) as RO.
    pose proof R as (_ & _ & RL). apply is_uint16_bounds in RL.
    fold L in RL. fold off in RO.
    assert (E : readRow n dbf
                = (let '(d, err, df) := Read (Some (set_cursor f off)) L in
                   match err with
                   | Some e =>
                       (ErrWith (copy (make L) d)
                          (newError "dbase-io-readrow-3" e),
                        set_dbaseFile (set_dbaseFile dbf (Some (set_cursor f off))) df)
                   | None =>
                       if negb (len d =? L)
                       then (ErrWith (copy (make L) d)
                               (newError "dbase-io-readrow-4" ErrIncomplete),
                             set_dbaseFile (set_dbaseFile dbf (Some (set_cursor f off))) df)
                       else (Ok (copy (make L) d),
                             set_dbaseFile (set_dbaseFile dbf (Some (set_cursor f off))) df)
                   end)).
    { unfold readRow.
      destruct (Z.geb_spec n (RowsCount (header dbf))); [lia|].
      rewrite row_offset_int64 by (try exact R; lia). fold off.
      rewrite Ed, Seek_ok by first [exact C | apply F | lia].
      reflexivity. }
    rewrite E. clear E. unfold Read.
    change (is_closed (set_cursor f off)) with (is_closed f).
    cbn [set_cursor fault size cursor]. rewrite C, F.
    split; [|split].
    + intros HS. destruct (Z.leb_spec L 0).
      * assert (L = 0) by lia.
        replace (len (@nil byte) =? L) with true
          by (symmetry; apply Z.eqb_eq; unfold len; simpl; lia).
        cbn [negb fst]. rewrite copy_nil.
        replace L with 0 by lia. reflexivity.
      * destruct (Z.leb_spec (size f) off); [lia|].
        rewrite Z.min_l by lia. rewrite len_read_range, Z2Nat.id by lia.
        rewrite Z.eqb_refl. cbn [negb fst]. f_equal.
        rewrite read_range_set_cursor. apply copy_exact.
        rewrite length_make. unfold read_range.
        rewrite length_map, length_seq. reflexivity.
    + intros HS. destruct (Z.leb_spec L 0); [lia|].
      destruct (Z.leb_spec (size f) off); [lia|].
      rewrite Z.min_r by lia. rewrite len_read_range, Z2Nat.id by lia.
      destruct (Z.eqb_spec (size f - off) L); [lia|].
      cbn [negb fst]. f_equal. rewrite read_range_set_cursor.
      rewrite copy_short
        by (rewrite length_make; unfold read_range;
            rewrite length_map, length_seq; lia).
      f_equal. unfold make. rewrite skipn_repeat_x00. f_equal.
      unfold read_range. rewrite length_map, length_seq. lia.
    + intros HS HL. destruct (Z.leb_spec L 0); [lia|].
      destruct (Z.leb_spec (size f) off); [|lia].
      cbn [fst]. rewrite copy_nil. reflexivity.
Qed.

Lemma readRow_spec_witness :
  fst (readRow 1 (sample_table 2 0)) = Ok [" "; "x"; "b"; "z"]%byte.
Proof.
  refine (proj1 (proj2 (readRow_spec 1 (sample_table 2 0)) _
                   ltac:(vm_compute; intuition discriminate) eq_refl eq_refl
                   ltac:(intros; reflexivity) ltac:(vm_compute; intuition discriminate))
                ltac:(vm_compute; discriminate)).
Defined.

(* ----------------------------------------------------------------- *)
(** ** Writing rows and reading them back *)

Lemma slot_healthy (f : File) (off n : Z) :
  is_closed f = false -> (forall op o, fault f op o = false) ->
  off + n <= size f ->
  slot f off n = Some (read_range f off (Z.to_nat n)).
Proof.
  intros C F S. unfold slot. rewrite C, !F. cbn [orb].
  destruct (Z.leb_spec n 0).
  - replace (Z.to_nat n) with 0%nat by lia. reflexivity.
  - destruct (Z.ltb_spec (size f) (off + n)); [lia|reflexivity].
Qed.

Lemma readRow_full (dbf : DBF) (f : File) (i : Z) :
  header_in_range (header dbf) ->
  dbaseFile dbf = Some f -> is_closed f = false ->
  (forall op o, fault f op o = false) ->
  0 <= i < RowsCount (header dbf) ->
  row_offset (header dbf) i + RowLength (header dbf) <= size f ->
  fst (readRow i dbf)
  = Ok (read_range f (row_offset (header dbf) i)
          (Z.to_nat (RowLength (header dbf)))).
Proof.
  intros R Ed C F Hi S.
  rewrite <- (set_cursor_self f) in Ed.
  destruct (readRow_slot dbf f (cursor f) i R Ed Hi) as (c' & _ & H).
  rewrite slot_healthy in H by assumption. exact H.
Qed.

Section MoreRows.

Variable now : Z * Z * Z.
Variable Header_bytes : Header -> list byte.
Variable ToBytes : Row -> DBF -> (list byte + error) * (handle * MemoHeader).

Lemma stamped_fields (h : Header) :
  RowsCount (stamped now h) = RowsCount h
  /\ FirstRow (stamped now h) = FirstRow h
  /\ RowLength (stamped now h) = RowLength h.
Proof. unfold stamped. destruct now as [[y m] d]. repeat split. Qed.

Lemma header_in_range_stamped (h : Header) :
  header_in_range h -> header_in_range (stamped now h).
Proof.
  unfold header_in_range. destruct (stamped_fields h) as (-> & -> & ->).
  exact (fun H => H).
Qed.

Lemma row_offset_stamped (h : Header) (i : Z) :
  row_offset (stamped now h) i = row_offset h i.
Proof.
  unfold row_offset. destruct (stamped_fields h) as (_ & -> & ->).
  reflexivity.
Qed.

(** Reading back the row that [writeRow] has just stored. *)
Lemma readRow_after_row_write (dbf : DBF) (f : File) (i : Z) (r : list byte) :
  header_in_range (header dbf) ->
  is_closed f = false -> (forall op o, fault f op o = false) ->
  0 <= i < RowsCount (header dbf) ->
  len r = RowLength (header dbf) ->
  fst (readRow i
         (after_row_write now Header_bytes dbf f (row_offset (header dbf) i) r))
  = Ok r.
Proof.
  intros R C F Hi Lr.
  pose proof (row_offset_range (header dbf) i R ltac:(lia)) as RO.
  destruct (stamped_fields (header dbf)) as (SC & SF & SL).
  erewrite readRow_full.
  - cbn [after_row_write header]. rewrite row_offset_stamped, SL, <- Lr.
    unfold len. rewrite Nat2Z.id. f_equal. apply read_range_store_all.
  - cbn [after_row_write header]. apply header_in_range_stamped. exact R.
  - reflexivity.
  - exact C.
  - exact F.
  - cbn [after_row_write header]. rewrite SC. exact Hi.
  - cbn [after_row_write header size store].
    rewrite row_offset_stamped, SL, <- Lr. lia.
Qed.

Lemma writeRow_overwrite_ok (row : Row) (dbf : DBF) (f : File)
    (r : list byte) (mf : handle) (mh : MemoHeader) :
  header_in_range (header dbf) ->
  WriteLock (config dbf) = false ->
  dbaseFile dbf = Some f -> is_closed f = false ->
  (forall op off, fault f op off = false) ->
  ToBytes row dbf = (inl r, (mf, mh)) ->
  0 <= RowPosition row < RowsCount (header dbf) ->
  writeRow now Header_bytes ToBytes row dbf
  = (None,
     after_row_write now Header_bytes
       (set_memoHeader (set_memoFile dbf mf) mh) f
       (row_offset (header dbf) (RowPosition row)) r).
Proof.
  intros R W Ed C F ET G.
  pose proof (row_offset_range (header dbf) (RowPosition row) R ltac:(lia))
    as RO.
  unfold writeRow. rewrite ET.
  cbn [set_memoHeader set_memoFile header].
  assert (EP : writeRow_position row (header dbf)
               = row_offset (header dbf) (RowPosition row)).
  { unfold writeRow_position.
    destruct (Z.geb_spec (RowPosition row) (RowsCount (header dbf))); [lia|].
    apply row_offset_int64; [exact R|lia]. }
  rewrite EP.
  destruct (Z.geb_spec (RowPosition row) (RowsCount (header dbf))); [lia|].
  rewrite (writeHeader_ok _ _ _ f)
    by first [exact W | exact Ed | exact C | exact F].
  unfold after_header_write.
  cbn [config dbaseFile header].
  assert (B : forall d hb,
    dbaseFile d = Some (store (set_cursor f 0) 0 hb) ->
    writeRow_body (row_offset (header dbf) (RowPosition row)) r d
    = (None,
       set_dbaseFile d
         (Some (store
                  (set_cursor (store (set_cursor f 0) 0 hb)
                     (row_offset (header dbf) (RowPosition row)))
                  (row_offset (header dbf) (RowPosition row)) r)))).
  { intros d hb Hd. unfold writeRow_body. rewrite Hd.
    rewrite Seek_ok by first [exact C | apply F | lia].
    cbn [set_dbaseFile dbaseFile].
    rewrite Write_ok by first [exact C | apply F]. reflexivity. }
  erewrite B by reflexivity.
  change (config (set_memoHeader (set_memoFile dbf mf) mh))
    with (config dbf).
  rewrite W. reflexivity.
Qed.

(** X2. Overwriting in place and reading back. With [WriteLock] off, on
    a table file that answers every system call, writing a row of
    [RowLength] bytes whose position [p] is below [RowsCount] succeeds,
    leaves [RowsCount], [FirstRow] and [RowLength] as they were and stores
    the bytes at [FirstRow + p * RowLength]; [readRow p] then returns
    exactly these bytes. *)
Theorem writeRow_overwrite_readRow (row : Row) (dbf : DBF) (r : list byte)
    (mf : handle) (mh : MemoHeader) :
  header_in_range (header dbf) ->
  WriteLock (config dbf) = false ->
  healthy (dbaseFile dbf) ->
  ToBytes row dbf = (inl r, (mf, mh)) ->
  0 <= RowPosition row < RowsCount (header dbf) ->
  len r = RowLength (header dbf) ->
  exists dbf' f',
    writeRow now Header_bytes ToBytes row dbf = (None, dbf')
    /\ RowsCount (header dbf') = RowsCount (header dbf)
    /\ FirstRow (header dbf') = FirstRow (header dbf)
    /\ RowLength (header dbf') = RowLength (header dbf)
    /\ dbaseFile dbf' = Some f'
    /\ read_range f' (row_offset (header dbf) (RowPosition row))
         (List.length r) = r
    /\ fst (readRow (RowPosition row) dbf') = Ok r.
Proof.
  intros R W HD ET G Lr.
  destruct (healthy_inv _ HD) as (f & Ed & C & F).
  rewrite (writeRow_overwrite_ok row dbf f r mf mh R W Ed C F ET G).
  destruct (stamped_fields (header dbf)) as (SC & SF & SL).
  eexists. eexists. split; [reflexivity|].
  split; [exact SC|]. split; [exact SF|]. split; [exact SL|].
  split; [reflexivity|]. split; [apply read_range_store_all|].
  apply (readRow_after_row_write (set_memoHeader (set_memoFile dbf mf) mh));
    assumption.
Qed.

(** X3. Appending and reading back. With [WriteLock] off and
    [RowsCount = k] below [2^32 - 1], on a table file that answers every
    system call, writing a row of [RowLength] bytes whose position is
    [k + 1] succeeds and makes row [k] readable: [readRow k] on the
    resulting handle returns exactly the bytes written, where before the
    write it failed with ErrEOF. *)
Theorem writeRow_append_readRow (row : Row) (dbf : DBF) (r : list byte)
    (mf : handle) (mh : MemoHeader) :
  header_in_range (header dbf) ->
  WriteLock (config dbf) = false ->
  healthy (dbaseFile dbf) ->
  ToBytes row dbf = (inl r, (mf, mh)) ->
  RowPosition row = RowsCount (header dbf) + 1 ->
  RowsCount (header dbf) + 1 < 2 ^ 32 ->
  len r = RowLength (header dbf) ->
  exists dbf',
    writeRow now Header_bytes ToBytes row dbf = (None, dbf')
    /\ readRow (RowsCount (header dbf)) dbf
       = (Err (newError "dbase-io-readrow-1" ErrEOF), dbf)
    /\ fst (readRow (RowsCount (header dbf)) dbf') = Ok r.
Proof.
  intros R W HD ET EP HK Lr.
  destruct (healthy_inv _ HD) as (f & Ed & C & F).
  pose proof R as (RC & RF & RL). pose proof (is_uint32_bounds _ RC) as RC'.
  change (2 ^ 32) with 4294967296 in HK.
  rewrite (writeRow_append_ok now Header_bytes ToBytes row dbf f r mf mh
             R W Ed C F ET ltac:(lia)).
  eexists. split; [reflexivity|]. split.
  { unfold readRow.
    destruct (Z.geb_spec (RowsCount (header dbf)) (RowsCount (header dbf)));
      [reflexivity|lia]. }
  rewrite EP. replace (RowsCount (header dbf) + 1 - 1)
    with (RowsCount (header dbf)) by lia.
  rewrite (uint32_small (RowsCount (header dbf))) by exact RC.
  rewrite (uint32_small (RowsCount (header dbf) + 1))
    by (unfold is_uint32; lia).
  set (dbf1 := set_header (set_memoHeader (set_memoFile dbf mf) mh)
                 (set_RowsCount (header dbf) (RowsCount (header dbf) + 1))).
  change (FirstRow (header dbf)
          + RowsCount (header dbf) * RowLength (header dbf))
    with (row_offset (header dbf1) (RowsCount (header dbf))).
  apply readRow_after_row_write.
  - split; [unfold is_uint32; cbn; lia|split; assumption].
  - exact C.
  - exact F.
  - cbn. lia.
  - exact Lr.
Qed.

Lemma writeHeader_body_fields (dbf : DBF) :
  RowsCount (header (snd (writeHeader_body now Header_bytes dbf)))
  = RowsCount (header dbf).
Proof.
  unfold writeHeader_body.
  destruct (Seek _ _) as [[e|] df]; [reflexivity|].
  destruct now as [[y m] d].
  cbn [set_dbaseFile set_header dbaseFile header].
  destruct (Write _ _) as [[e|] df']; reflexivity.
Qed.

Lemma writeHeader_fields (dbf : DBF) :
  RowsCount (header (snd (writeHeader now Header_bytes dbf)))
  = RowsCount (header dbf).
Proof.
  unfold writeHeader. pose proof (writeHeader_body_fields dbf) as B.
  destruct (WriteLock (config dbf)); [|exact B].
  destruct (FcntlFlock_lock _ _); [reflexivity|].
  destruct (writeHeader_body now Header_bytes dbf) as [err d].
  destruct (FcntlFlock_unlock _ _); exact B.
Qed.

Lemma writeRow_body_header (position : Z) (r : list byte) (dbf : DBF) :
  header (snd (writeRow_body position r dbf)) = header dbf.
Proof.
  unfold writeRow_body.
  destruct (Seek _ _) as [[e|] df]; [reflexivity|].
  cbn [set_dbaseFile dbaseFile].
  destruct (Write _ _) as [[e|] df']; reflexivity.
Qed.

(** X4. What [writeRow] does to the row count, on every path. When the
    row cannot be encoded the count is left alone. Once it is encoded, a
    row whose position is [>= RowsCount] raises the count by one (modulo
    2^32) whether or not the header and the row are then written: a failed
    append still counts the row. A row below [RowsCount] never changes the
    count. *)
Theorem writeRow_RowsCount (row : Row) (dbf : DBF) :
  RowsCount (header (snd (writeRow now Header_bytes ToBytes row dbf)))
  = match fst (ToBytes row dbf) with
    | inr _ => RowsCount (header dbf)
    | inl _ =>
        if RowPosition row >=? RowsCount (header dbf)
        then uint32 (RowsCount (header dbf) + 1)
        else RowsCount (header dbf)
    end.
Proof.
  unfold writeRow.
  destruct (ToBytes row dbf) as [[r|e] [mf mh]]; [|reflexivity].
  cbn [fst set_memoHeader set_memoFile header].
  match goal with
  | |- context [writeHeader now Header_bytes ?d] =>
      pose proof (writeHeader_fields d) as HW;
      destruct (writeHeader now Header_bytes d) as [[e|] d1]
  end.
  - cbn [snd] in *. rewrite HW.
    destruct (RowPosition row >=? RowsCount (header dbf)); reflexivity.
  - cbn [snd] in HW.
    assert (HB : forall p, RowsCount (header (snd (writeRow_body p r d1)))
                           = RowsCount (header d1))
      by (intros p; rewrite writeRow_body_header; reflexivity).
    assert (G : RowsCount (header d1)
                = if RowPosition row >=? RowsCount (header dbf)
                  then uint32 (RowsCount (header dbf) + 1)
                  else RowsCount (header dbf)).
    { rewrite HW.
      destruct (RowPosition row >=? RowsCount (header dbf)); reflexivity. }
    rewrite <- G.
    destruct (WriteLock (config d1)); [|apply HB].
    destruct (FcntlFlock_lock _ _); [reflexivity|].
    match goal with
    | |- context [writeRow_body ?p r d1] =>
        specialize (HB p); destruct (writeRow_body p r d1) as [err d2]
    end.
    destruct (FcntlFlock_unlock _ _); exact HB.
Qed.

End MoreRows.

Lemma writeRow_overwrite_readRow_witness :
  exists dbf',
    writeRow sample_now sample_Header_bytes sample_ToBytes
      (sample_row 1 ["n"; "e"; "w"]%byte) (sample_table 2 0) = (None, dbf')
    /\ fst (readRow 1 dbf') = Ok [" "; "n"; "e"; "w"]%byte.
Proof.
  destruct (writeRow_overwrite_readRow sample_now sample_Header_bytes
              sample_ToBytes (sample_row 1 ["n"; "e"; "w"]%byte)
              (sample_table 2 0) [" "; "n"; "e"; "w"]%byte None
              (mkMemoHeader 0 0))
    as (dbf' & f' & E & _ & _ & _ & _ & _ & Rd).
  - vm_compute. intuition discriminate.
  - reflexivity.
  - eexists. repeat split; intros; reflexivity.
  - reflexivity.
  - vm_compute. intuition discriminate.
  - reflexivity.
  - exists dbf'. split; [exact E|exact Rd].
Defined.

Lemma writeRow_append_readRow_witness :
  exists dbf',
    writeRow sample_now sample_Header_bytes sample_ToBytes
      (sample_row 3 ["n"; "e"; "w"]%byte) (sample_table 2 0) = (None, dbf')
    /\ fst (readRow 2 dbf') = Ok [" "; "n"; "e"; "w"]%byte.
Proof.
  destruct (writeRow_append_readRow sample_now sample_Header_bytes
              sample_ToBytes (sample_row 3 ["n"; "e"; "w"]%byte)
              (sample_table 2 0) [" "; "n"; "e"; "w"]%byte None
              (mkMemoHeader 0 0))
    as (dbf' & E & _ & Rd).
  - vm_compute. intuition discriminate.
  - reflexivity.
  - eexists. repeat split; intros; reflexivity.
  - reflexivity.
  - reflexivity.
  - vm_compute. reflexivity.
  - reflexivity.
  - exists dbf'. split; [exact E|exact Rd].
Defined.

(* ----------------------------------------------------------------- *)
(** ** The deletion flag *)

Lemma DBF_Deleted_ok (dbf : DBF) (f : File) :
  header_in_range (header dbf) ->
  dbaseFile dbf = Some f -> is_closed f = false ->
  (forall op o, fault f op o = false) ->
  0 <= rowPointer dbf < RowsCount (header dbf) ->
  row_offset (header dbf) (rowPointer dbf) < size f ->
  fst (DBF_Deleted dbf)
  = Ok (Byte.eqb (contents f (row_offset (header dbf) (rowPointer dbf)))
          Deleted).
Proof.
  intros R Ed C F Hp S.
  pose proof (row_offset_range (header dbf) (rowPointer dbf) R ltac:(lia))
    as RO.
  unfold DBF_Deleted.
  destruct (Z.geb_spec (rowPointer dbf) (RowsCount (header dbf))); [lia|].
  rewrite row_offset_int64 by (try exact R; lia).
  rewrite Ed, Seek_ok by first [exact C | apply F | lia].
  cbn [set_dbaseFile dbaseFile].
  rewrite Read_ok by first [exact C | apply F | cbn; lia].
  cbn [cursor set_cursor]. rewrite !read_range_set_cursor.
  change (Z.to_nat 1) with 1%nat. unfold read_range. cbn [seq map].
  rewrite Z.add_0_r. reflexivity.
Qed.

(** X5. [Deleted] fails with ErrEOF, leaving the handle as it was, when
    the cursor is at or past [RowsCount]. Otherwise, on a table file that
    answers every system call and reaches the row, it returns whether the
    byte at [FirstRow + cursor * RowLength] is the deletion marker; when the
    file ends before the row it fails with the read error [io.EOF]. *)
Theorem DBF_Deleted_spec (dbf : DBF) :
  (rowPointer dbf >= RowsCount (header dbf) ->
     DBF_Deleted dbf = (Err (newError "dbase-io-deleted-1" ErrEOF), dbf))
  /\ (forall f,
        header_in_range (header dbf) ->
        dbaseFile dbf = Some f -> is_closed f = false ->
        (forall op o, fault f op o = false) ->
        0 <= rowPointer dbf < RowsCount (header dbf) ->
        let off := row_offset (header dbf) (rowPointer dbf) in
        (off < size f ->
           fst (DBF_Deleted dbf) = Ok (Byte.eqb (contents f off) Deleted))
        /\ (size f <= off ->
              fst (DBF_Deleted dbf)
              = Err (newError "dbase-io-deleted-3" io_EOF))).
Proof.
  split.
  - intros G. unfold DBF_Deleted.
    destruct (Z.geb_spec (rowPointer dbf) (RowsCount (header dbf)));
      [reflexivity|lia].
  - intros f R Ed C F Hp off. split.
    + intros S. apply DBF_Deleted_ok; assumption.
    + intros S.
      pose proof (row_offset_range (header dbf) (rowPointer dbf) R ltac:(lia))
        as RO.
      unfold DBF_Deleted.
      destruct (Z.geb_spec (rowPointer dbf) (RowsCount (header dbf))); [lia|].
      rewrite row_offset_int64 by (try exact R; lia). fold off.
      rewrite Ed, Seek_ok by first [exact C | apply F | lia].
      cbn [set_dbaseFile dbaseFile]. unfold Read.
      change (is_closed (set_cursor f off)) with (is_closed f).
      cbn [set_cursor fault size cursor]. rewrite C, F.
      destruct (Z.leb_spec 1 0); [lia|].
      destruct (Z.leb_spec (size f) off); [reflexivity|lia].
Qed.

Lemma DBF_Deleted_spec_witness :
  fst (DBF_Deleted (sample_deleted_table 1)) = Ok true
  /\ DBF_Deleted (sample_deleted_table 2)
     = (Err (newError "dbase-io-deleted-1" ErrEOF), sample_deleted_table 2).
Proof.
  split.
  - refine (proj1 (proj2 (DBF_Deleted_spec (sample_deleted_table 1)) _
                     ltac:(vm_compute; intuition discriminate) eq_refl eq_refl
                     ltac:(intros; reflexivity)
                     ltac:(vm_compute; intuition discriminate))
                  ltac:(vm_compute; reflexivity)).
  - apply (proj1 (DBF_Deleted_spec (sample_deleted_table 2))).
    vm_compute. discriminate.
Defined.

Lemma contents_store_first (f : File) (c : Z) (b : byte) (r : list byte) :
  contents (store f c (b :: r)) c = b.
Proof.
  replace c with (c + Z.of_nat 0) at 2 by lia.
  rewrite contents_store_inside by (simpl; lia). reflexivity.
Qed.

Section DeletedRows.

Variable now : Z * Z * Z.
Variable Header_bytes : Header -> list byte.
Variable ToBytes : Row -> DBF -> (list byte + error) * (handle * MemoHeader).

(** X6. The deletion marker round trip. With [WriteLock] off, on a table
    file that answers every system call, a row of [RowLength >= 1] bytes
    is written in place at position [p]; moving the cursor to [p] and
    asking [Deleted] then returns whether the first byte written is the
    deletion marker. *)
Theorem writeRow_GoTo_Deleted (row : Row) (dbf : DBF) (b : byte)
    (r : list byte) (mf : handle) (mh : MemoHeader) :
  header_in_range (header dbf) ->
  WriteLock (config dbf) = false ->
  healthy (dbaseFile dbf) ->
  ToBytes row dbf = (inl (b :: r), (mf, mh)) ->
  0 <= RowPosition row < RowsCount (header dbf) ->
  len (b :: r) = RowLength (header dbf) ->
  exists dbf',
    writeRow now Header_bytes ToBytes row dbf = (None, dbf')
    /\ fst (GoTo (RowPosition row) dbf') = None
    /\ fst (DBF_Deleted (snd (GoTo (RowPosition row) dbf')))
       = Ok (Byte.eqb b Deleted).
Proof.
  intros R W HD ET G Lr.
  destruct (healthy_inv _ HD) as (f & Ed & C & F).
  rewrite (writeRow_overwrite_ok now Header_bytes ToBytes row dbf f (b :: r)
             mf mh R W Ed C F ET G).
  destruct (stamped_fields now (header dbf)) as (SC & SF & SL).
  pose proof (row_offset_range (header dbf) (RowPosition row) R ltac:(lia))
    as RO.
  eexists. split; [reflexivity|].
  rewrite GoTo_in_range by (cbn [after_row_write header set_memoHeader set_memoFile]; rewrite SC; lia).
  split; [reflexivity|]. cbn [snd].
  erewrite DBF_Deleted_ok.
  - cbn [set_rowPointer after_row_write header rowPointer set_memoHeader set_memoFile].
    rewrite row_offset_stamped. f_equal. f_equal.
    apply contents_store_first.
  - cbn [set_rowPointer after_row_write header set_memoHeader set_memoFile].
    apply header_in_range_stamped. exact R.
  - reflexivity.
  - exact C.
  - exact F.
  - cbn [set_rowPointer after_row_write header rowPointer set_memoHeader set_memoFile]. rewrite SC. lia.
  - cbn [set_rowPointer after_row_write header rowPointer size store set_memoHeader set_memoFile].
    rewrite row_offset_stamped. unfold len in *. simpl List.length in *. lia.
Qed.

End DeletedRows.

Lemma writeRow_GoTo_Deleted_witness :
  exists dbf',
    writeRow sample_now sample_Header_bytes
      (fun _ d => (inl ["*"; "a"; "b"; "c"]%byte, (memoFile d, memoHeader d)))
      (sample_row 0 []) (sample_table 2 1) = (None, dbf')
    /\ fst (DBF_Deleted (snd (GoTo 0 dbf'))) = Ok true.
Proof.
  destruct (writeRow_GoTo_Deleted sample_now sample_Header_bytes
              (fun _ d => (inl ["*"; "a"; "b"; "c"]%byte,
                           (memoFile d, memoHeader d)))
              (sample_row 0 []) (sample_table 2 1) "*"%byte
              ["a"; "b"; "c"]%byte None (mkMemoHeader 0 0))
    as (dbf' & E & _ & D).
  - vm_compute. intuition discriminate.
  - reflexivity.
  - eexists. repeat split; intros; reflexivity.
  - reflexivity.
  - vm_compute. intuition discriminate.
  - reflexivity.
  - exists dbf'. split; [exact E|exact D].
Defined.

(* ----------------------------------------------------------------- *)
(** ** Closing, and using a closed table *)

(** X7. [Close] is not idempotent. After a [Close] that went through on a
    handle with at least one file, a second [Close] reports an error whose
    cause is the use of a closed file. *)
Theorem Close_twice (dbf : DBF) :
  fst (Close dbf) = None ->
  dbaseFile dbf <> None \/ memoFile dbf <> None ->
  exists e,
    fst (Close (snd (Close dbf))) = Some e /\ is_os_ErrClosed e = true.
Proof.
  destruct dbf as [cfg [df|] [mf|] hd mh rp]; unfold Close, File_Close;
    cbn [dbaseFile memoFile set_dbaseFile set_memoFile fst snd].
  - destruct (is_closed df) eqn:C; [discriminate|].
    destruct (fault df OpClose 0); [discriminate|].
    cbn [dbaseFile memoFile set_dbaseFile set_memoFile fst snd].
    destruct (is_closed mf); [discriminate|].
    destruct (fault mf OpClose 0); [discriminate|].
    intros _ _. eexists. split; reflexivity.
  - destruct (is_closed df) eqn:C; [discriminate|].
    destruct (fault df OpClose 0); [discriminate|].
    intros _ _. eexists. split; reflexivity.
  - destruct (is_closed mf) eqn:C; [discriminate|].
    destruct (fault mf OpClose 0); [discriminate|].
    intros _ _. eexists. split; reflexivity.
  - intros _ [H|H]; contradiction.
Qed.

Lemma Close_twice_witness :
  exists e,
    fst (Close (snd (Close (sample_memo_table default_config 1)))) = Some e
    /\ is_os_ErrClosed e = true.
Proof.
  apply (Close_twice (sample_memo_table default_config 1)).
  - reflexivity.
  - left. discriminate.
Defined.

Section ClosedTable.

Variable BytesToRow :
  list byte -> Z -> handle -> MemoHeader -> (Row + error) * handle.
Variable valueToByteRepresentation2 : Field -> bool -> list byte + error.

Lemma Search_loop_closed (field : Field) (val : list byte) (f : File)
    (fuel : nat) :
  is_closed f = true ->
  forall i pos rows dbf,
    dbaseFile dbf = Some f ->
    Search_loop BytesToRow fuel field val i pos rows dbf = (rows, dbf).
Proof.
  intros C. induction fuel as [|fuel IH]; intros i pos rows dbf Ed;
    [reflexivity|].
  cbn [Search_loop].
  destruct (i <? RowsCount (header dbf)); [|reflexivity].
  unfold Search_step. rewrite Ed. unfold Seek. rewrite C.
  assert (E : set_dbaseFile dbf (Some f) = dbf)
    by (destruct dbf; cbn in Ed; subst; reflexivity).
  rewrite E. apply IH. exact Ed.
Qed.

(** X8. Searching a table whose file is closed or missing. For a column
    that is not a memo column and a target that encodes: on a handle whose
    table file is nil or closed every seek of the scan fails and is passed
    over, so [Search] returns no row and no error and leaves the handle as
    it was; and on any handle at all, open tables included, this is what
    [Search] returns on the handle that a [Close] that went through
    leaves. *)
Theorem Search_closed_table (field : Field) (exactMatch : bool) (dbf : DBF)
    (val : list byte) :
  DataType (column field) <> "M"%byte ->
  valueToByteRepresentation2 field (negb exactMatch) = inl val ->
  ((dbaseFile dbf = None
    \/ exists f, dbaseFile dbf = Some f /\ is_closed f = true) ->
   Search BytesToRow valueToByteRepresentation2 field exactMatch dbf
   = (Ok [], dbf))
  /\ (fst (Close dbf) = None ->
      Search BytesToRow valueToByteRepresentation2 field exactMatch
        (snd (Close dbf))
      = (Ok [], snd (Close dbf))).
Proof.
  intros M EV.
  assert (NM : Byte.eqb (DataType (column field)) "M"%byte = false).
  { destruct (Byte.eqb _ _) eqn:E; [|reflexivity].
    apply Byte.byte_dec_bl in E. contradiction. }
  assert (G : forall d,
    (dbaseFile d = None
     \/ exists f, dbaseFile d = Some f /\ is_closed f = true) ->
    Search BytesToRow valueToByteRepresentation2 field exactMatch d
    = (Ok [], d)).
  { intros d H. unfold Search, Search_fuel. rewrite NM, EV.
    destruct H as [Ed|(f & Ed & C)].
    - rewrite Search_loop_no_file by exact Ed. reflexivity.
    - rewrite (Search_loop_closed field val f) by assumption. reflexivity. }
  split; [intros H; apply G; exact H|].
  intros HC. apply G.
  destruct dbf as [cfg [df|] mf hd mh rp]; [|left].
  - right. revert HC. unfold Close, File_Close.
    cbn [dbaseFile memoFile set_dbaseFile set_memoFile fst snd].
    destruct (is_closed df); [discriminate|].
    destruct (fault df OpClose 0); [discriminate|].
    cbn [dbaseFile memoFile set_dbaseFile set_memoFile fst snd].
    intros _.
    destruct mf as [m|];
      [destruct (is_closed m); [|destruct (fault m OpClose 0)]|];
      cbn [dbaseFile memoFile set_dbaseFile set_memoFile fst snd];
      eexists; split; reflexivity.
  - unfold Close. cbn [dbaseFile memoFile set_dbaseFile fst snd].
    destruct mf as [m|]; [destruct (File_Close m) as [[e|] m']|]; reflexivity.
Qed.

End ClosedTable.

(** The open sample table, closed and then searched. *)
Lemma Search_closed_table_witness :
  Search sample_BytesToRow sample_encode
    (mkField sample_column (VString ["b"]%byte)) true
    (snd (Close (sample_table 2 0)))
  = (Ok [], snd (Close (sample_table 2 0))).
Proof.
  apply (proj2 (Search_closed_table sample_BytesToRow sample_encode
                  (mkField sample_column (VString ["b"]%byte)) true
                  (sample_table 2 0) ["b"]%byte
                  ltac:(discriminate) eq_refl)).
  reflexivity.
Defined.

(* ----------------------------------------------------------------- *)
(** ** Skip inside the table *)

(** X9. Inside the table [Skip] is the addition it is meant to be: when
    the sum of the cursor and the offset lies in [[0, RowsCount]], the
    cursor becomes that sum, which is its clamp, and nothing else in the
    handle changes. Two such moves compose into the move by the sum of the
    offsets. *)
Theorem Skip_in_range (offset : Z) (dbf : DBF) :
  header_in_range (header dbf) ->
  0 <= rowPointer dbf + offset <= RowsCount (header dbf) ->
  Skip offset dbf = set_rowPointer dbf (rowPointer dbf + offset)
  /\ rowPointer (Skip offset dbf)
     = clamp (RowsCount (header dbf)) (rowPointer dbf + offset)
  /\ forall offset',
       0 <= rowPointer dbf + offset + offset' <= RowsCount (header dbf) ->
       Skip offset' (Skip offset dbf) = Skip (offset + offset') dbf.
Proof.
  intros (RC & _) H. apply is_uint32_bounds in RC.
  assert (S : forall o d,
    RowsCount (header d) = RowsCount (header dbf) ->
    0 <= rowPointer d + o <= RowsCount (header dbf) ->
    Skip o d = set_rowPointer d (rowPointer d + o)).
  { intros o d Hd Ho. unfold Skip.
    rewrite int64_small by lia.
    rewrite uint32_small by (unfold is_uint32; lia).
    destruct (_ >=? _); destruct (_ <? _); destruct d; reflexivity. }
  split; [apply S; [reflexivity|exact H]|]. split.
  - rewrite S by (try reflexivity; exact H). cbn [rowPointer set_rowPointer].
    unfold clamp.
    destruct (Z.gtb_spec (rowPointer dbf + offset) (RowsCount (header dbf)));
      [lia|].
    destruct (Z.ltb_spec (rowPointer dbf + offset) 0); [lia|reflexivity].
  - intros offset' H'.
    rewrite (S offset dbf) by (try reflexivity; exact H).
    rewrite S by (cbn; try reflexivity; lia).
    rewrite S by (try reflexivity; lia).
    cbn. rewrite Z.add_assoc. reflexivity.
Qed.

Lemma Skip_in_range_witness :
  Skip 2 (sample_table 3 1) = set_rowPointer (sample_table 3 1) 3.
Proof.
  apply (proj1 (Skip_in_range 2 (sample_table 3 1)
                  ltac:(vm_compute; intuition discriminate)
                  ltac:(vm_compute; intuition discriminate))).
Defined.

(* ----------------------------------------------------------------- *)
(** ** The memo file: what a write leaves behind *)

Lemma writeMemoHeader_body_frame (dbf : DBF) :
  table_side (snd (writeMemoHeader_body dbf)) = table_side dbf
  /\ BlockSize (memoHeader (snd (writeMemoHeader_body dbf)))
     = BlockSize (memoHeader dbf)
  /\ NextFree (memoHeader (snd (writeMemoHeader_body dbf)))
     = match fst (Seek (memoFile dbf) 0) with
       | None => uint32 (NextFree (memoHeader dbf) + 1)
       | Some _ => NextFree (memoHeader dbf)
       end.
Proof.
  unfold writeMemoHeader_body.
  destruct (Seek (memoFile dbf) 0) as [[e|] mf]; cbn [fst].
  - repeat split.
  - cbn [set_memoFile set_memoHeader set_NextFree memoFile memoHeader
         NextFree BlockSize].
    destruct (Write _ _) as [[e|] mf']; repeat split.
Qed.

Lemma writeMemoHeader_frame (dbf : DBF) :
  table_side (snd (writeMemoHeader dbf)) = table_side dbf
  /\ BlockSize (memoHeader (snd (writeMemoHeader dbf)))
     = BlockSize (memoHeader dbf)
  /\ (NextFree (memoHeader (snd (writeMemoHeader dbf)))
      = NextFree (memoHeader dbf)
      \/ NextFree (memoHeader (snd (writeMemoHeader dbf)))
         = uint32 (NextFree (memoHeader dbf) + 1))
  /\ (WriteLock (config dbf) = false ->
      NextFree (memoHeader (snd (writeMemoHeader dbf)))
      = match fst (Seek (memoFile dbf) 0) with
        | None => uint32 (NextFree (memoHeader dbf) + 1)
        | Some _ => NextFree (memoHeader dbf)
        end).
Proof.
  pose proof (writeMemoHeader_body_frame dbf) as (T & B & N).
  assert (D : NextFree (memoHeader (snd (writeMemoHeader_body dbf)))
              = NextFree (memoHeader dbf)
              \/ NextFree (memoHeader (snd (writeMemoHeader_body dbf)))
                 = uint32 (NextFree (memoHeader dbf) + 1)).
  { rewrite N. destruct (fst (Seek (memoFile dbf) 0)); auto. }
  unfold writeMemoHeader.
  destruct (memoFile dbf) as [mf|] eqn:Em.
  - destruct (WriteLock (config dbf)).
    + destruct (FcntlFlock_lock _ _).
      * repeat split; auto; try discriminate.
      * destruct (writeMemoHeader_body dbf) as [err d].
        destruct (FcntlFlock_unlock _ _); repeat split; auto; try discriminate.
    + repeat split; auto; intros _; rewrite <- Em; exact N.
  - repeat split; auto.
Qed.

Lemma writeMemo_after_header (raw : list byte) (text : bool) (length : Z)
    (dbf : DBF) (mf : File) :
  memoFile dbf = Some mf ->
  exists h,
    snd (writeMemo raw text length dbf) = snd (writeMemoHeader dbf)
    \/ snd (writeMemo raw text length dbf)
       = set_memoFile (snd (writeMemoHeader dbf)) h.
Proof.
  intros Em. unfold writeMemo. rewrite Em.
  destruct (writeMemoHeader dbf) as [[e|] d]; cbn [snd];
    [exists None; left; reflexivity|].
  destruct (memo_block _ _ _ _) as [block|];
    [|exists None; left; reflexivity].
  destruct (if WriteLock (config d) then _ else _);
    [exists None; left; reflexivity|].
  destruct (Seek (memoFile d) _) as [[e|] h1];
    [exists h1; right; reflexivity|].
  cbn [set_memoFile memoFile].
  destruct (Write h1 block) as [[e|] h2]; exists h2; right; reflexivity.
Qed.

(** X10. What [writeMemo] leaves alone and what it consumes, on every path.
    It never touches the configuration, the table file, the table header or
    the cursor, and never changes [BlockSize]; [NextFree] is either kept or
    raised by one (modulo 2^32). Without a memo file it fails with ErrNoFPT
    and changes nothing. With locking off, once the seek to the start of
    the memo file has gone through, [NextFree] is raised whether or not the
    header and the block are then written: a failed write still consumes
    the block number. *)
Theorem writeMemo_frame (raw : list byte) (text : bool) (length : Z)
    (dbf : DBF) :
  let dbf' := snd (writeMemo raw text length dbf) in
  table_side dbf' = table_side dbf
  /\ BlockSize (memoHeader dbf') = BlockSize (memoHeader dbf)
  /\ (NextFree (memoHeader dbf') = NextFree (memoHeader dbf)
      \/ NextFree (memoHeader dbf') = uint32 (NextFree (memoHeader dbf) + 1))
  /\ (memoFile dbf = None ->
      writeMemo raw text length dbf
      = (Err (newError "dbase-io-writememo-1" ErrNoFPT), dbf))
  /\ (WriteLock (config dbf) = false -> memoFile dbf <> None ->
      fst (Seek (memoFile dbf) 0) = None ->
      NextFree (memoHeader dbf') = uint32 (NextFree (memoHeader dbf) + 1)).
Proof.
  pose proof (writeMemoHeader_frame dbf) as (T & B & N & NL).
  destruct (memoFile dbf) as [mf|] eqn:Em.
  - assert (NL' : WriteLock (config dbf) = false -> Some mf <> None ->
                  fst (Seek (Some mf) 0) = None ->
                  NextFree (memoHeader (snd (writeMemoHeader dbf)))
                  = uint32 (NextFree (memoHeader dbf) + 1)).
    { intros W _ S. rewrite (NL W), S. reflexivity. }
    destruct (writeMemo_after_header raw text length dbf mf Em) as (h & [E|E]);
      cbn zeta; rewrite E.
    + repeat split; auto; try discriminate.
    + assert (S : forall d, table_side (set_memoFile d h) = table_side d
                            /\ memoHeader (set_memoFile d h) = memoHeader d)
        by (intros d; split; reflexivity).
      destruct (S (snd (writeMemoHeader dbf))) as (-> & ->).
      repeat split; auto; try discriminate.
  - unfold writeMemo. rewrite Em. cbn [snd].
    repeat split; auto. intros _ H. contradiction.
Qed.

Lemma writeMemo_frame_witness :
  writeMemo ["h"; "i"]%byte true 2 (sample_table 2 0)
  = (Err (newError "dbase-io-writememo-1" ErrNoFPT), sample_table 2 0).
Proof.
  apply (proj1 (proj2 (proj2 (proj2
           (writeMemo_frame ["h"; "i"]%byte true 2 (sample_table 2 0)))))).
  reflexivity.
Defined.

(* ----------------------------------------------------------------- *)
(** ** Memo payloads longer than a block *)

(** The file after [writeMemo] ends with the block when it did not reach
    beyond it before. *)
Lemma after_memo_write_size (dbf : DBF) (mf : File) (block : list byte) :
  0 <= NextFree (memoHeader dbf) ->
  8 <= len block ->
  size mf <= NextFree (memoHeader dbf) * BlockSize (memoHeader dbf) + len block ->
  0 <= BlockSize (memoHeader dbf) ->
  exists mf',
    memoFile (after_memo_write dbf mf block) = Some mf'
    /\ size mf'
       = NextFree (memoHeader dbf) * BlockSize (memoHeader dbf) + len block.
Proof.
  intros N L S B. eexists. split; [reflexivity|].
  cbn [size store set_cursor cursor].
  change (len (memo_header_bytes _ _)) with 8. nia.
Qed.

(** X11. A payload longer than a block does not read back. With
    [WriteLock] off and blocks of more than eight bytes, on a memo file
    that answers every system call and does not reach beyond block
    [NextFree], [writeMemo p t |p|] with
    [|p| > BlockSize - 8] succeeds, but [readMemo] on the reference it
    returns fails with ErrIncomplete: what it hands back is the first
    [BlockSize - 8] bytes of [p] followed by zeros. *)
Theorem writeMemo_long_payload (p : list byte) (t : bool) (dbf : DBF)
    (mf : File) :
  memoHeader_in_range (memoHeader dbf) ->
  memoFile dbf = Some mf -> is_closed mf = false ->
  (forall op off, fault mf op off = false) ->
  WriteLock (config dbf) = false ->
  8 < BlockSize (memoHeader dbf) ->
  BlockSize (memoHeader dbf) - 8 < len p < 2 ^ 32 ->
  size mf <= NextFree (memoHeader dbf) * BlockSize (memoHeader dbf)
             + BlockSize (memoHeader dbf) ->
  let n := NextFree (memoHeader dbf) in
  let bs := BlockSize (memoHeader dbf) in
  exists dbf' dbf'',
    writeMemo p t (len p) dbf = (Ok (LittleEndian.PutUint32 n), dbf')
    /\ readMemo (LittleEndian.PutUint32 n) dbf'
       = (ErrWith (firstn (Z.to_nat (bs - 8)) p
                   ++ repeat Byte.x00 (Z.to_nat (len p - (bs - 8))), t)
            (newError "dbase-io-readmemo-5" ErrIncomplete), dbf'').
Proof.
  intros R Em C F HL H8 Hp Sz n bs. subst n bs.
  change (2 ^ 32) with 4294967296 in Hp.
  destruct (writeMemo_ok p t (len p) dbf mf R Em C F HL ltac:(lia))
    as (block & EB & EW).
  pose proof R as (RN & RB).
  pose proof (is_uint32_bounds _ RN) as RN'.
  pose proof (is_uint16_bounds _ RB) as RB'.
  pose proof (len_memo_block (BlockSize (memoHeader dbf)) p t (len p) block
                ltac:(lia) EB) as LB.
  rewrite memo_block_layout in EB by lia. apply Some_eq in EB.
  assert (UP : is_uint32 (len p)) by (unfold is_uint32; lia).
  rewrite (uint32_small _ UP) in EB.
  assert (CP : copy (make (BlockSize (memoHeader dbf) - 8)) p
               = firstn (Z.to_nat (BlockSize (memoHeader dbf) - 8)) p).
  { rewrite copy_long by (rewrite length_make; unfold len in Hp; lia).
    rewrite length_make. reflexivity. }
  rewrite CP in EB.
  destruct (after_memo_write_block dbf mf block 0 8
              ltac:(unfold len in LB; lia))
    as (mf' & Em' & C' & F' & _ & R8).
  destruct (after_memo_write_block dbf mf block 8
              (Z.to_nat (BlockSize (memoHeader dbf) - 8))
              ltac:(unfold len in LB; lia))
    as (mf'' & Em'' & _ & _ & _ & RP).
  rewrite Em' in Em''. apply Some_eq in Em''. subst mf''.
  destruct (after_memo_write_size dbf mf block ltac:(lia) ltac:(lia)
              ltac:(lia) ltac:(lia)) as (mf'' & Em'' & SZ).
  rewrite Em' in Em''. apply Some_eq in Em''. subst mf''.
  rewrite LB in SZ. change (Z.of_nat 8) with 8 in RP.
  rewrite Z.add_0_r, skipn_O in R8.
  rewrite <- EB, block_header in R8 by reflexivity.
  rewrite <- EB, block_payload in RP by reflexivity.
  rewrite firstn_all2 in RP by (rewrite length_firstn; lia).
  exists (after_memo_write dbf mf block). eexists.
  split; [exact EW|].
  unfold readMemo. rewrite Em', LittleEndian_Uint32_Put, (uint32_small _ RN).
  cbn [after_memo_write memoHeader BlockSize set_memoHeader set_memoFile
       after_memo_header].
  set (n := NextFree (memoHeader dbf)) in *.
  set (bs := BlockSize (memoHeader dbf)) in *.
  assert (O : int64 (int64 bs * int64 n) = n * bs).
  { rewrite (int64_small bs), (int64_small n) by lia.
    rewrite int64_small by nia. apply Z.mul_comm. }
  rewrite <- C' in C.
  assert (F'' : forall op o, fault mf' op o = false)
    by (intros op o; rewrite F'; apply F).
  rewrite O.
  rewrite Seek_ok by first [exact C | apply F'' | nia].
  cbn [set_memoFile memoFile].
  rewrite Read_ok by first [exact C | apply F'' | cbn; lia].
  cbn [cursor set_cursor]. rewrite read_range_set_cursor.
  change (Z.to_nat 8) with 8%nat. rewrite R8.
  rewrite copy_exact by reflexivity.
  change (firstn 4 (BigEndian.PutUint32 (if t then 1 else 0)
                    ++ BigEndian.PutUint32 (len p)))
    with (BigEndian.PutUint32 (if t then 1 else 0)).
  change (skipn 4 (BigEndian.PutUint32 (if t then 1 else 0)
                   ++ BigEndian.PutUint32 (len p)))
    with (BigEndian.PutUint32 (len p)).
  rewrite !BigEndian_Uint32_Put, (uint32_small _ UP).
  rewrite (uint32_small (if t then 1 else 0))
    by (destruct t; unfold is_uint32; lia).
  destruct (Z.eqb_spec (len p) 0); [lia|].
  unfold Read. change (is_closed (set_cursor (set_cursor mf' (n * bs)) (n * bs + 8)))
    with (is_closed mf').
  cbn [set_cursor fault size cursor]. rewrite C, F''.
  destruct (Z.leb_spec (len p) 0); [lia|].
  destruct (Z.leb_spec (size mf') (n * bs + 8)); [lia|].
  rewrite SZ. replace (n * bs + bs - (n * bs + 8)) with (bs - 8) by lia.
  rewrite Z.min_r by lia.
  rewrite !read_range_set_cursor, RP.
  assert (LF : len (firstn (Z.to_nat (bs - 8)) p) = bs - 8).
  { unfold len. rewrite length_firstn. unfold len in Hp. lia. }
  rewrite LF.
  destruct (Z.eqb_spec (bs - 8) (len p)); [lia|]. cbn [negb].
  rewrite copy_short by (rewrite length_make; unfold len in *; lia).
  unfold make. rewrite skipn_repeat_x00.
  replace (Z.to_nat (len p) - List.length (firstn (Z.to_nat (bs - 8)) p))%nat
    with (Z.to_nat (len p - (bs - 8))) by (unfold len in LF; lia).
  destruct t; reflexivity.
Qed.

Lemma writeMemo_long_payload_witness :
  exists dbf' dbf'',
    writeMemo ["0"; "1"; "2"; "3"; "4"; "5"; "6"; "7"; "8"; "9"]%byte true 10
      (sample_memo_table default_config 1)
    = (Ok ["001"; "000"; "000"; "000"]%byte, dbf')
    /\ readMemo ["001"; "000"; "000"; "000"]%byte dbf'
       = (ErrWith (["0"; "1"; "2"; "3"; "4"; "5"; "6"; "7"; "000"; "000"]%byte,
                   true)
            (newError "dbase-io-readmemo-5" ErrIncomplete), dbf'').
Proof.
  destruct (writeMemo_long_payload
              ["0"; "1"; "2"; "3"; "4"; "5"; "6"; "7"; "8"; "9"]%byte true
              (sample_memo_table default_config 1) (file_of (make 16)))
    as (dbf' & dbf'' & W & R).
  - vm_compute. intuition discriminate.
  - reflexivity.
  - reflexivity.
  - intros; reflexivity.
  - reflexivity.
  - reflexivity.
  - vm_compute. intuition discriminate.
  - vm_compute. discriminate.
  - exists dbf', dbf''. split; [exact W|exact R].
Defined.

(* ----------------------------------------------------------------- *)
(** ** The memo header on disk *)

Lemma testbit_uint16 (v n : Z) :
  0 <= n -> Z.testbit (uint16 v) n = (n <? 16) && Z.testbit v n.
Proof.
  intros Hn. unfold uint16. rewrite <- Z.land_ones by lia.
  rewrite Z.land_spec, Z.testbit_ones_nonneg by lia. apply andb_comm.
Qed.

Lemma two_bytes (v : Z) :
  Z.lor (Z.land v 255) (Z.shiftl (Z.land (Z.shiftr v 8) 255) 8) = uint16 v.
Proof.
  apply Z.bits_inj'. intros n Hn.
  rewrite Z.lor_spec, testbit_low_byte, testbit_byte_at, testbit_uint16
    by lia.
  destruct (Z.testbit v n); rewrite ?andb_true_r, ?andb_false_r; [|reflexivity].
  destruct (Z.ltb_spec n 8), (Z.leb_spec 8 n), (Z.ltb_spec n (8 + 8)),
    (Z.ltb_spec n 16); simpl; try reflexivity; lia.
Qed.

Lemma uint16_small (v : Z) : is_uint16 v -> uint16 v = v.
Proof. unfold is_uint16, uint16. intros H. apply Z.mod_small. exact H. Qed.

Lemma uint32_idem (v : Z) : uint32 (uint32 v) = uint32 v.
Proof. unfold uint32. apply Z.mod_mod. discriminate. Qed.

(** The structure read back from the eight bytes [writeMemoHeader]
    writes. *)
Lemma decode_memo_header_bytes (nextFree blockSize : Z) :
  decode_MemoHeader (memo_header_bytes nextFree blockSize)
  = Some (mkMemoHeader (uint32 nextFree) (uint16 blockSize)).
Proof.
  unfold decode_MemoHeader, memo_header_bytes, BigEndian.PutUint32,
    BigEndian.PutUint16, BigEndian.Uint32, BigEndian_Uint16.
  cbn [app skipn]. rewrite !b2z_z2b, four_bytes, two_bytes. reflexivity.
Qed.

(** Only the first eight bytes of the buffer reach the structure. *)
Lemma decode_MemoHeader_read_range (f : File) (k : nat) :
  (8 <= k)%nat ->
  decode_MemoHeader (read_range f 0 k) = decode_MemoHeader (read_range f 0 8).
Proof.
  intros H. replace k with (8 + (k - 8))%nat by lia. reflexivity.
Qed.

(** After a successful [writeMemo] that does not write to block 0, the
    file starts with the header for the new [NextFree]. *)
Lemma after_memo_write_header (dbf : DBF) (mf : File) (block : list byte) :
  8 <= NextFree (memoHeader dbf) * BlockSize (memoHeader dbf) ->
  exists mf',
    memoFile (after_memo_write dbf mf block) = Some mf'
    /\ is_closed mf' = is_closed mf
    /\ (forall op o, fault mf' op o = fault mf op o)
    /\ 8 <= size mf'
    /\ read_range mf' 0 8
       = memo_header_bytes (uint32 (NextFree (memoHeader dbf) + 1))
           (BlockSize (memoHeader dbf)).
Proof.
  intros H. eexists. split; [reflexivity|].
  split; [reflexivity|]. split; [reflexivity|].
  split.
  - cbn [size store set_cursor]. change (len (memo_header_bytes _ _)) with 8.
    lia.
  - set (hb := memo_header_bytes _ _).
    change (read_range ?f 0 8) with (read_range f (0 + Z.of_nat 0) 8).
    change hb with (firstn 8 (skipn 0 hb)) at 2.
    apply read_range_nth; [|reflexivity].
    intros i Hi. rewrite contents_store_outside by lia.
    change (contents (set_cursor ?f ?c)) with (contents f).
    rewrite Nat.add_0_l. apply contents_store_inside. exact Hi.
Qed.

(** X12. The memo header survives on disk. With [WriteLock] off, on a
    memo file that answers every system call, with blocks of at least
    eight bytes and [NextFree >= 1], [writeMemo] succeeds and leaves the
    file such that [prepareMemo] on it (as [Open] does on the next start)
    succeeds and
    loads exactly the in-memory memo header, the advanced [NextFree]
    included; it changes no byte of the file and nothing of the table side
    of the handle it fills. *)
Theorem writeMemo_prepareMemo (p : list byte) (t : bool) (length : Z)
    (dbf d0 : DBF) (mf : File) :
  memoHeader_in_range (memoHeader dbf) ->
  memoFile dbf = Some mf -> is_closed mf = false ->
  (forall op off, fault mf op off = false) ->
  WriteLock (config dbf) = false ->
  8 <= BlockSize (memoHeader dbf) ->
  1 <= NextFree (memoHeader dbf) ->
  exists dbf' d,
    writeMemo p t length dbf
    = (Ok (LittleEndian.PutUint32 (NextFree (memoHeader dbf))), dbf')
    /\ prepareMemo (memoFile dbf') d0 = (None, d)
    /\ memoHeader d = memoHeader dbf'
    /\ same_bytes (memoFile dbf') (memoFile d)
    /\ table_side d = table_side d0.
Proof.
  intros R Em C F HL H8 N1.
  destruct (writeMemo_ok p t length dbf mf R Em C F HL H8) as (block & _ & EW).
  pose proof R as (RN & RB).
  destruct (after_memo_write_header dbf mf block ltac:(nia))
    as (mf' & Em' & C' & F' & S8 & RH).
  rewrite <- C' in C.
  assert (F'' : forall op o, fault mf' op o = false)
    by (intros op o; rewrite F'; apply F).
  exists (after_memo_write dbf mf block).
  unfold prepareMemo, readMemoHeader. rewrite Em'.
  rewrite Seek_ok by first [exact C | apply F'' | lia].
  unfold Read. change (is_closed (set_cursor mf' 0)) with (is_closed mf').
  cbn [set_cursor cursor fault size]. rewrite C, F''.
  change (1024 <=? 0) with false. cbv iota.
  destruct (Z.leb_spec (size mf') 0); [lia|].
  rewrite decode_MemoHeader_read_range by lia.
  change (read_range (set_cursor mf' 0) 0 8) with (read_range mf' 0 8).
  rewrite RH, decode_memo_header_bytes, uint32_idem, (uint16_small _ RB).
  eexists. split; [exact EW|]. split; [reflexivity|].
  split; [reflexivity|].
  split; [|reflexivity].
  cbn [set_memoHeader set_memoFile memoFile same_bytes set_cursor contents
       size closes fault]. auto.
Qed.

Lemma writeMemo_prepareMemo_witness :
  exists dbf' d,
    writeMemo ["h"; "i"]%byte true 2 (sample_memo_table default_config 1)
    = (Ok ["001"; "000"; "000"; "000"]%byte, dbf')
    /\ prepareMemo (memoFile dbf') (sample_table 2 0) = (None, d)
    /\ memoHeader d = memoHeader dbf'
    /\ same_bytes (memoFile dbf') (memoFile d)
    /\ table_side d = table_side (sample_table 2 0).
Proof.
  apply (writeMemo_prepareMemo ["h"; "i"]%byte true 2
           (sample_memo_table default_config 1) (sample_table 2 0)
           (file_of (make 16))).
  - vm_compute. intuition discriminate.
  - reflexivity.
  - reflexivity.
  - intros; reflexivity.
  - reflexivity.
  - vm_compute. discriminate.
  - vm_compute. discriminate.
Defined.

Lemma uint16_uint32 (v : Z) : uint16 (uint32 v) = uint16 v.
Proof.
  apply Z.bits_inj'. intros n Hn.
  rewrite !testbit_uint16, testbit_uint32 by lia.
  destruct (Z.ltb_spec n 16), (Z.ltb_spec n 32); simpl; try reflexivity; lia.
Qed.

(** The structure read from the first eight bytes of a memo block: its
    type field and the low half of its length field. *)
Lemma decode_block_header (sign leng : Z) (rest : list byte) :
  decode_MemoHeader
    (BigEndian.PutUint32 sign ++ BigEndian.PutUint32 leng ++ rest)
  = Some (mkMemoHeader (uint32 sign) (uint16 leng)).
Proof.
  unfold decode_MemoHeader, BigEndian.PutUint32, BigEndian.Uint32,
    BigEndian_Uint16.
  cbn [app skipn]. rewrite !b2z_z2b, four_bytes, two_bytes. reflexivity.
Qed.

(** X13. Block 0 is the file header. With [WriteLock] off, on a memo
    file that answers every system call, with blocks of at least eight
    bytes and [NextFree = 0],
    [writeMemo] succeeds and counts [NextFree] up to 1 in memory, but its
    block lands on the header it has just written: [prepareMemo] on the
    file afterwards loads the block's type field as [NextFree] (1 for
    text, 0 otherwise) and the low sixteen bits of the length argument as
    [BlockSize]. *)
Theorem writeMemo_block_zero (p : list byte) (t : bool) (length : Z)
    (dbf d0 : DBF) (mf : File) :
  memoHeader_in_range (memoHeader dbf) ->
  memoFile dbf = Some mf -> is_closed mf = false ->
  (forall op off, fault mf op off = false) ->
  WriteLock (config dbf) = false ->
  8 <= BlockSize (memoHeader dbf) ->
  NextFree (memoHeader dbf) = 0 ->
  exists dbf' d,
    writeMemo p t length dbf = (Ok (LittleEndian.PutUint32 0), dbf')
    /\ memoHeader dbf' = mkMemoHeader 1 (BlockSize (memoHeader dbf))
    /\ prepareMemo (memoFile dbf') d0 = (None, d)
    /\ memoHeader d = mkMemoHeader (if t then 1 else 0) (uint16 length).
Proof.
  intros R Em C F HL H8 N0.
  destruct (writeMemo_ok p t length dbf mf R Em C F HL H8) as (block & EB & EW).
  pose proof R as (RN & RB). pose proof (is_uint16_bounds _ RB) as RB'.
  pose proof (len_memo_block (BlockSize (memoHeader dbf)) p t length block
                ltac:(lia) EB) as LB.
  rewrite memo_block_layout in EB by lia. apply Some_eq in EB.
  destruct (after_memo_write_block dbf mf block 0 8
              ltac:(unfold len in LB; lia))
    as (mf' & Em' & C' & F' & Sz & R8).
  rewrite N0 in *. rewrite LB in Sz. cbn [Z.mul Z.add Z.of_nat] in R8, Sz.
  rewrite skipn_O in R8. rewrite <- EB, block_header in R8 by reflexivity.
  rewrite <- C' in C.
  assert (F'' : forall op o, fault mf' op o = false)
    by (intros op o; rewrite F'; apply F).
  exists (after_memo_write dbf mf block).
  unfold prepareMemo, readMemoHeader. rewrite Em'.
  rewrite Seek_ok by first [exact C | apply F'' | lia].
  unfold Read. change (is_closed (set_cursor mf' 0)) with (is_closed mf').
  cbn [set_cursor cursor fault size]. rewrite C, F''.
  change (1024 <=? 0) with false. cbv iota.
  destruct (Z.leb_spec (size mf') 0); [lia|].
  rewrite decode_MemoHeader_read_range by lia.
  change (read_range (set_cursor mf' 0) 0 8) with (read_range mf' 0 8).
  rewrite R8.
  rewrite <- (app_nil_r (BigEndian.PutUint32 (uint32 length))), app_assoc.
  rewrite <- app_assoc, decode_block_header, uint16_uint32.
  eexists. split; [exact EW|].
  split; [cbn [after_memo_write memoHeader]; rewrite N0; reflexivity|].
  split; [reflexivity|].
  cbn [set_memoHeader set_memoFile memoHeader]. f_equal.
  destruct t; reflexivity.
Qed.

Lemma writeMemo_block_zero_witness :
  exists dbf' d,
    writeMemo ["h"; "i"]%byte false 2 (sample_memo_table default_config 0)
    = (Ok ["000"; "000"; "000"; "000"]%byte, dbf')
    /\ memoHeader dbf' = mkMemoHeader 1 16
    /\ prepareMemo (memoFile dbf') (sample_table 2 0) = (None, d)
    /\ memoHeader d = mkMemoHeader 0 2.
Proof.
  apply (writeMemo_block_zero ["h"; "i"]%byte false 2
           (sample_memo_table default_config 0) (sample_table 2 0)
           (file_of (make 16))).
  - vm_compute. intuition discriminate.
  - reflexivity.
  - reflexivity.
  - intros; reflexivity.
  - reflexivity.
  - vm_compute. discriminate.
  - reflexivity.
Defined.

(* ----------------------------------------------------------------- *)
(** ** The value codec: encoders against the decoder *)

Lemma int32_uint32 (i : Z) :
  - 2147483648 <= i < 2147483648 -> int32 (uint32 i) = i.
Proof.
  intros H. unfold int32, uint32.
  change (2 ^ 31) with 2147483648. change (2 ^ 32) with 4294967296.
  rewrite Zplus_mod_idemp_l, Z.mod_small; lia.
Qed.

Lemma LittleEndian_Uint32_short (raw : list byte) :
  len raw < 4 -> LittleEndian.Uint32 raw = None.
Proof.
  unfold len. intros H.
  destruct raw as [|b0 [|b1 [|b2 [|b3 r]]]]; try reflexivity.
  cbn [List.length] in H. lia.
Qed.

Lemma LittleEndian_Uint64_short (raw : list byte) :
  len raw < 8 -> LittleEndian.Uint64 raw = None.
Proof.
  unfold len. intros H.
  destruct raw as [|b0 [|b1 [|b2 [|b3 [|b4 [|b5 [|b6 [|b7 r]]]]]]]];
    try reflexivity.
  cbn [List.length] in H. lia.
Qed.

(** A memo written with its own length reads back. *)
Lemma writeMemo_then_readMemo (p : list byte) (t : bool) (dbf : DBF)
    (mf : File) :
  memoHeader_in_range (memoHeader dbf) ->
  memoFile dbf = Some mf -> is_closed mf = false ->
  (forall op off, fault mf op off = false) ->
  WriteLock (config dbf) = false ->
  len p <= BlockSize (memoHeader dbf) - 8 ->
  exists dbf' dbf'',
    writeMemo p t (len p) dbf
    = (Ok (LittleEndian.PutUint32 (NextFree (memoHeader dbf))), dbf')
    /\ readMemo (LittleEndian.PutUint32 (NextFree (memoHeader dbf))) dbf'
       = (Ok (p, t), dbf'').
Proof.
  intros R Em C F HL Hp.
  pose proof (len_nonneg p) as P0.
  assert (H8 : 8 <= BlockSize (memoHeader dbf)) by lia.
  destruct (writeMemo_ok p t (len p) dbf mf R Em C F HL H8) as (block & EB & EW).
  pose proof (len_memo_block (BlockSize (memoHeader dbf)) p t (len p) block
                ltac:(lia) EB) as LB.
  rewrite memo_block_layout in EB by exact H8. apply Some_eq in EB.
  pose proof R as (RN & RB).
  pose proof (is_uint32_bounds _ RN) as RN'.
  pose proof (is_uint16_bounds _ RB) as RB'.
  assert (UP : is_uint32 (len p)) by (unfold is_uint32; lia).
  assert (CP : copy (make (BlockSize (memoHeader dbf) - 8)) p
               = p ++ skipn (List.length p)
                        (make (BlockSize (memoHeader dbf) - 8))).
  { apply copy_short. rewrite length_make. unfold len in Hp. lia. }
  rewrite (uint32_small _ UP), CP in EB.
  destruct (after_memo_write_block dbf mf block 0 8
              ltac:(unfold len in LB; lia))
    as (mf' & Em' & C' & F' & Sz & R8).
  destruct (after_memo_write_block dbf mf block 8 (List.length p)
              ltac:(unfold len in LB, Hp; lia))
    as (mf'' & Em'' & _ & _ & _ & RP).
  rewrite Em' in Em''. apply Some_eq in Em''. subst mf''.
  assert (RD : exists dbf'',
    readMemo (LittleEndian.PutUint32 (NextFree (memoHeader dbf)))
      (after_memo_write dbf mf block)
    = (Ok (p, (if t then 1 else 0) =? 1), dbf'')).
  { apply (readMemo_reads_block _ mf').
    - exact Em'.
    - rewrite C'. exact C.
    - intros op o. rewrite F'. apply F.
    - split; [|exact RB]. cbn. unfold is_uint32, uint32.
      apply Z.mod_pos_bound. lia.
    - exact RN.
    - destruct t; unfold is_uint32; lia.
    - exact UP.
    - cbn [after_memo_write memoHeader BlockSize]. lia.
    - cbn [after_memo_write memoHeader BlockSize].
      rewrite Z.add_0_r in R8. rewrite R8, <- EB. rewrite skipn_O.
      apply block_header; reflexivity.
    - cbn [after_memo_write memoHeader BlockSize].
      change (Z.of_nat 8) with 8 in RP. rewrite RP, <- EB.
      rewrite block_payload by reflexivity.
      rewrite firstn_app, firstn_all, Nat.sub_diag. apply app_nil_r. }
  destruct RD as (dbf'' & RD).
  exists (after_memo_write dbf mf block), dbf''.
  split; [exact EW|]. rewrite RD. destruct t; reflexivity.
Qed.

Section CodecRoundTrips.

Variable Decode toUTF8String fromUtf8String : list byte -> list byte * option error.
Variable parseDate parseDateTime parseNumericInt : list byte -> Z * option error.
Variable parseFloat : list byte -> float64 * option error.
Variable getFRepresentation getBRepresentation getDRepresentation : Field -> result (list byte).
Variable getTRepresentation getNRepresentation : Field -> result (list byte).

(** X14. Integers round-trip. In an I column of length 4, an int32 value
    is encoded by [valueToByteRepresentation] as its four little-endian
    two's-complement bytes, and [dataToValue] on these bytes gives the
    value back; neither touches the handle. *)
Theorem valueToByteRepresentation_I_dataToValue (field : Field) (i : Z)
    (dbf : DBF) :
  ColumnType (column field) = "I"%string ->
  Length (column field) = 4 ->
  value_of field = VInt32 i ->
  - 2147483648 <= i < 2147483648 ->
  valueToByteRepresentation fromUtf8String getFRepresentation
    getBRepresentation getDRepresentation getTRepresentation
    getNRepresentation field dbf
  = (Ok (LittleEndian.PutUint32 (uint32 i)), dbf)
  /\ dataToValue Decode toUTF8String parseDate parseDateTime parseNumericInt
       parseFloat (LittleEndian.PutUint32 (uint32 i)) (column field) dbf
     = (Ok (VInt32 i), dbf).
Proof.
  intros HT HL HV HI. split.
  - unfold valueToByteRepresentation, getIRepresentation.
    rewrite HT, HV, HL. reflexivity.
  - unfold dataToValue. rewrite HT, HL.
    change (len (LittleEndian.PutUint32 (uint32 i)) =? 4) with true.
    cbv [String.eqb Ascii.eqb Bool.eqb negb].
    rewrite LittleEndian_Uint32_Put, uint32_idem, int32_uint32 by exact HI.
    reflexivity.
Qed.

(** X15. A float64 outside (0, MaxInt32] in an I column is stored as 0.
    In an I column of length 4, a float64 value that is not greater than
    0 (negative, zero or not a number) or is greater than [math.MaxInt32]
    is encoded without an error as four zero bytes, which [dataToValue]
    reads as the int32 0. *)
Theorem getIRepresentation_float_out_of_range (field : Field) (f : float64)
    (dbf : DBF) :
  ColumnType (column field) = "I"%string ->
  Length (column field) = 4 ->
  value_of field = VFloat64 f ->
  SFltb (f64_of_Z 0) f && SFleb f (f64_of_Z MaxInt32) = false ->
  valueToByteRepresentation fromUtf8String getFRepresentation
    getBRepresentation getDRepresentation getTRepresentation
    getNRepresentation field dbf
  = (Ok [Byte.x00; Byte.x00; Byte.x00; Byte.x00], dbf)
  /\ dataToValue Decode toUTF8String parseDate parseDateTime parseNumericInt
       parseFloat [Byte.x00; Byte.x00; Byte.x00; Byte.x00] (column field) dbf
     = (Ok (VInt32 0), dbf).
Proof.
  intros HT HL HV HF. split.
  - unfold valueToByteRepresentation, getIRepresentation.
    rewrite HT, HV, HL, HF. reflexivity.
  - unfold dataToValue. rewrite HT, HL. reflexivity.
Qed.

(** X16. Booleans round-trip. In an L column of length 1, a bool is
    encoded as the single byte T or F, and [dataToValue] on it gives the
    bool back; any other single byte decodes to false. *)
Theorem valueToByteRepresentation_L_dataToValue (field : Field) (l : bool)
    (dbf : DBF) :
  ColumnType (column field) = "L"%string ->
  Length (column field) = 1 ->
  value_of field = VBool l ->
  valueToByteRepresentation fromUtf8String getFRepresentation
    getBRepresentation getDRepresentation getTRepresentation
    getNRepresentation field dbf
  = (Ok [if l then "T"%byte else "F"%byte], dbf)
  /\ dataToValue Decode toUTF8String parseDate parseDateTime parseNumericInt
       parseFloat [if l then "T"%byte else "F"%byte] (column field) dbf
     = (Ok (VBool l), dbf)
  /\ (forall b, b <> "T"%byte ->
        dataToValue Decode toUTF8String parseDate parseDateTime
          parseNumericInt parseFloat [b] (column field) dbf
        = (Ok (VBool false), dbf)).
Proof.
  intros HT HL HV. split; [|split].
  - unfold valueToByteRepresentation, getLRepresentation.
    rewrite HT, HV. destruct l; reflexivity.
  - unfold dataToValue. rewrite HT, HL. destruct l; reflexivity.
  - intros b Hb. unfold dataToValue. rewrite HT, HL.
    cbv [String.eqb Ascii.eqb Bool.eqb negb len List.length Z.of_nat
         Pos.of_succ_nat Z.eqb Pos.eqb].
    destruct (Byte.eqb b "T") eqn:E; [|reflexivity].
    apply Byte.byte_dec_bl in E. contradiction.
Qed.

(** X17. Slots too short for a binary number make the decoder panic. For
    an I column shorter than 4 bytes and for a B or Y column shorter than
    8 bytes, [dataToValue] on a slot of the column's length does not
    return: the fixed-width little-endian read indexes past the end. *)
Theorem dataToValue_short_slot_panics (raw : list byte) (col : Column)
    (dbf : DBF) :
  len raw = Length col ->
  (ColumnType col = "I"%string /\ Length col < 4)
  \/ ((ColumnType col = "B"%string \/ ColumnType col = "Y"%string)
      /\ Length col < 8) ->
  dataToValue Decode toUTF8String parseDate parseDateTime parseNumericInt
    parseFloat raw col dbf
  = (Panic "index out of range", dbf).
Proof.
  intros HL H. unfold dataToValue. rewrite HL, Z.eqb_refl.
  destruct H as [(HT & H4)|([HT|HT] & H8)]; rewrite HT;
    cbv [String.eqb Ascii.eqb Bool.eqb negb].
  - rewrite LittleEndian_Uint32_short by lia. reflexivity.
  - rewrite LittleEndian_Uint64_short by lia. reflexivity.
  - rewrite LittleEndian_Uint64_short by lia. reflexivity.
Qed.

(** X18. Memos round-trip through the codec, text through the converter
    on the way back only. With [WriteLock] off, in an M column of length
    4, on a memo file that answers every system call, a value of at most
    [BlockSize - 8] bytes is
    encoded by [valueToByteRepresentation] as the 4-byte reference to the
    block it writes; [dataToValue] on that reference returns a binary
    value unchanged, and a text value as [Decode] of the bytes written
    (the write path applies no converter). *)
Theorem valueToByteRepresentation_M_dataToValue (field : Field)
    (p : list byte) (t : bool) (dbf : DBF) (mf : File) :
  ColumnType (column field) = "M"%string ->
  Length (column field) = 4 ->
  value_of field = (if t then VString p else VBytes p) ->
  memoHeader_in_range (memoHeader dbf) ->
  memoFile dbf = Some mf -> is_closed mf = false ->
  (forall op off, fault mf op off = false) ->
  WriteLock (config dbf) = false ->
  len p <= BlockSize (memoHeader dbf) - 8 ->
  (t = true -> snd (Decode p) = None) ->
  exists dbf' dbf'',
    valueToByteRepresentation fromUtf8String getFRepresentation
      getBRepresentation getDRepresentation getTRepresentation
      getNRepresentation field dbf
    = (Ok (LittleEndian.PutUint32 (NextFree (memoHeader dbf))), dbf')
    /\ dataToValue Decode toUTF8String parseDate parseDateTime
         parseNumericInt parseFloat
         (LittleEndian.PutUint32 (NextFree (memoHeader dbf))) (column field)
         dbf'
       = (Ok (if t then VString (fst (Decode p)) else VBytes p), dbf'').
Proof.
  intros HT HL HV R Em C F HK Hp HD.
  destruct (writeMemo_then_readMemo p t dbf mf R Em C F HK Hp)
    as (dbf' & dbf'' & EW & ER).
  exists dbf', dbf''. split.
  - unfold valueToByteRepresentation, getMRepresentation.
    rewrite HT, HV. cbv [String.eqb Ascii.eqb Bool.eqb].
    destruct t; rewrite EW; reflexivity.
  - unfold dataToValue, parseMemo. rewrite HT, HL.
    change (len (LittleEndian.PutUint32 (NextFree (memoHeader dbf))) =? 4)
      with true.
    cbv [String.eqb Ascii.eqb Bool.eqb negb]. rewrite ER.
    destruct t; [|reflexivity].
    specialize (HD eq_refl). destruct (Decode p) as [s e].
    cbn [snd] in HD. subst e. reflexivity.
Qed.

(** X19. Memo columns need the memo file. On a handle without a memo file
    both directions fail with an error that wraps ErrNoFPT and leave the
    handle as it was: [dataToValue] on any slot of an M column, and
    [valueToByteRepresentation] on a string or byte value for it. *)
Theorem memo_column_without_memo_file (field : Field) (raw : list byte)
    (dbf : DBF) :
  ColumnType (column field) = "M"%string ->
  memoFile dbf = None ->
  (len raw = Length (column field) ->
     exists e,
       dataToValue Decode toUTF8String parseDate parseDateTime
         parseNumericInt parseFloat raw (column field) dbf = (Err e, dbf)
       /\ is_ErrNoFPT e = true)
  /\ ((exists s, value_of field = VString s \/ value_of field = VBytes s) ->
      exists e,
        valueToByteRepresentation fromUtf8String getFRepresentation
          getBRepresentation getDRepresentation getTRepresentation
          getNRepresentation field dbf = (Err e, dbf)
        /\ is_ErrNoFPT e = true).
Proof.
  intros HT Em. split.
  - intros HL. unfold dataToValue, parseMemo, readMemo.
    rewrite HT, HL, Z.eqb_refl, Em. eexists. split; reflexivity.
  - intros (s & [HV|HV]);
      unfold valueToByteRepresentation, getMRepresentation, writeMemo;
      rewrite HT, HV, Em; eexists; split; reflexivity.
Qed.

(** X20. Encoding touches the handle for memo columns only, and rejects
    unknown types. For a column whose type is not M
    [valueToByteRepresentation] returns the handle unchanged, whatever the
    value and the outcome; for a type code outside B, C, D, F, I, L, M, N,
    T, V, Y it returns the unsupported-type error. *)
Theorem valueToByteRepresentation_frame (field : Field) (dbf : DBF) :
  (ColumnType (column field) <> "M"%string ->
     snd (valueToByteRepresentation fromUtf8String getFRepresentation
            getBRepresentation getDRepresentation getTRepresentation
            getNRepresentation field dbf) = dbf)
  /\ (~ In (DataType (column field)) supported_types ->
      valueToByteRepresentation fromUtf8String getFRepresentation
        getBRepresentation getDRepresentation getTRepresentation
        getNRepresentation field dbf
      = (Err (Errorf "dbase-interpreter-valuetobyterepresentation-12:FAILED:Unsupported column data type: %s at column field: %v"),
         dbf)).
Proof.
  split.
  - intros HM. unfold valueToByteRepresentation.
    destruct (String.eqb_spec (ColumnType (column field)) "M");
      [contradiction|].
    repeat match goal with
           | |- snd (if ?c then _ else _) = _ => destruct c
           | |- snd (match ?v with VNil => _ | _ => _ end) = _ => destruct v
           end; reflexivity.
  - intros HT. unfold valueToByteRepresentation.
    apply not_supported_no_case in HT. unfold ColumnType.
    simpl in HT. repeat rewrite andb_true_iff in HT.
    repeat rewrite negb_true_iff in HT.
    destruct HT as (M & C & I & B & D & T & L & V & Y & N & F & _).
    rewrite M, C, I, B, D, T, L, V, Y, N, F. reflexivity.
Qed.

End CodecRoundTrips.

Lemma valueToByteRepresentation_I_dataToValue_witness :
  valueToByteRepresentation id_converter no_encoder no_encoder no_encoder
    no_encoder no_encoder (mkField integer_column (VInt32 (-2)))
    (sample_table 2 0)
  = (Ok ["254"; "255"; "255"; "255"]%byte, sample_table 2 0)
  /\ dataToValue id_converter id_converter no_parse_Z no_parse_Z no_parse_Z
       no_parse_float ["254"; "255"; "255"; "255"]%byte integer_column
       (sample_table 2 0)
     = (Ok (VInt32 (-2)), sample_table 2 0).
Proof.
  apply (valueToByteRepresentation_I_dataToValue id_converter id_converter
           id_converter no_parse_Z no_parse_Z no_parse_Z no_parse_float
           no_encoder no_encoder no_encoder no_encoder no_encoder
           (mkField integer_column (VInt32 (-2))) (-2) (sample_table 2 0)).
  - reflexivity.
  - reflexivity.
  - reflexivity.
  - lia.
Defined.

Lemma getIRepresentation_float_out_of_range_witness :
  valueToByteRepresentation id_converter no_encoder no_encoder no_encoder
    no_encoder no_encoder (mkField integer_column (VFloat64 minus_one_and_a_half))
    (sample_table 2 0)
  = (Ok [Byte.x00; Byte.x00; Byte.x00; Byte.x00], sample_table 2 0)
  /\ dataToValue id_converter id_converter no_parse_Z no_parse_Z no_parse_Z
       no_parse_float [Byte.x00; Byte.x00; Byte.x00; Byte.x00] integer_column
       (sample_table 2 0)
     = (Ok (VInt32 0), sample_table 2 0).
Proof.
  apply (getIRepresentation_float_out_of_range id_converter id_converter
           id_converter no_parse_Z no_parse_Z no_parse_Z no_parse_float
           no_encoder no_encoder no_encoder no_encoder no_encoder
           (mkField integer_column (VFloat64 minus_one_and_a_half))
           minus_one_and_a_half (sample_table 2 0)).
  - reflexivity.
  - reflexivity.
  - reflexivity.
  - vm_compute. reflexivity.
Defined.

Lemma valueToByteRepresentation_L_dataToValue_witness :
  valueToByteRepresentation id_converter no_encoder no_encoder no_encoder
    no_encoder no_encoder (mkField logical_column (VBool true))
    (sample_table 2 0)
  = (Ok ["T"%byte], sample_table 2 0)
  /\ dataToValue id_converter id_converter no_parse_Z no_parse_Z no_parse_Z
       no_parse_float ["T"%byte] logical_column (sample_table 2 0)
     = (Ok (VBool true), sample_table 2 0)
  /\ (forall b, b <> "T"%byte ->
        dataToValue id_converter id_converter no_parse_Z no_parse_Z
          no_parse_Z no_parse_float [b] logical_column (sample_table 2 0)
        = (Ok (VBool false), sample_table 2 0)).
Proof.
  apply (valueToByteRepresentation_L_dataToValue id_converter id_converter
           id_converter no_parse_Z no_parse_Z no_parse_Z no_parse_float
           no_encoder no_encoder no_encoder no_encoder no_encoder
           (mkField logical_column (VBool true)) true (sample_table 2 0)).
  - reflexivity.
  - reflexivity.
  - reflexivity.
Defined.

Lemma dataToValue_short_slot_panics_witness :
  dataToValue id_converter id_converter no_parse_Z no_parse_Z no_parse_Z
    no_parse_float ["001"; "002"]%byte (mkColumn [] "I"%byte 1 2 0)
    (sample_table 2 0)
  = (Panic "index out of range", sample_table 2 0).
Proof.
  apply (dataToValue_short_slot_panics id_converter id_converter no_parse_Z
           no_parse_Z no_parse_Z no_parse_float ["001"; "002"]%byte
           (mkColumn [] "I"%byte 1 2 0) (sample_table 2 0)).
  - reflexivity.
  - left. split; [reflexivity|]. cbn. lia.
Defined.

Lemma valueToByteRepresentation_M_dataToValue_witness :
  exists dbf' dbf'',
    valueToByteRepresentation id_converter no_encoder no_encoder no_encoder
      no_encoder no_encoder (mkField memo_column (VString ["h"; "i"]%byte))
      (sample_memo_table default_config 1)
    = (Ok ["001"; "000"; "000"; "000"]%byte, dbf')
    /\ dataToValue id_converter id_converter no_parse_Z no_parse_Z no_parse_Z
         no_parse_float ["001"; "000"; "000"; "000"]%byte memo_column dbf'
       = (Ok (VString ["h"; "i"]%byte), dbf'').
Proof.
  apply (valueToByteRepresentation_M_dataToValue id_converter id_converter
           id_converter no_parse_Z no_parse_Z no_parse_Z no_parse_float
           no_encoder no_encoder no_encoder no_encoder no_encoder
           (mkField memo_column (VString ["h"; "i"]%byte)) ["h"; "i"]%byte
           true (sample_memo_table default_config 1) (file_of (make 16))).
  - reflexivity.
  - reflexivity.
  - reflexivity.
  - vm_compute. intuition discriminate.
  - reflexivity.
  - reflexivity.
  - intros; reflexivity.
  - reflexivity.
  - vm_compute. discriminate.
  - reflexivity.
Defined.

Lemma memo_column_without_memo_file_witness :
  (exists e,
     dataToValue id_converter id_converter no_parse_Z no_parse_Z no_parse_Z
       no_parse_float ["001"; "000"; "000"; "000"]%byte memo_column
       (sample_table 2 0) = (Err e, sample_table 2 0)
     /\ is_ErrNoFPT e = true)
  /\ (exists e,
        valueToByteRepresentation id_converter no_encoder no_encoder
          no_encoder no_encoder no_encoder
          (mkField memo_column (VString ["h"; "i"]%byte)) (sample_table 2 0)
        = (Err e, sample_table 2 0)
        /\ is_ErrNoFPT e = true).
Proof.
  destruct (memo_column_without_memo_file id_converter id_converter
              id_converter no_parse_Z no_parse_Z no_parse_Z no_parse_float
              no_encoder no_encoder no_encoder no_encoder no_encoder
              (mkField memo_column (VString ["h"; "i"]%byte))
              ["001"; "000"; "000"; "000"]%byte (sample_table 2 0)
              eq_refl eq_refl) as (D & E).
  split.
  - apply D. reflexivity.
  - apply E. exists ["h"; "i"]%byte. left. reflexivity.
Defined.

Lemma valueToByteRepresentation_frame_witness :
  snd (valueToByteRepresentation id_converter no_encoder no_encoder
         no_encoder no_encoder no_encoder
         (mkField sample_column (VInt32 7)) (sample_memo_table default_config 1))
  = sample_memo_table default_config 1
  /\ valueToByteRepresentation id_converter no_encoder no_encoder no_encoder
       no_encoder no_encoder (mkField (mkColumn [] "X"%byte 1 1 0) (VInt32 7))
       (sample_memo_table default_config 1)
     = (Err (Errorf "dbase-interpreter-valuetobyterepresentation-12:FAILED:Unsupported column data type: %s at column field: %v"),
        sample_memo_table default_config 1).
Proof.
  split.
  - apply (proj1 (valueToByteRepresentation_frame id_converter no_encoder
                    no_encoder no_encoder no_encoder no_encoder
                    (mkField sample_column (VInt32 7))
                    (sample_memo_table default_config 1))).
    discriminate.
  - apply (proj2 (valueToByteRepresentation_frame id_converter no_encoder
                    no_encoder no_encoder no_encoder no_encoder
                    (mkField (mkColumn [] "X"%byte 1 1 0) (VInt32 7))
                    (sample_memo_table default_config 1))).
    cbn. intuition discriminate.
Defined.

(* ----------------------------------------------------------------- *)
(** ** Decoding only reads *)

Lemma same_bytes_refl (h : handle) : same_bytes h h.
Proof. destruct h; cbn; auto. Qed.

Lemma same_bytes_trans (a b c : handle) :
  same_bytes a b -> same_bytes b c -> same_bytes a c.
Proof.
  destruct a, b, c; cbn; try tauto.
  intros (A1 & A2 & A3 & A4) (B1 & B2 & B3 & B4).
  repeat split; congruence.
Qed.

Lemma Seek_same_bytes (h : handle) (off : Z) : same_bytes h (snd (Seek h off)).
Proof.
  unfold Seek. destruct h as [f|]; [|exact I].
  destruct (is_closed f); [apply same_bytes_refl|].
  destruct (off <? 0); [apply same_bytes_refl|].
  destruct (fault f OpSeek off); [apply same_bytes_refl|].
  cbn. auto.
Qed.

Lemma Read_same_bytes (h : handle) (n : Z) : same_bytes h (snd (Read h n)).
Proof.
  unfold Read. destruct h as [f|]; [|exact I].
  destruct (is_closed f); [apply same_bytes_refl|].
  destruct (n <=? 0); [apply same_bytes_refl|].
  destruct (fault f OpRead (cursor f)); [apply same_bytes_refl|].
  destruct (size f <=? cursor f); [apply same_bytes_refl|].
  cbn. auto.
Qed.

(** [readMemo] moves the cursor of the memo file and nothing else. *)
Lemma readMemo_read_only (blockdata : list byte) (dbf : DBF) :
  table_side (snd (readMemo blockdata dbf)) = table_side dbf
  /\ memoHeader (snd (readMemo blockdata dbf)) = memoHeader dbf
  /\ same_bytes (memoFile dbf) (memoFile (snd (readMemo blockdata dbf))).
Proof.
  unfold readMemo.
  destruct (memoFile dbf) as [f|] eqn:Em;
    [|cbn [snd]; rewrite Em; repeat split; try exact I].
  destruct (LittleEndian.Uint32 blockdata) as [block|];
    [|cbn [snd]; rewrite Em; repeat split; try apply same_bytes_refl].
  pose proof (Seek_same_bytes (Some f)
                (int64 (int64 (BlockSize (memoHeader dbf)) * int64 block)))
    as S1.
  destruct (Seek (Some f) _) as [e1 m1]. cbn [snd] in S1.
  destruct e1; [repeat split; try exact S1|].
  cbn [set_memoFile memoFile memoHeader].
  pose proof (Read_same_bytes m1 8) as S2.
  destruct (Read m1 8) as [[d2 e2] m2]. cbn [snd] in S2.
  pose proof (same_bytes_trans _ _ _ S1 S2) as S12.
  destruct e2; [repeat split; try exact S12|].
  destruct (BigEndian.Uint32 (firstn 4 (copy (make 8) d2))) as [sign|];
    [|repeat split; try exact S12].
  destruct (BigEndian.Uint32 (skipn 4 (copy (make 8) d2))) as [leng|];
    [|repeat split; try exact S12].
  destruct (leng =? 0); [repeat split; try exact S12|].
  pose proof (Read_same_bytes m2 leng) as S3.
  destruct (Read m2 leng) as [[d3 e3] m3]. cbn [snd] in S3.
  pose proof (same_bytes_trans _ _ _ S12 S3) as S123.
  destruct e3; [repeat split; try exact S123|].
  destruct (negb (len d3 =? leng)); repeat split; try exact S123.
Qed.

Section ReadOnly.

Variable Decode toUTF8String : list byte -> list byte * option error.
Variable parseDate parseDateTime parseNumericInt : list byte -> Z * option error.
Variable parseFloat : list byte -> float64 * option error.

Lemma parseMemo_read_only (raw : list byte) (dbf : DBF) :
  snd (parseMemo Decode raw dbf) = snd (readMemo raw dbf).
Proof.
  unfold parseMemo. destruct (readMemo raw dbf) as [r d].
  destruct r as [[memo isText]|e|x e|m]; try reflexivity.
  destruct isText; [|reflexivity].
  destruct (Decode memo) as [s [e|]]; reflexivity.
Qed.

(** X21. Decoding only reads. Whatever the slot, the column and the
    outcome (value, error or panic), [dataToValue] leaves the table side
    of the handle and the memo header as they were, and changes no byte,
    size or open state of the memo file (only its cursor may move); for a
    column that is not of type M the handle is returned unchanged. *)
Theorem dataToValue_read_only (raw : list byte) (col : Column) (dbf : DBF) :
  table_side (snd (dataToValue Decode toUTF8String parseDate parseDateTime
                     parseNumericInt parseFloat raw col dbf))
  = table_side dbf
  /\ memoHeader (snd (dataToValue Decode toUTF8String parseDate parseDateTime
                        parseNumericInt parseFloat raw col dbf))
     = memoHeader dbf
  /\ same_bytes (memoFile dbf)
       (memoFile (snd (dataToValue Decode toUTF8String parseDate
                         parseDateTime parseNumericInt parseFloat raw col
                         dbf)))
  /\ (ColumnType col <> "M"%string ->
      snd (dataToValue Decode toUTF8String parseDate parseDateTime
             parseNumericInt parseFloat raw col dbf) = dbf).
Proof.
  assert (E : ColumnType col <> "M"%string ->
              snd (dataToValue Decode toUTF8String parseDate parseDateTime
                     parseNumericInt parseFloat raw col dbf) = dbf).
  { intros HM. unfold dataToValue.
    destruct (negb (len raw =? Length col)); [reflexivity|].
    destruct (String.eqb_spec (ColumnType col) "M"); [contradiction|].
    destruct (toUTF8String raw) as [s [e1|]], (parseDate raw) as [d [e2|]],
      (parseDateTime raw) as [dt [e3|]], (parseNumericInt raw) as [i [e4|]],
      (parseFloat raw) as [x [e5|]], (LittleEndian.Uint32 raw),
      (LittleEndian.Uint64 raw), (Decimals col =? 0);
      repeat match goal with
             | |- snd (if ?c then _ else _) = _ => destruct c
             end; reflexivity. }
  destruct (String.eqb_spec (ColumnType col) "M") as [HM|HM].
  - assert (S : snd (dataToValue Decode toUTF8String parseDate parseDateTime
                       parseNumericInt parseFloat raw col dbf) = dbf
                \/ snd (dataToValue Decode toUTF8String parseDate
                          parseDateTime parseNumericInt parseFloat raw col dbf)
                   = snd (readMemo raw dbf)).
    { unfold dataToValue.
      destruct (negb (len raw =? Length col)); [left; reflexivity|].
      rewrite HM. cbv [String.eqb Ascii.eqb Bool.eqb]. right.
      rewrite <- parseMemo_read_only.
      destruct (parseMemo Decode raw dbf) as [r d].
      destruct r as [[memo isText]|e|x e|m]; try reflexivity.
      destruct isText; reflexivity. }
    destruct S as [S|S]; rewrite S.
    + split; [reflexivity|]. split; [reflexivity|].
      split; [apply same_bytes_refl|intros _; reflexivity].
    + destruct (readMemo_read_only raw dbf) as (A & B & C).
      split; [exact A|]. split; [exact B|]. split; [exact C|contradiction].
  - rewrite (E HM). split; [reflexivity|]. split; [reflexivity|].
    split; [apply same_bytes_refl|intros _; reflexivity].
Qed.

End ReadOnly.

Lemma dataToValue_read_only_witness :
  snd (dataToValue id_converter id_converter no_parse_Z no_parse_Z no_parse_Z
         no_parse_float ["a"; "b"; "c"]%byte sample_column
         (sample_memo_table default_config 1))
  = sample_memo_table default_config 1.
Proof.
  apply (proj2 (proj2 (proj2
           (dataToValue_read_only id_converter id_converter no_parse_Z
              no_parse_Z no_parse_Z no_parse_float ["a"; "b"; "c"]%byte
              sample_column (sample_memo_table default_config 1))))).
  discriminate.
Defined.

(* ----------------------------------------------------------------- *)
(** ** Reading the column descriptors *)

Lemma Read_inv (h h' : handle) (n : Z) (d : list byte) :
  0 < n -> Read h n = (d, None, h') ->
  exists f, h = Some f /\ is_closed f = false /\ cursor f < size f
            /\ h' = Some (set_cursor f
                            (cursor f + Z.min n (size f - cursor f))).
Proof.
  intros Hn. unfold Read. destruct h as [f|]; [|discriminate].
  destruct (is_closed f) eqn:C; [discriminate|].
  destruct (Z.leb_spec n 0); [lia|].
  destruct (fault f OpRead (cursor f)); [discriminate|].
  destruct (Z.leb_spec (size f) (cursor f)); [discriminate|].
  intros E. inversion E. exists f. repeat split; auto.
Qed.

(** A turn that goes round again has read a byte at [offset] and left the
    size of the file alone. *)
Lemma readColumns_step_continue (Name : Column -> string) (h h' : handle)
    (off off' : Z) (cols cols' : list Column) :
  readColumns_step Name h off cols = (inr (off', cols'), h') ->
  0 <= off < size_of h /\ size_of h' = size_of h
  /\ off' = int64 (off + 32).
Proof.
  unfold readColumns_step.
  destruct (Seek h off) as [[e1|] h1] eqn:E1; [discriminate|].
  apply Seek_inv in E1 as (f & -> & C & O & ->).
  destruct (Read (Some (set_cursor f off)) 1) as [[d2 [e2|]] h2] eqn:E2;
    [discriminate|].
  apply Read_inv in E2 as (f2 & Ef2 & C2 & L2 & ->); [|lia].
  apply Some_eq in Ef2. subst f2. cbn [set_cursor cursor size] in *.
  destruct (Byte.eqb _ ColumnEnd); [discriminate|].
  unfold Seek_current.
  destruct (Seek _ _) as [[e3|] h3] eqn:E3; [discriminate|].
  apply Seek_inv in E3 as (f3 & Ef3 & C3 & O3 & ->).
  apply Some_eq in Ef3. subst f3.
  destruct (Read _ 2048) as [[d4 [e4|]] h4] eqn:E4; [discriminate|].
  apply Read_inv in E4 as (f4 & Ef4 & C4 & L4 & ->); [|lia].
  apply Some_eq in Ef4. subst f4.
  destruct (decode_Column d4) as [c|]; [|discriminate].
  destruct (String.eqb (Name c) "_NullFlags"); intros E; inversion E;
    cbn [size_of set_cursor size]; repeat split; auto.
Qed.

Lemma readColumns_loop_returns (Name : Column -> string) (k : nat) :
  forall (h : handle) (off : Z) (cols : list Column),
    size_of h < 9223372036854775776 ->
    size_of h - off <= 32 * Z.of_nat k ->
    exists r h',
      forall fuel, (k < fuel)%nat ->
        readColumns_loop Name fuel h off cols = Some (r, h').
Proof.
  induction k as [|k IH]; intros h off cols B M;
    destruct (readColumns_step Name h off cols) as [[r|[off' cols']] h'] eqn:E.
  - exists r, h'. intros [|fuel] L; [lia|]. cbn. rewrite E. reflexivity.
  - apply readColumns_step_continue in E. lia.
  - exists r, h'. intros [|fuel] L; [lia|]. cbn. rewrite E. reflexivity.
  - pose proof (readColumns_step_continue _ _ _ _ _ _ _ E) as (O & S & ->).
    rewrite int64_small in E by lia.
    destruct (IH h' (off + 32) cols' ltac:(lia) ltac:(lia)) as (r & h'' & R).
    exists r, h''. intros [|fuel] L; [lia|]. cbn. rewrite E. apply R. lia.
Qed.

(** X22. [readColumns] returns. On any handle (nil, closed or failing
    ones included) whose file is smaller than 2^63 - 32 bytes, and
    whatever the bytes of the file, the loop of [readColumns] is left
    after at most [size / 32 + 1] turns: with or without a terminator
    byte it returns the columns or an error, and every larger bound on
    the number of turns gives the same result. *)
Theorem readColumns_returns (Name : Column -> string) (h : handle) :
  size_of h < 9223372036854775776 ->
  exists r h',
    forall fuel, (Z.to_nat (size_of h / 32) < fuel)%nat ->
      readColumns Name fuel h = Some (r, h').
Proof.
  intros B. unfold readColumns. apply readColumns_loop_returns; [exact B|].
  destruct (Z.le_gt_cases 0 (size_of h)) as [P|P].
  - rewrite Z2Nat.id by (apply Z.div_pos; lia).
    pose proof (Z.mul_div_le (size_of h) 32 ltac:(lia)).
    pose proof (Z.mod_pos_bound (size_of h) 32 ltac:(lia)).
    pose proof (Z.div_mod (size_of h) 32 ltac:(lia)). lia.
  - lia.
Qed.

Lemma readColumns_returns_witness :
  exists r h',
    forall fuel, (Z.to_nat (size_of (Some sample_descriptors) / 32) < fuel)%nat ->
      readColumns sample_Name fuel (Some sample_descriptors) = Some (r, h').
Proof.
  apply (readColumns_returns sample_Name (Some sample_descriptors)).
  vm_compute. reflexivity.
Defined.

Lemma map_seq_from (g : nat -> byte) (b : nat) :
  forall a, map g (seq a b) = map (fun i => g (a + i)%nat) (seq 0 b).
Proof.
  induction b as [|b IH]; intros a; [reflexivity|].
  cbn [seq map]. rewrite Nat.add_0_r. f_equal.
  rewrite IH, <- seq_shift, map_map. apply map_ext.
  intros i. f_equal. lia.
Qed.

Lemma read_range_app (f : File) (off : Z) (a b : nat) :
  read_range f off (a + b)
  = read_range f off a ++ read_range f (off + Z.of_nat a) b.
Proof.
  unfold read_range. rewrite seq_app, map_app. f_equal.
  rewrite map_seq_from. apply map_ext. intros i. f_equal. lia.
Qed.

Lemma app_inv_length (a a' b b' : list byte) :
  List.length a = List.length a' -> a ++ b = a' ++ b' -> a = a' /\ b = b'.
Proof.
  revert a'. induction a as [|x a IH]; intros [|x' a'] L E;
    try discriminate L.
  - split; [reflexivity|exact E].
  - cbn in E. injection E as -> E. injection L as L.
    destruct (IH a' L E) as (-> & ->). split; reflexivity.
Qed.

(** Only the first 32 bytes of the buffer reach the structure. *)
Lemma decode_Column_prefix (b : list byte) :
  32 <= len b -> decode_Column b = decode_Column (firstn 32 b).
Proof.
  intros H.
  do 32 (destruct b as [|? b]; [cbn in H; lia|]).
  unfold decode_Column.
  destruct (Z.ltb_spec (len (firstn 32 (b0 :: b1 :: b2 :: b3 :: b4 :: b5 ::
              b6 :: b7 :: b8 :: b9 :: b10 :: b11 :: b12 :: b13 :: b14 ::
              b15 :: b16 :: b17 :: b18 :: b19 :: b20 :: b21 :: b22 :: b23 ::
              b24 :: b25 :: b26 :: b27 :: b28 :: b29 :: b30 :: b31 :: b)))
              32) as [L|L]; [cbn in L; lia|].
  match goal with
  | |- (if ?c then _ else _) = _ => destruct c eqn:E
  end; [apply Z.ltb_lt in E; lia|].
  reflexivity.
Qed.

Lemma readColumns_loop_descriptors (Name : Column -> string)
    (ds : list (list byte)) (cols : list Column) :
  Forall2 (fun d c => len d = 32 /\ nth 0 d Byte.x00 <> ColumnEnd
                      /\ decode_Column d = Some c) ds cols ->
  forall (f : File) (off : Z) (acc : list Column) (fuel : nat),
    is_closed f = false -> (forall op o, fault f op o = false) ->
    size f < 9223372036854775776 ->
    0 <= off -> off + 32 * len ds + 1 <= size f ->
    read_range f off (32 * List.length ds + 1) = List.concat ds ++ [ColumnEnd] ->
    (List.length ds < fuel)%nat ->
    exists f',
      readColumns_loop Name fuel (Some f) off acc
      = Some (Ok (acc ++ exposed Name cols), Some f')
      /\ same_bytes (Some f) (Some f').
Proof.
  induction 1 as [|d c ds cols (Ld & Nd & Dd) _ IH];
    intros f off acc [|fuel] C F B O Sz R L; try (cbn in L; lia).
  - cbn [readColumns_loop]. unfold readColumns_step.
    rewrite Seek_ok by first [exact C | apply F | exact O].
    rewrite Read_ok by first [exact C | apply F | cbn; unfold len in Sz; cbn in Sz; lia].
    cbn [cursor set_cursor]. rewrite read_range_set_cursor.
    change (Z.to_nat 1) with 1%nat. cbn [Nat.mul Nat.add List.length] in R.
    rewrite R. cbn [List.concat app]. rewrite copy_exact by reflexivity.
    cbn [nth]. change (Byte.eqb ColumnEnd ColumnEnd) with true. cbv iota.
    eexists. split; [unfold exposed; cbn [filter]; rewrite app_nil_r;
                     reflexivity|].
    cbn. auto.
  - assert (Ln : List.length d = 32%nat) by (unfold len in Ld; lia).
    cbn [List.length] in L, R. unfold len in Sz. cbn [List.length] in Sz.
    assert (EQ : forall n, (32 * S n + 1 = 32 + (32 * n + 1))%nat)
      by (intros; lia).
    rewrite EQ, read_range_app in R. cbn [List.concat] in R. rewrite <- app_assoc in R.
    apply app_inv_length in R as (Rd & Rr);
      [|unfold read_range; rewrite length_map, length_seq; symmetry;
        exact Ln].
    change (Z.of_nat 32) with 32 in Rr.
    assert (B0 : read_range f off 1 = [nth 0 d Byte.x00])
      by (rewrite <- Rd; reflexivity).
    cbn [readColumns_loop]. unfold readColumns_step.
    rewrite Seek_ok by first [exact C | apply F | exact O].
    rewrite Read_ok by first [exact C | apply F | cbn; lia].
    cbn [cursor set_cursor]. rewrite read_range_set_cursor.
    change (Z.to_nat 1) with 1%nat. rewrite B0.
    rewrite copy_exact by reflexivity. cbn [nth].
    destruct (Byte.eqb (nth 0 d Byte.x00) ColumnEnd) eqn:EB;
      [apply Byte.byte_dec_bl in EB; contradiction|].
    unfold Seek_current.
    change (cursor (set_cursor (set_cursor f off) (off + 1)) + -1)
      with (off + 1 + -1).
    replace (off + 1 + -1) with off by lia.
    rewrite Seek_ok by first [exact C | apply F | exact O].
    unfold Read.
    change (is_closed (set_cursor (set_cursor (set_cursor f off) (off + 1)) off))
      with (is_closed f).
    cbn [set_cursor cursor fault size]. rewrite C, F.
    change (2048 <=? 0) with false. cbv iota.
    destruct (Z.leb_spec (size f) off); [lia|].
    rewrite !read_range_set_cursor.
    set (k := Z.min 2048 (size f - off)).
    assert (K : 32 <= k) by (unfold k; lia).
    rewrite decode_Column_prefix by (rewrite len_read_range; lia).
    replace (Z.to_nat k) with (32 + (Z.to_nat k - 32))%nat by lia.
    rewrite read_range_app, firstn_app, firstn_all2
      by (unfold read_range; rewrite length_map, length_seq; lia).
    replace (32 - List.length (read_range f off 32))%nat with 0%nat
      by (unfold read_range; rewrite length_map, length_seq; lia).
    cbn [firstn]. rewrite app_nil_r, Rd, Dd.
    rewrite int64_small by lia.
    set (f' := set_cursor _ (off + k)).
    destruct (String.eqb (Name c) "_NullFlags") eqn:EN.
    + destruct (IH f' (off + 32) acc fuel C F B ltac:(lia)
                  ltac:(unfold len; cbn [size f' set_cursor]; lia) Rr
                  ltac:(lia)) as (f'' & E & SB).
      exists f''. split.
      * rewrite E. unfold exposed. cbn [filter]. rewrite EN. reflexivity.
      * destruct SB as (S1 & S2 & S3 & S4). cbn. auto.
    + destruct (IH f' (off + 32) (acc ++ [c]) fuel C F B ltac:(lia)
                  ltac:(unfold len; cbn [size f' set_cursor]; lia) Rr
                  ltac:(lia)) as (f'' & E & SB).
      exists f''. split.
      * rewrite E. unfold exposed. cbn [filter]. rewrite EN.
        rewrite <- app_assoc. reflexivity.
      * destruct SB as (S1 & S2 & S3 & S4). cbn. auto.
Qed.

(** X23. [readColumns] returns the described columns. On a table file
    that answers every system call and holds, from offset 32 on, [n]
    descriptors of 32 bytes, none starting with the terminator byte,
    followed by the terminator byte, [readColumns] returns after [n + 1]
    turns with the decoded descriptors in file order, less those named
    [_NullFlags], and changes nothing of the file but its cursor. *)
Theorem readColumns_descriptors (Name : Column -> string) (f : File)
    (ds : list (list byte)) (cols : list Column) :
  is_closed f = false -> (forall op o, fault f op o = false) ->
  size f < 9223372036854775776 ->
  Forall2 (fun d c => len d = 32 /\ nth 0 d Byte.x00 <> ColumnEnd
                      /\ decode_Column d = Some c) ds cols ->
  32 + 32 * len ds + 1 <= size f ->
  read_range f 32 (32 * List.length ds + 1) = List.concat ds ++ [ColumnEnd] ->
  forall fuel, (List.length ds < fuel)%nat ->
    exists f',
      readColumns Name fuel (Some f)
      = Some (Ok (exposed Name cols), Some f')
      /\ same_bytes (Some f) (Some f').
Proof.
  intros C F B D S R fuel L. unfold readColumns.
  apply (readColumns_loop_descriptors Name ds cols D f 32 [] fuel C F B
           ltac:(lia) S R L).
Qed.

Lemma readColumns_descriptors_witness :
  exists f',
    readColumns sample_Name 3 (Some sample_descriptors)
    = Some (Ok [mkColumn ("A"%byte :: make 10) "C"%byte 1 3 0], Some f')
    /\ same_bytes (Some sample_descriptors) (Some f').
Proof.
  apply (readColumns_descriptors sample_Name sample_descriptors
           [sample_descriptor "A"%byte "C"%byte 3;
            sample_descriptor "_"%byte "0"%byte 1]
           [mkColumn ("A"%byte :: make 10) "C"%byte 1 3 0;
            mkColumn ("_"%byte :: make 10) "0"%byte 1 1 0]).
  - reflexivity.
  - intros; reflexivity.
  - vm_compute. reflexivity.
  - repeat constructor; try (vm_compute; reflexivity); discriminate.
  - vm_compute. discriminate.
  - vm_compute. reflexivity.
  - cbn. lia.
Defined.

(* ----------------------------------------------------------------- *)
(** ** The unlock of the memo header goes to the table file *)

Lemma writeMemoHeader_body_ok (dbf : DBF) (mf : File) :
  memoFile dbf = Some mf -> is_closed mf = false ->
  (forall op off, fault mf op off = false) ->
  writeMemoHeader_body dbf = (None, after_memo_header dbf mf).
Proof.
  intros Em C F. unfold writeMemoHeader_body. rewrite Em.
  rewrite Seek_ok by first [exact C | apply F | lia].
  cbn [set_memoFile set_memoHeader memoFile memoHeader set_NextFree NextFree
       BlockSize].
  rewrite Write_ok by first [exact C | apply F].
  reflexivity.
Qed.

(** X24. A failed unlock costs a block number. With [WriteLock] set, on a
    memo file that answers every system call, when the unlock that
    [writeMemoHeader] issues on the table file fails (a nil or closed
    table file, for one), [writeMemo] returns that error and writes no
    block, but the memo header has already been counted up and rewritten:
    [NextFree] is one more, in memory and in the first eight bytes of the
    file, and every other byte of the file is as before. *)
Theorem writeMemo_unlock_failure (raw : list byte) (text : bool) (length : Z)
    (dbf : DBF) (mf : File) (ue : error) :
  WriteLock (config dbf) = true ->
  memoFile dbf = Some mf -> is_closed mf = false ->
  (forall op off, fault mf op off = false) ->
  FcntlFlock_unlock (dbaseFile dbf) 0 = Some ue ->
  exists dbf' mf',
    writeMemo raw text length dbf
    = (Err (newError "dbase-io-writememo-2"
              (newError "dbase-io-writememoheader-3" ue)), dbf')
    /\ NextFree (memoHeader dbf') = uint32 (NextFree (memoHeader dbf) + 1)
    /\ memoFile dbf' = Some mf'
    /\ read_range mf' 0 8
       = memo_header_bytes (uint32 (NextFree (memoHeader dbf) + 1))
           (BlockSize (memoHeader dbf))
    /\ (forall i, 8 <= i -> contents mf' i = contents mf i).
Proof.
  intros W Em C F U.
  exists (after_memo_header dbf mf). eexists.
  split; [|split; [reflexivity|split; [reflexivity|split]]].
  - unfold writeMemo, writeMemoHeader. rewrite Em, W.
    rewrite FcntlFlock_lock_ok by first [exact C | apply F].
    rewrite (writeMemoHeader_body_ok dbf mf Em C F).
    change (dbaseFile (after_memo_header dbf mf)) with (dbaseFile dbf).
    rewrite U. reflexivity.
  - apply read_range_store_all.
  - intros i Hi. rewrite contents_store_outside; [reflexivity|].
    change (len (memo_header_bytes _ _)) with 8. lia.
Qed.

Lemma writeMemo_unlock_failure_witness :
  exists dbf' mf',
    writeMemo ["h"; "i"]%byte true 2
      (set_dbaseFile (sample_memo_table locking_config 1) None)
    = (Err (newError "dbase-io-writememo-2"
              (newError "dbase-io-writememoheader-3" EBADF)), dbf')
    /\ NextFree (memoHeader dbf') = 2
    /\ memoFile dbf' = Some mf'
    /\ read_range mf' 0 8 = memo_header_bytes 2 16
    /\ (forall i, 8 <= i -> contents mf' i = contents (file_of (make 16)) i).
Proof.
  apply (writeMemo_unlock_failure ["h"; "i"]%byte true 2
           (set_dbaseFile (sample_memo_table locking_config 1) None)
           (file_of (make 16)) EBADF).
  - reflexivity.
  - reflexivity.
  - reflexivity.
  - intros; reflexivity.
  - reflexivity.
Defined.

(* ----------------------------------------------------------------- *)
(** ** Preparing the handle *)

Section PrepareHandle.

Variable Name : Column -> string.
Variable decode_Header : list byte -> option Header.

Lemma readHeader_ok (f : File) (hd : Header) :
  is_closed f = false -> (forall op o, fault f op o = false) ->
  0 < size f ->
  decode_Header (read_range f 0 (Z.to_nat (Z.min 1024 (size f)))) = Some hd ->
  readHeader decode_Header (Some f)
  = (Ok hd, Some (set_cursor (set_cursor f 0) (0 + Z.min 1024 (size f - 0)))).
Proof.
  intros C F S D. unfold readHeader.
  rewrite Seek_ok by first [exact C | apply F | lia].
  unfold Read. change (is_closed (set_cursor f 0)) with (is_closed f).
  cbn [set_cursor cursor fault size]. rewrite C, F.
  change (1024 <=? 0) with false. cbv iota.
  destruct (Z.leb_spec (size f) 0); [lia|].
  rewrite read_range_set_cursor, Z.sub_0_r, D. reflexivity.
Qed.

(** X25. [prepareDBF] builds the handle from the file. On a table file
    that answers every system call, whose first bytes decode to a header
    of version FoxPro or FoxProAutoincrement (or any version when
    [Untested] is set) and whose descriptors from offset 32 on end with
    the terminator byte, [prepareDBF] returns a handle with that header,
    the configuration given, no memo file and the row pointer at 0, and
    the described columns less the [_NullFlags] ones; no byte of the file
    is changed. *)
Theorem prepareDBF_spec (f : File) (config : Config) (hd : Header)
    (ds : list (list byte)) (cols : list Column) (fuel : nat) :
  is_closed f = false -> (forall op o, fault f op o = false) ->
  size f < 9223372036854775776 ->
  decode_Header (read_range f 0 (Z.to_nat (Z.min 1024 (size f)))) = Some hd ->
  FileType hd = FoxPro \/ FileType hd = FoxProAutoincrement
  \/ Untested config = true ->
  Forall2 (fun d c => len d = 32 /\ nth 0 d Byte.x00 <> ColumnEnd
                      /\ decode_Column d = Some c) ds cols ->
  32 + 32 * len ds + 1 <= size f ->
  read_range f 32 (32 * List.length ds + 1) = List.concat ds ++ [ColumnEnd] ->
  (List.length ds < fuel)%nat ->
  exists f',
    prepareDBF Name decode_Header fuel (Some f) config
    = Some (Ok (mkDBF config (Some f') None hd (mkMemoHeader 0 0) 0,
                exposed Name cols), Some f')
    /\ same_bytes (Some f) (Some f').
Proof.
  intros C F B D V FA Sz R L.
  pose proof (len_nonneg ds) as P.
  unfold prepareDBF. rewrite (readHeader_ok f hd C F ltac:(lia) D).
  set (f1 := set_cursor _ _).
  assert (VV : validateFileVersion (FileType hd) (Untested config) = None).
  { unfold validateFileVersion.
    destruct V as [V|[V|V]]; rewrite V; try reflexivity.
    destruct (_ || _); reflexivity. }
  rewrite VV. unfold readColumns.
  destruct (readColumns_loop_descriptors Name ds cols FA f1 32 [] fuel C F B
              ltac:(lia) Sz R L) as (f' & E & SB).
  rewrite E. exists f'. split; [reflexivity|].
  destruct SB as (S1 & S2 & S3 & S4). cbn. auto.
Qed.

(** X26. The version check of [prepareDBF]. On a table file that answers
    every system call and whose first bytes decode to a header,
    [prepareDBF] fails with the untested-version error exactly when the
    version byte is neither FoxPro nor FoxProAutoincrement and
    [Untested] is not set; it then fails so before any column is read,
    whatever follows the header. *)
Theorem prepareDBF_version (f : File) (config : Config) (hd : Header)
    (fuel : nat) :
  is_closed f = false -> (forall op o, fault f op o = false) ->
  0 < size f ->
  decode_Header (read_range f 0 (Z.to_nat (Z.min 1024 (size f)))) = Some hd ->
  (exists e h',
     prepareDBF Name decode_Header fuel (Some f) config = Some (Err e, h')
     /\ is_untested_version e = true)
  <-> (FileType hd <> FoxPro /\ FileType hd <> FoxProAutoincrement
       /\ Untested config = false).
Proof.
  intros C F S D. unfold prepareDBF. rewrite (readHeader_ok f hd C F S D).
  unfold validateFileVersion.
  destruct (Z.eqb_spec (FileType hd) FoxPro) as [V1|V1];
    [|destruct (Z.eqb_spec (FileType hd) FoxProAutoincrement) as [V2|V2];
      [|destruct (Untested config) eqn:U]]; cbn [orb]; split.
  1, 3, 5: intros (e & h' & E & T);
    destruct (readColumns Name fuel _) as [[[cs|e'|x e'|m] h'']|];
    try discriminate E; apply Some_eq in E; inversion E; subst e;
    discriminate T.
  1, 2, 3: intros (N1 & N2 & N3); try contradiction; discriminate N3.
  - intros _. repeat split; auto.
  - intros _. eexists. eexists. split; reflexivity.
Qed.

End PrepareHandle.

Lemma prepareDBF_spec_witness :
  exists f',
    prepareDBF sample_Name sample_decode_Header 3
      (Some (sample_table_file "0"%byte)) default_config
    = Some (Ok (mkDBF default_config (Some f') None
                  (mkHeader 48 24 1 31 0 98 4 0 0) (mkMemoHeader 0 0) 0,
                [mkColumn ("A"%byte :: make 10) "C"%byte 1 3 0]), Some f')
    /\ same_bytes (Some (sample_table_file "0"%byte)) (Some f').
Proof.
  apply (prepareDBF_spec sample_Name sample_decode_Header
           (sample_table_file "0"%byte) default_config
           (mkHeader 48 24 1 31 0 98 4 0 0)
           [sample_descriptor "A"%byte "C"%byte 3;
            sample_descriptor "_"%byte "0"%byte 1]
           [mkColumn ("A"%byte :: make 10) "C"%byte 1 3 0;
            mkColumn ("_"%byte :: make 10) "0"%byte 1 1 0] 3).
  - reflexivity.
  - intros; reflexivity.
  - vm_compute. reflexivity.
  - vm_compute. reflexivity.
  - left. reflexivity.
  - repeat constructor; try (vm_compute; reflexivity); discriminate.
  - vm_compute. discriminate.
  - vm_compute. reflexivity.
  - cbn. lia.
Defined.

Lemma prepareDBF_version_witness :
  exists e h',
    prepareDBF sample_Name sample_decode_Header 3
      (Some (sample_table_file "003"%byte)) default_config = Some (Err e, h')
    /\ is_untested_version e = true.
Proof.
  apply (proj2 (prepareDBF_version sample_Name sample_decode_Header
                  (sample_table_file "003"%byte) default_config
                  (mkHeader 3 24 1 31 0 98 4 0 0) 3
                  eq_refl (fun _ _ => eq_refl) eq_refl eq_refl)).
  repeat split; discriminate.
Defined.

(* ----------------------------------------------------------------- *)
(** ** Memo files without a full header *)

Lemma decode_MemoHeader_short (f : File) (k : nat) :
  (k < 8)%nat -> decode_MemoHeader (read_range f 0 k) = None.
Proof.
  intros H.
  destruct k as [|[|[|[|[|[|[|[|k]]]]]]]]; try reflexivity. lia.
Qed.

(** X27. [prepareMemo] rejects what cannot hold a memo header. When the
    memo file is nil, closed, or shorter than the eight bytes of the
    header, [prepareMemo] returns an error and leaves the handle as it
    was: neither the memo file nor the memo header is set. *)
Theorem prepareMemo_short_file (memoFile : handle) (dbf : DBF) :
  (memoFile = None
   \/ exists f, memoFile = Some f /\ (is_closed f = true \/ size f < 8)) ->
  exists e, prepareMemo memoFile dbf = (Some e, dbf).
Proof.
  intros [->|(f & -> & H)]; [eexists; reflexivity|].
  unfold prepareMemo, readMemoHeader, Seek.
  destruct (is_closed f) eqn:C; [eexists; reflexivity|].
  destruct H as [H|H]; [discriminate|].
  change (0 <? 0) with false. cbv iota.
  destruct (fault f OpSeek 0); [eexists; reflexivity|].
  unfold Read. change (is_closed (set_cursor f 0)) with (is_closed f).
  cbn [set_cursor cursor fault size]. rewrite C.
  change (1024 <=? 0) with false. cbv iota.
  destruct (fault f OpRead 0); [eexists; reflexivity|].
  destruct (Z.leb_spec (size f) 0); [eexists; reflexivity|].
  rewrite read_range_set_cursor, decode_MemoHeader_short by lia.
  eexists. reflexivity.
Qed.

Lemma prepareMemo_short_file_witness :
  exists e,
    prepareMemo (Some (file_of ["000"; "000"; "000"; "001"]%byte))
      (sample_table 2 0)
    = (Some e, sample_table 2 0).
Proof.
  apply (prepareMemo_short_file
           (Some (file_of ["000"; "000"; "000"; "001"]%byte))
           (sample_table 2 0)).
  right. exists (file_of ["000"; "000"; "000"; "001"]%byte).
  split; [reflexivity|]. right. cbn. lia.
Defined.

(* ----------------------------------------------------------------- *)
(** ** Writing with the write lock on *)


Section LockedWrites.

Variable now : Z * Z * Z.
Variable Header_bytes : Header -> list byte.
Variable ToBytes : Row -> DBF -> (list byte + error) * (handle * MemoHeader).




End LockedWrites.

